(** * Shift cipher: enciphering and deciphering programs

    A shallow embedding of the ShiftCipher programs (the encipher program,
    the ShiftDecipher program and the second source of ShiftDecipher) and
    the properties of their substitution dictionaries, stream transform and
    command-line parsing.

    Conventions of the embedding:
    - a C++ [int] is a [Z]; the only arithmetic done on shift amounts is
      [%] (truncating, [Z.rem]) and adding a modulus to a negative number,
      neither of which can leave the range of [int];
    - a [char] is an [ascii], a [std::string] a [string];
    - [std::map<char,char>] is a [gmap ascii ascii];
    - [std::valarray<char>] is a [list ascii];
    - a function that mutates [*ciphopts] takes and returns the record;
    - exceptions and undefined behaviour are explicit outcomes. *)

From Stdlib Require Import ZArith Ascii String List Lia.
From stdpp Require Import base option list gmap strings.

Local Open Scope Z_scope.

(** ** Characters and the four alphabets *)

Definition chr (n : nat) : ascii := ascii_of_nat n.

(** The [std::valarray<char>] constants of the sources, the same in all of
    them (the decipher sources call them ORIG_UPPERCASE, ORIG_LOWERCASE,
    ORIG_DIGITS and ORIG_PUNCTUATION_SYMBOLS). *)
Definition ORIG_UPPER : list ascii := list_ascii_of_string "ABCDEFGHIJKLMNOPQRSTUVWXYZ".
Definition ORIG_LOWER : list ascii := list_ascii_of_string "abcdefghijklmnopqrstuvwxyz".
Definition ORIG_NUMBERS : list ascii := list_ascii_of_string "0123456789".
Definition ORIG_PUNCTS : list ascii :=
  [ "!"; chr 34; "#"; "$"; "%"; "&";
    "'"; "("; ")"; "*"; "+"; ",";
    "-"; "."; "/"; ":"; ";"; "<";
    "="; ">"; "?"; "@"; "["; "\";
    "]"; "^"; "_"; "`"; "{"; "|";
    "}"; "~" ]%char.

(** ** Shift reduction *)

(** The loop [while (eff_shift < 0) eff_shift += mod_size], run for at most
    [fuel] iterations; [None] when the fuel does not suffice. *)
Fixpoint add_until_nonneg (fuel : nat) (eff_shift mod_size : Z) : option Z :=
  if eff_shift <? 0 then
    match fuel with
    | O => None
    | S fuel' => add_until_nonneg fuel' (eff_shift + mod_size) mod_size
    end
  else Some eff_shift.

(** [calculateEffectiveShift] of the encipher program, [calcReducedShift] of
    the decipher program (the same body).  The loop is given
    [-original_shift] iterations, enough for every positive modulus; with a
    modulus that is not positive the C++ loop does not end, which is [None]
    here. *)
Definition calculateEffectiveShift (original_shift mod_size : Z) : option Z :=
  if original_shift <? 0 then
    add_until_nonneg (Z.to_nat (- original_shift)) original_shift mod_size
  else if original_shift >=? 0 then Some (Z.rem original_shift mod_size)
  else Some 0.

Definition calcReducedShift (original_shift mod_size : Z) : option Z :=
  if original_shift <? 0 then
    add_until_nonneg (Z.to_nat (- original_shift)) original_shift mod_size
  else if original_shift >=? 0 then Some (Z.rem original_shift mod_size)
  else Some 0.

(** ** [std::valarray::cshift] *)

(** [cshift n] of a valarray: element [i] of the result is element
    [(i + n) mod size] of the original (a circular shift to the left for a
    non-negative [n], to the right for a negative one). *)
Definition cshift {A} (l : list A) (n : Z) : list A :=
  rotate (Z.to_nat (n mod Z.of_nat (length l))) l.

(** ** Dictionaries *)

Abbreviation ChrDict := (gmap ascii ascii).

(** [for (n = 0; n < from.size(); ++n) dict[keys[n]] = vals[n]] *)
Definition assign_all (keys vals : list ascii) (dict : ChrDict) : ChrDict :=
  foldl (fun d kv => <[kv.1 := kv.2]> d) dict (zip keys vals).

(** ** Strings, exceptions and outcomes *)

Local Open Scope string_scope.

Definition nl : string := String (chr 10) EmptyString.

(** The characters of a string from index 1 on. *)
Definition string_rest (s : string) : string :=
  match s with
  | EmptyString => EmptyString
  | String _ s' => s'
  end.

(** The exceptions the programs throw or let escape. *)
Inductive exn : Type :=
| invalid_argument (what : string)
| out_of_range (what : string)
| filesystem_error (what : string) (path : string).

(** How a call that works on a state [S] ends: it returns a value, it throws
    (the state as it was left is still there for the caller), or its
    behaviour is undefined in C++. *)
Inductive completion (S A : Type) : Type :=
| Returns (a : A) (s : S)
| Throws (e : exn) (s : S)
| Undefined.
Arguments Returns {S A} a s.
Arguments Throws {S A} e s.
Arguments Undefined {S A}.

(** [bitset] element access: [flags[i]], [flags[i] = true] and
    [flags[i] = false] on a [std::bitset<8>] held as a number. *)
Definition flag (flags : Z) (i : Z) : bool := Z.testbit flags i.
Arguments flag : simpl never.
Definition flag_set (i : Z) (flags : Z) : Z := Z.setbit flags i.
Definition flag_reset (i : Z) (flags : Z) : Z := Z.clearbit flags i.

(** What the programs print, in order.  The texts of the usage, help and log
    displays are not modelled, only that they are shown. *)
Inductive event : Type :=
| PrintUsage (progname : string)
| PrintHelp (progname : string)
| PrintWhat (e : exn)
| PrintUnexpected
| PrintCharsRead (n : Z)
| PrintLogInfo (infile outfile : string) (shift : Z) (nbytes : Z).

(** [what()] of the exception [std::vector::at] throws; the text is the
    library's. *)
Definition vector_at_what : string := "vector::_M_range_check".

(** [std::string::npos] and [find_last_of(c)]: the index of the last
    occurrence of [c], [npos] when there is none. *)
Definition npos : Z := 18446744073709551615.

Fixpoint find_last_of_from (s : string) (c : ascii) (i found : Z) : Z :=
  match s with
  | EmptyString => found
  | String x s' =>
      find_last_of_from s' c (i + 1) (if Ascii.eqb x c then i else found)
  end.

Definition find_last_of (s : string) (c : ascii) : Z :=
  find_last_of_from s c 0 npos.

(** [fsys::path(p).filename().string()]: what follows the last [/]. *)
Fixpoint filename_from (p : string) (cur : string) : string :=
  match p with
  | EmptyString => cur
  | String c p' =>
      if Ascii.eqb c "/" then filename_from p' EmptyString
      else filename_from p' (cur ++ String c EmptyString)
  end.

Definition path_filename (p : string) : string := filename_from p EmptyString.

(** [std::stoi(str, nullptr, 10)]: leading white space is skipped, an
    optional sign and the longest run of decimal digits are read; no digit
    is [invalid_argument], a value outside [int] is [out_of_range]. *)
Definition INT_MIN : Z := -2147483648.
Definition INT_MAX : Z := 2147483647.

Definition isspace (c : ascii) : bool :=
  let n := nat_of_ascii c in
  (Nat.eqb n 32 || (Nat.leb 9 n && Nat.leb n 13))%bool.

Definition digit_value (c : ascii) : option Z :=
  let n := Z.of_nat (nat_of_ascii c) in
  if ((48 <=? n)%Z && (n <=? 57)%Z)%bool then Some (n - 48)%Z else None.

Fixpoint skip_spaces (s : string) : string :=
  match s with
  | String c s' => if isspace c then skip_spaces s' else s
  | EmptyString => s
  end.

Fixpoint read_digits (s : string) (acc : option Z) : option Z :=
  match s with
  | String c s' =>
      match digit_value c with
      | Some d => read_digits s' (Some (10 * default 0 acc + d))
      | None => acc
      end
  | EmptyString => acc
  end.

Definition stoi (str : string) : exn + Z :=
  let s := skip_spaces str in
  let '(negative, digits) :=
    match s with
    | String c s' =>
        if Ascii.eqb c "-" then (true, s')
        else if Ascii.eqb c "+" then (false, s')
        else (false, s)
    | EmptyString => (false, s)
    end in
  match read_digits digits None with
  | None => inl (invalid_argument "stoi")
  | Some v =>
      let v := if negative then - v else v in
      if ((INT_MIN <=? v)%Z && (v <=? INT_MAX)%Z)%bool then inr v
      else inl (out_of_range "stoi")
  end.

(** ** Files and the stream transform *)

(** The file system: the regular files, each under the name that stands for
    the file itself; the paths that cannot be opened for writing; what has
    been printed; and the paths that name a file under another name
    ([./f] for [f], a relative path for an absolute one, a symbolic or a
    hard link), each with the name of the file it resolves to. *)
Record world : Type := mkFileSystem {
  files : gmap string string;
  unwritable : gset string;
  console : list event;
  links : gmap string string
}.

(** A file system in which every path names a file of its own. *)
Abbreviation mkWorld f u c := (mkFileSystem f u c ∅).

(** The file a path resolves to: the one [links] records for it, the path
    itself when there is none. *)
Definition resolve (w : world) (path : string) : string :=
  default path (links w !! path).

(** [fsys::exists(path)] and the text an input stream opened on [path]
    reads: those of the file the path resolves to. *)
Definition file_at (w : world) (path : string) : option string :=
  files w !! resolve w path.

(** How a run of [main] ends: with an exit status, or with no defined
    behaviour (undefined behaviour was reached, or a loop does not end). *)
Inductive run : Type :=
| Exit (status : Z) (w : world)
| UndefinedBehaviour.

Definition print (e : event) (w : world) : world :=
  mkFileSystem (files w) (unwritable w) (console w ++ [e]) (links w).

(** [std::ofstream ofile(path)]: the file the path resolves to is created
    or truncated; opening fails for the empty path and for the paths that
    are not writable. *)
Definition can_open_for_writing (path : string) (w : world) : bool :=
  negb (String.eqb path "") && bool_decide (path ∉ unwritable w).

Definition open_ofstream (path : string) (w : world) : bool * world :=
  if can_open_for_writing path w
  then (true, mkFileSystem (<[resolve w path := ""]> (files w))
                 (unwritable w) (console w) (links w))
  else (false, w).

Definition write_file (path content : string) (w : world) : world :=
  mkFileSystem (<[resolve w path := content]> (files w))
    (unwritable w) (console w) (links w).

(** The lines [std::getline] yields one after the other: the text up to a
    newline, the newline dropped; a last line without a newline is a line,
    reading at the end of the file with nothing extracted ends the loop. *)
Fixpoint getlines (content line : string) (extracted : bool) : list string :=
  match content with
  | EmptyString => if extracted then [line] else []
  | String c rest =>
      if Ascii.eqb c (chr 10) then line :: getlines rest "" false
      else getlines rest (line ++ String c "") true
  end.

(** One step of the inner loop: [cipher_dict.contains(c)] selects
    [cipher_dict[c]], any other character is copied. *)
Definition substitute (dict : ChrDict) (c : ascii) : ascii :=
  match dict !! c with
  | Some c' => c'
  | None => c
  end.

(** The inner [for] loop over one line. *)
Fixpoint transform_line (dict : ChrDict) (origstr : string) : string :=
  match origstr with
  | EmptyString => EmptyString
  | String c s => String (substitute dict c) (transform_line dict s)
  end.

(** The [while (getline)] loop: the text written to the output stream
    ([ofile << outstr << endl] for each line) and the characters counted. *)
Fixpoint transform_lines (dict : ChrDict) (lines : list string) : string * Z :=
  match lines with
  | [] => ("", 0)
  | origstr :: more =>
      let '(written, count) := transform_lines dict more in
      (transform_line dict origstr ++ nl ++ written,
       Z.of_nat (String.length origstr) + count)
  end.

(** * The encipher program *)

Module Encipher.

(** [struct CipherOptions] *)
Record CipherOptions : Type := mkCipherOptions {
  program_name : string;
  prog_name_stripped : string;
  infilename : string;
  outfilename : string;
  use_default_oname : bool;
  shift_amount : Z;
  effective_shift : Z;
  numbers_shift : Z;
  puncts_shift : Z;
  enc_numbers : bool;
  enc_puncts : bool;
  cipher_dict : ChrDict;
  nbytes_file : Z;
  display_log_info : bool
}.

(** A default-initialised [CipherOptions], as [main] declares it. *)
Definition cmdopts0 : CipherOptions :=
  mkCipherOptions "" "" "" "" true 5 5 0 0 false false ∅ 0 false.

(** Assignments to the members. *)
Definition set_program_name v o :=
  mkCipherOptions v (prog_name_stripped o) (infilename o) (outfilename o)
    (use_default_oname o) (shift_amount o) (effective_shift o) (numbers_shift o)
    (puncts_shift o) (enc_numbers o) (enc_puncts o) (cipher_dict o)
    (nbytes_file o) (display_log_info o).
Definition set_prog_name_stripped v o :=
  mkCipherOptions (program_name o) v (infilename o) (outfilename o)
    (use_default_oname o) (shift_amount o) (effective_shift o) (numbers_shift o)
    (puncts_shift o) (enc_numbers o) (enc_puncts o) (cipher_dict o)
    (nbytes_file o) (display_log_info o).
Definition set_infilename v o :=
  mkCipherOptions (program_name o) (prog_name_stripped o) v (outfilename o)
    (use_default_oname o) (shift_amount o) (effective_shift o) (numbers_shift o)
    (puncts_shift o) (enc_numbers o) (enc_puncts o) (cipher_dict o)
    (nbytes_file o) (display_log_info o).
Definition set_outfilename v o :=
  mkCipherOptions (program_name o) (prog_name_stripped o) (infilename o) v
    (use_default_oname o) (shift_amount o) (effective_shift o) (numbers_shift o)
    (puncts_shift o) (enc_numbers o) (enc_puncts o) (cipher_dict o)
    (nbytes_file o) (display_log_info o).
Definition set_use_default_oname v o :=
  mkCipherOptions (program_name o) (prog_name_stripped o) (infilename o)
    (outfilename o) v (shift_amount o) (effective_shift o) (numbers_shift o)
    (puncts_shift o) (enc_numbers o) (enc_puncts o) (cipher_dict o)
    (nbytes_file o) (display_log_info o).
Definition set_shift_amount v o :=
  mkCipherOptions (program_name o) (prog_name_stripped o) (infilename o)
    (outfilename o) (use_default_oname o) v (effective_shift o) (numbers_shift o)
    (puncts_shift o) (enc_numbers o) (enc_puncts o) (cipher_dict o)
    (nbytes_file o) (display_log_info o).
Definition set_effective_shift v o :=
  mkCipherOptions (program_name o) (prog_name_stripped o) (infilename o)
    (outfilename o) (use_default_oname o) (shift_amount o) v (numbers_shift o)
    (puncts_shift o) (enc_numbers o) (enc_puncts o) (cipher_dict o)
    (nbytes_file o) (display_log_info o).
Definition set_numbers_shift v o :=
  mkCipherOptions (program_name o) (prog_name_stripped o) (infilename o)
    (outfilename o) (use_default_oname o) (shift_amount o) (effective_shift o) v
    (puncts_shift o) (enc_numbers o) (enc_puncts o) (cipher_dict o)
    (nbytes_file o) (display_log_info o).
Definition set_puncts_shift v o :=
  mkCipherOptions (program_name o) (prog_name_stripped o) (infilename o)
    (outfilename o) (use_default_oname o) (shift_amount o) (effective_shift o)
    (numbers_shift o) v (enc_numbers o) (enc_puncts o) (cipher_dict o)
    (nbytes_file o) (display_log_info o).
Definition set_enc_numbers v o :=
  mkCipherOptions (program_name o) (prog_name_stripped o) (infilename o)
    (outfilename o) (use_default_oname o) (shift_amount o) (effective_shift o)
    (numbers_shift o) (puncts_shift o) v (enc_puncts o) (cipher_dict o)
    (nbytes_file o) (display_log_info o).
Definition set_enc_puncts v o :=
  mkCipherOptions (program_name o) (prog_name_stripped o) (infilename o)
    (outfilename o) (use_default_oname o) (shift_amount o) (effective_shift o)
    (numbers_shift o) (puncts_shift o) (enc_numbers o) v (cipher_dict o)
    (nbytes_file o) (display_log_info o).
Definition set_cipher_dict v o :=
  mkCipherOptions (program_name o) (prog_name_stripped o) (infilename o)
    (outfilename o) (use_default_oname o) (shift_amount o) (effective_shift o)
    (numbers_shift o) (puncts_shift o) (enc_numbers o) (enc_puncts o) v
    (nbytes_file o) (display_log_info o).
Definition set_nbytes_file v o :=
  mkCipherOptions (program_name o) (prog_name_stripped o) (infilename o)
    (outfilename o) (use_default_oname o) (shift_amount o) (effective_shift o)
    (numbers_shift o) (puncts_shift o) (enc_numbers o) (enc_puncts o)
    (cipher_dict o) v (display_log_info o).
Definition set_display_log_info v o :=
  mkCipherOptions (program_name o) (prog_name_stripped o) (infilename o)
    (outfilename o) (use_default_oname o) (shift_amount o) (effective_shift o)
    (numbers_shift o) (puncts_shift o) (enc_numbers o) (enc_puncts o)
    (cipher_dict o) (nbytes_file o) v.

(** [generateCipherDict]: the reduced shifts are stored, the four alphabets
    are shifted, and every original symbol is mapped to the shifted symbol
    at its index.  The result is [None] only if a shift reduction does not
    return. *)
Definition generateCipherDict (ciphopts : CipherOptions) : option CipherOptions :=
  eff ← calculateEffectiveShift (shift_amount ciphopts) 26;
  let o1 := set_effective_shift eff ciphopts in
  o2 ← (if enc_numbers o1 then
          n ← calculateEffectiveShift (shift_amount o1)
                 (Z.of_nat (length ORIG_NUMBERS));
          Some (set_numbers_shift n o1)
        else Some o1);
  o3 ← (if enc_puncts o2 then
          p ← calculateEffectiveShift (shift_amount o2)
                 (Z.of_nat (length ORIG_PUNCTS));
          Some (set_puncts_shift p o2)
        else Some o2);
  let shifted_upper := cshift ORIG_UPPER (effective_shift o3) in
  let shifted_lower := cshift ORIG_LOWER (effective_shift o3) in
  let shifted_numbers := cshift ORIG_NUMBERS (numbers_shift o3) in
  let shifted_puncts := cshift ORIG_PUNCTS (puncts_shift o3) in
  let d1 := assign_all ORIG_UPPER shifted_upper (cipher_dict o3) in
  let d2 := assign_all ORIG_LOWER shifted_lower d1 in
  let d3 := assign_all ORIG_NUMBERS shifted_numbers d2 in
  let d4 := assign_all ORIG_PUNCTS shifted_puncts d3 in
  Some (set_cipher_dict d4 o3).

(** [encipherFileText]: the input file must exist; the output file is opened
    (and so truncated) before the first line is read and is not checked; the
    text is transformed line by line. *)
Definition encipherFileText (ciphopts : CipherOptions) (w : world)
  : completion (CipherOptions * world) unit :=
  match file_at w (infilename ciphopts) with
  | None =>
      Throws (filesystem_error "Input file not found." (infilename ciphopts))
             (ciphopts, w)
  | Some _ =>
      let fulloname :=
        if use_default_oname ciphopts then infilename ciphopts ++ ".ciph"
        else outfilename ciphopts in
      let '(opened, w1) := open_ofstream fulloname w in
      let content := default "" (file_at w1 (infilename ciphopts)) in
      let '(written, num_chrs_read) :=
        transform_lines (cipher_dict ciphopts) (getlines content "" false) in
      let w2 := if opened then write_file fulloname written w1 else w1 in
      let o' := set_nbytes_file (nbytes_file ciphopts + num_chrs_read) ciphopts in
      let w3 :=
        if negb (display_log_info o') then print (PrintCharsRead num_chrs_read) w2
        else w2 in
      Returns tt (o', w3)
  end.

Definition printLogInfo (ciphopts : CipherOptions) (w : world) : world :=
  print (PrintLogInfo (infilename ciphopts) (outfilename ciphopts)
           (shift_amount ciphopts) (nbytes_file ciphopts)) w.

(** The two messages of [parseCommandLine]. *)
Definition ia_errmsg (curropt : string) : string :=
  nl ++ "Invalid argument (" ++ curropt
     ++ ") used. Please see HELP with -h or --help option." ++ nl.

Definition sco_errmsg (c : ascii) (curropt : string) : string :=
  nl ++ "Invalid single-character option (" ++ String c ""
     ++ ") within (" ++ curropt ++ "). See HELP with -h or --help option." ++ nl.

Definition valid_singlechr_opts : gset ascii :=
  {[ "a"%char; "l"%char; "n"%char; "p"%char; "h"%char ]}.

(** The [for] loop over the characters of [curropt] after the first one.
    [chars] are the characters still to be looked at; [at_end] tells that
    [opt_number] has been set to [usr_cmdln.size()].  The loop returns
    [parse_results] and [at_end]. *)
Fixpoint single_char_options (curropt chars : string)
    (parse_results : Z) (at_end : bool) (ciphopts : CipherOptions) (w : world)
  : completion (CipherOptions * world) (Z * bool) :=
  match chars with
  | EmptyString => Returns (parse_results, at_end) (ciphopts, w)
  | String c chars' =>
      if bool_decide (c ∈ valid_singlechr_opts) then
        if Ascii.eqb c "a" then
          single_char_options curropt chars' parse_results at_end
            (set_enc_puncts true (set_enc_numbers true ciphopts)) w
        else if Ascii.eqb c "n" then
          single_char_options curropt chars' parse_results at_end
            (set_enc_numbers true ciphopts) w
        else if Ascii.eqb c "p" then
          single_char_options curropt chars' parse_results at_end
            (set_enc_puncts true ciphopts) w
        else if Ascii.eqb c "l" then
          single_char_options curropt chars' parse_results at_end
            (set_display_log_info true ciphopts) w
        else if Ascii.eqb c "h" then
          single_char_options curropt chars' 1 true ciphopts
            (print (PrintHelp (prog_name_stripped ciphopts)) w)
        else
          single_char_options curropt chars' parse_results at_end ciphopts w
      else
        Throws (invalid_argument (sco_errmsg c curropt))
          (set_enc_puncts false
             (set_enc_numbers false (set_display_log_info false ciphopts)), w)
  end.

(** The [while (opt_number < usr_cmdln.size())] loop.  [opts] is the part of
    [usr_cmdln] from [opt_number] on: [usr_cmdln.at(opt_number)] is its
    head, [usr_cmdln.at(opt_number + 1)] the head of its tail (and throws
    when there is none), [opt_number = usr_cmdln.size()] is the empty
    list. *)
Fixpoint parse_options (opts : list string) (parse_results : Z)
    (ciphopts : CipherOptions) (w : world)
  : completion (CipherOptions * world) Z :=
  match opts with
  | [] => Returns parse_results (ciphopts, w)
  | curropt :: following =>
      if String.eqb curropt "-i" || String.eqb curropt "--ifile" then
        match following with
        | [] => Throws (out_of_range vector_at_what) (ciphopts, w)
        | value :: rest =>
            parse_options rest parse_results (set_infilename value ciphopts) w
        end
      else if String.eqb curropt "-o" || String.eqb curropt "--ofile" then
        match following with
        | [] => Throws (out_of_range vector_at_what) (ciphopts, w)
        | value :: rest =>
            parse_options rest parse_results
              (set_use_default_oname false (set_outfilename value ciphopts)) w
        end
      else if String.eqb curropt "-s" || String.eqb curropt "--shift-amount" then
        match following with
        | [] => Throws (out_of_range vector_at_what) (ciphopts, w)
        | currarg :: rest =>
            match stoi currarg with
            | inl e => Throws e (ciphopts, w)
            | inr n => parse_options rest parse_results (set_shift_amount n ciphopts) w
            end
        end
      else if String.eqb curropt "--shift-nums" then
        parse_options following parse_results (set_enc_numbers true ciphopts) w
      else if String.eqb curropt "--shift-puncts" then
        parse_options following parse_results (set_enc_puncts true ciphopts) w
      else if String.eqb curropt "--shift-all" then
        parse_options following parse_results
          (set_enc_puncts true (set_enc_numbers true ciphopts)) w
      else if String.eqb curropt "--help" then
        Returns 1 (ciphopts, print (PrintHelp (prog_name_stripped ciphopts)) w)
      else if String.eqb curropt "--show-log" then
        parse_options following parse_results (set_display_log_info true ciphopts) w
      else if (find_last_of curropt "-" >? 0)%Z then
        Throws (invalid_argument (ia_errmsg curropt)) (ciphopts, w)
      else
        match single_char_options curropt (string_rest curropt)
                parse_results false ciphopts w with
        | Returns (parse_results', at_end) (o', w') =>
            if at_end then Returns parse_results' (o', w')
            else parse_options following parse_results' o' w'
        | Throws e s => Throws e s
        | Undefined => Undefined
        end
  end.

(** [parseCommandLine]: 0 when the program is to go on, 1 when the usage or
    the help has been printed. *)
Definition parseCommandLine (usr_cmdln : list string)
    (ciphopts : CipherOptions) (w : world)
  : completion (CipherOptions * world) Z :=
  match usr_cmdln with
  | [] => Throws (out_of_range vector_at_what) (ciphopts, w)
  | progname :: opts =>
      let o1 := set_program_name (program_name ciphopts ++ progname) ciphopts in
      let o2 := set_prog_name_stripped
                  (prog_name_stripped o1 ++ path_filename progname) o1 in
      match opts with
      | [] => Returns 1 (o2, print (PrintUsage (prog_name_stripped o2)) w)
      | _ => parse_options opts 0 o2 w
      end
  end.

(** [main]: the exit status and the world it leaves.  Only
    [std::invalid_argument] and [fsys::filesystem_error] have handlers of
    their own; anything else is caught by [catch (...)]. *)
Definition handle (e : exn) (w : world) : run :=
  match e with
  | invalid_argument _ | filesystem_error _ _ => Exit 1 (print (PrintWhat e) w)
  | out_of_range _ => Exit 1 (print PrintUnexpected w)
  end.

Definition main (args : list string) (w : world) : run :=
  match parseCommandLine args cmdopts0 w with
  | Throws e (_, w') => handle e w'
  | Undefined => UndefinedBehaviour
  | Returns parse_res (cmdopts, w1) =>
      if (parse_res =? 1)%Z then Exit 0 w1
      else if (parse_res =? 0)%Z then
        match generateCipherDict cmdopts with
        | None => UndefinedBehaviour
        | Some cmdopts' =>
            match encipherFileText cmdopts' w1 with
            | Throws e (_, w') => handle e w'
            | Undefined => UndefinedBehaviour
            | Returns _ (cmdopts'', w2) =>
                Exit 0 (if display_log_info cmdopts''
                        then printLogInfo cmdopts'' w2 else w2)
            end
        end
      else Exit 0 w1
  end.

End Encipher.

(** * The decipher program (ShiftDecipher.cpp) *)

Module Decipher.

(** [enum DECIPHER_PROG_CODES] *)
Inductive DECIPHER_PROG_CODES : Type :=
| CMDLN_USER_ERROR
| CMDLN_OK
| CMDLN_HELP_REQ
| CMDLN_USAGE_REQ.

(** [struct DecipherCtrlOpts]; [decipher_flags] is the [std::bitset<8>]. *)
Record DecipherCtrlOpts : Type := mkDecipherCtrlOpts {
  program_name : string;
  prog_name_stripped : string;
  infilename : string;
  outfilename : string;
  orig_shift_len : Z;
  reduced_shift_len : Z;
  digits_shift_len : Z;
  puncts_shift_len : Z;
  cipher_dict : ChrDict;
  nbytes_file : Z;
  decipher_flags : Z
}.

(** A default-initialised [DecipherCtrlOpts]; the flags start as
    [0b01000000]. *)
Definition cmdopts0 : DecipherCtrlOpts :=
  mkDecipherCtrlOpts "" "" "" "" 5 5 0 0 ∅ 0 64.

Definition set_program_name v o :=
  mkDecipherCtrlOpts v (prog_name_stripped o) (infilename o) (outfilename o)
    (orig_shift_len o) (reduced_shift_len o) (digits_shift_len o)
    (puncts_shift_len o) (cipher_dict o) (nbytes_file o) (decipher_flags o).
Definition set_prog_name_stripped v o :=
  mkDecipherCtrlOpts (program_name o) v (infilename o) (outfilename o)
    (orig_shift_len o) (reduced_shift_len o) (digits_shift_len o)
    (puncts_shift_len o) (cipher_dict o) (nbytes_file o) (decipher_flags o).
Definition set_infilename v o :=
  mkDecipherCtrlOpts (program_name o) (prog_name_stripped o) v (outfilename o)
    (orig_shift_len o) (reduced_shift_len o) (digits_shift_len o)
    (puncts_shift_len o) (cipher_dict o) (nbytes_file o) (decipher_flags o).
Definition set_outfilename v o :=
  mkDecipherCtrlOpts (program_name o) (prog_name_stripped o) (infilename o) v
    (orig_shift_len o) (reduced_shift_len o) (digits_shift_len o)
    (puncts_shift_len o) (cipher_dict o) (nbytes_file o) (decipher_flags o).
Definition set_orig_shift_len v o :=
  mkDecipherCtrlOpts (program_name o) (prog_name_stripped o) (infilename o)
    (outfilename o) v (reduced_shift_len o) (digits_shift_len o)
    (puncts_shift_len o) (cipher_dict o) (nbytes_file o) (decipher_flags o).
Definition set_reduced_shift_len v o :=
  mkDecipherCtrlOpts (program_name o) (prog_name_stripped o) (infilename o)
    (outfilename o) (orig_shift_len o) v (digits_shift_len o)
    (puncts_shift_len o) (cipher_dict o) (nbytes_file o) (decipher_flags o).
Definition set_digits_shift_len v o :=
  mkDecipherCtrlOpts (program_name o) (prog_name_stripped o) (infilename o)
    (outfilename o) (orig_shift_len o) (reduced_shift_len o) v
    (puncts_shift_len o) (cipher_dict o) (nbytes_file o) (decipher_flags o).
Definition set_puncts_shift_len v o :=
  mkDecipherCtrlOpts (program_name o) (prog_name_stripped o) (infilename o)
    (outfilename o) (orig_shift_len o) (reduced_shift_len o)
    (digits_shift_len o) v (cipher_dict o) (nbytes_file o) (decipher_flags o).
Definition set_cipher_dict v o :=
  mkDecipherCtrlOpts (program_name o) (prog_name_stripped o) (infilename o)
    (outfilename o) (orig_shift_len o) (reduced_shift_len o)
    (digits_shift_len o) (puncts_shift_len o) v (nbytes_file o)
    (decipher_flags o).
Definition set_nbytes_file v o :=
  mkDecipherCtrlOpts (program_name o) (prog_name_stripped o) (infilename o)
    (outfilename o) (orig_shift_len o) (reduced_shift_len o)
    (digits_shift_len o) (puncts_shift_len o) (cipher_dict o) v
    (decipher_flags o).
Definition set_decipher_flags v o :=
  mkDecipherCtrlOpts (program_name o) (prog_name_stripped o) (infilename o)
    (outfilename o) (orig_shift_len o) (reduced_shift_len o)
    (digits_shift_len o) (puncts_shift_len o) (cipher_dict o) (nbytes_file o) v.

(** [ciphopts->decipher_flags[i] = b] *)
Definition set_flag (i : Z) (b : bool) (o : DecipherCtrlOpts) : DecipherCtrlOpts :=
  set_decipher_flags
    (if b then flag_set i (decipher_flags o) else flag_reset i (decipher_flags o)) o.

(** The alphabets under the names of this source. *)
Abbreviation ORIG_UPPERCASE := ORIG_UPPER.
Abbreviation ORIG_LOWERCASE := ORIG_LOWER.
Abbreviation ORIG_DIGITS := ORIG_NUMBERS.
Abbreviation ORIG_PUNCTUATION_SYMBOLS := ORIG_PUNCTS.

(** [generateCipherDict]: as in the encipher program, but every shifted
    symbol is mapped back to the original symbol at its index. *)
Definition generateCipherDict (ciphopts : DecipherCtrlOpts) : option DecipherCtrlOpts :=
  red ← calcReducedShift (orig_shift_len ciphopts) 26;
  let o1 := set_reduced_shift_len red ciphopts in
  o2 ← (if flag (decipher_flags o1) 2 then
          n ← calcReducedShift (orig_shift_len o1)
                 (Z.of_nat (length ORIG_DIGITS));
          Some (set_digits_shift_len n o1)
        else Some o1);
  o3 ← (if flag (decipher_flags o2) 3 then
          p ← calcReducedShift (orig_shift_len o2)
                 (Z.of_nat (length ORIG_PUNCTUATION_SYMBOLS));
          Some (set_puncts_shift_len p o2)
        else Some o2);
  let shifted_uppercase := cshift ORIG_UPPERCASE (reduced_shift_len o3) in
  let shifted_lowercase := cshift ORIG_LOWERCASE (reduced_shift_len o3) in
  let shifted_digits := cshift ORIG_DIGITS (digits_shift_len o3) in
  let shifted_puncts := cshift ORIG_PUNCTUATION_SYMBOLS (puncts_shift_len o3) in
  let d1 := assign_all shifted_uppercase ORIG_UPPERCASE (cipher_dict o3) in
  let d2 := assign_all shifted_lowercase ORIG_LOWERCASE d1 in
  let d3 := assign_all shifted_digits ORIG_DIGITS d2 in
  let d4 := assign_all shifted_puncts ORIG_PUNCTUATION_SYMBOLS d3 in
  Some (set_cipher_dict d4 o3).

(** [decipherFileText]: the input file must exist; the default output name
    is installed when flag 1 is set; the output file must open. *)
Definition decipherFileText (ciphopts : DecipherCtrlOpts) (w : world)
  : completion (DecipherCtrlOpts * world) unit :=
  let errmsg := "Deciphering text file problem." in
  match file_at w (infilename ciphopts) with
  | None => Throws (filesystem_error errmsg (infilename ciphopts)) (ciphopts, w)
  | Some _ =>
      let o1 :=
        if flag (decipher_flags ciphopts) 1
        then set_outfilename (infilename ciphopts ++ ".dec") ciphopts
        else ciphopts in
      let '(opened, w1) := open_ofstream (outfilename o1) w in
      if negb opened then
        Throws (filesystem_error errmsg (outfilename o1)) (o1, w1)
      else
        let content := default "" (file_at w1 (infilename o1)) in
        let '(written, num_chrs_read) :=
          transform_lines (cipher_dict o1) (getlines content "" false) in
        let w2 := write_file (outfilename o1) written w1 in
        let o2 := set_nbytes_file (nbytes_file o1 + num_chrs_read) o1 in
        let w3 :=
          if negb (flag (decipher_flags o2) 7)
          then print (PrintCharsRead num_chrs_read) w2 else w2 in
        Returns tt (o2, w3)
  end.

Definition printLogInfo (ciphopts : DecipherCtrlOpts) (w : world) : world :=
  print (PrintLogInfo (infilename ciphopts) (outfilename ciphopts)
           (orig_shift_len ciphopts) (nbytes_file ciphopts)) w.

(** The [while] loop of [parseSingleCharOptions] over the characters after
    the first one. *)
Fixpoint single_char_loop (chars : string) (parse_results : DECIPHER_PROG_CODES)
    (ciphopts : DecipherCtrlOpts) : DECIPHER_PROG_CODES * DecipherCtrlOpts :=
  match chars with
  | EmptyString => (parse_results, ciphopts)
  | String c chars' =>
      if Ascii.eqb c "a" then
        single_char_loop chars' parse_results
          (set_flag 3 true (set_flag 2 true ciphopts))
      else if Ascii.eqb c "n" then
        single_char_loop chars' parse_results (set_flag 2 true ciphopts)
      else if Ascii.eqb c "p" then
        single_char_loop chars' parse_results (set_flag 3 true ciphopts)
      else if Ascii.eqb c "l" then
        single_char_loop chars' parse_results (set_flag 7 true ciphopts)
      else if Ascii.eqb c "h" then
        single_char_loop chars' CMDLN_HELP_REQ (set_flag 0 true ciphopts)
      else
        single_char_loop chars' CMDLN_USER_ERROR
          (set_flag 0 false
             (set_flag 7 false (set_flag 3 false (set_flag 2 false ciphopts))))
  end.

Definition parseSingleCharOptions (cmdlnSingles : string)
    (ciphopts : DecipherCtrlOpts) : DECIPHER_PROG_CODES * DecipherCtrlOpts :=
  let parse_results :=
    if (find_last_of cmdlnSingles "-" >? 0)%Z then CMDLN_USER_ERROR
    else CMDLN_OK in
  match parse_results with
  | CMDLN_OK => single_char_loop (string_rest cmdlnSingles) parse_results ciphopts
  | _ => (parse_results, ciphopts)
  end.

Definition ia_errmsg (curr_arg : string) : string :=
  nl ++ "Invalid argument (" ++ curr_arg
     ++ ") used. Please see HELP with -h or --help option." ++ nl.

(** The [while (not cmdln_deq.empty())] loop; the deque is the list of the
    arguments not yet taken.  [front()] of an empty deque is undefined
    behaviour. *)
Fixpoint parse_deque (cmdln_deq : list string)
    (parse_results : DECIPHER_PROG_CODES) (ciphopts : DecipherCtrlOpts)
  : completion DecipherCtrlOpts DECIPHER_PROG_CODES :=
  match cmdln_deq with
  | [] => Returns parse_results ciphopts
  | curr_arg :: popped =>
      if String.eqb curr_arg "-i" || String.eqb curr_arg "--ifile" then
        match popped with
        | [] => Undefined
        | value :: rest =>
            parse_deque rest parse_results (set_infilename value ciphopts)
        end
      else if String.eqb curr_arg "-o" || String.eqb curr_arg "--ofile" then
        match popped with
        | [] => Undefined
        | value :: rest =>
            parse_deque rest parse_results
              (set_flag 1 false (set_outfilename value ciphopts))
        end
      else if String.eqb curr_arg "-s" || String.eqb curr_arg "--shift-amount" then
        match popped with
        | [] => Undefined
        | tmp_int_str :: rest =>
            match stoi tmp_int_str with
            | inl e => Throws e ciphopts
            | inr n => parse_deque rest parse_results (set_orig_shift_len n ciphopts)
            end
        end
      else if String.eqb curr_arg "--shift-numbers" then
        parse_deque popped parse_results (set_flag 2 true ciphopts)
      else if String.eqb curr_arg "--shift-puncts" then
        parse_deque popped parse_results (set_flag 3 true ciphopts)
      else if String.eqb curr_arg "--shift-all" then
        parse_deque popped parse_results
          (set_flag 3 true (set_flag 2 true ciphopts))
      else if String.eqb curr_arg "--help" then
        Returns CMDLN_HELP_REQ (set_flag 0 true ciphopts)
      else if String.eqb curr_arg "--show-log" then
        parse_deque popped parse_results (set_flag 7 true ciphopts)
      else
        let '(parse_results', o') := parseSingleCharOptions curr_arg ciphopts in
        match parse_results' with
        | CMDLN_USER_ERROR => Throws (invalid_argument (ia_errmsg curr_arg)) o'
        | CMDLN_HELP_REQ | CMDLN_USAGE_REQ => Returns parse_results' o'
        | CMDLN_OK => parse_deque popped parse_results' o'
        end
  end.

(** [parseCommandLine]; [cmdln_deq.front()] is undefined behaviour when
    there is no argument at all. *)
Definition parseCommandLine (usr_cmdln : list string)
    (ciphopts : DecipherCtrlOpts)
  : completion DecipherCtrlOpts DECIPHER_PROG_CODES :=
  match usr_cmdln with
  | [] => Undefined
  | curr_arg :: cmdln_deq =>
      let o1 := set_program_name curr_arg ciphopts in
      let o2 := set_prog_name_stripped (path_filename curr_arg) o1 in
      match cmdln_deq with
      | [] => Returns CMDLN_USAGE_REQ o2
      | _ => parse_deque cmdln_deq CMDLN_OK o2
      end
  end.

(** [main]: every exception has a handler that prints and sets status 1. *)
Definition handle (e : exn) (w : world) : run :=
  Exit 1 (print (PrintWhat e) w).

Definition main (args : list string) (w : world) : run :=
  match parseCommandLine args cmdopts0 with
  | Throws e _ => handle e w
  | Undefined => UndefinedBehaviour
  | Returns parse_res cmdopts =>
      match parse_res with
      | CMDLN_HELP_REQ => Exit 0 (print (PrintHelp (prog_name_stripped cmdopts)) w)
      | CMDLN_USAGE_REQ => Exit 0 (print (PrintUsage (prog_name_stripped cmdopts)) w)
      | CMDLN_USER_ERROR => Exit 1 w
      | CMDLN_OK =>
          match generateCipherDict cmdopts with
          | None => UndefinedBehaviour
          | Some cmdopts' =>
              match decipherFileText cmdopts' w with
              | Throws e (_, w') => handle e w'
              | Undefined => UndefinedBehaviour
              | Returns _ (cmdopts'', w2) =>
                  Exit 0 (if flag (decipher_flags cmdopts'') 7
                          then printLogInfo cmdopts'' w2 else w2)
              end
          end
      end
  end.

End Decipher.

(** * The decipher program, second source

    ShiftDecipher.cpp holds a second source of the decipher program; it
    parses the command line by index as the encipher program does, keeps the
    options in [bool] members and only ever clears its [decipher_flags]. *)

Module DecipherVec.

Inductive DECIPHER_PROG_CODES : Type :=
| CMDLN_USER_ERROR
| CMDLN_OK
| CMDLN_HELP_REQ
| CMDLN_USAGE_REQ.

Record DecipherCtrlOpts : Type := mkDecipherCtrlOpts {
  program_name : string;
  prog_name_stripped : string;
  infilename : string;
  outfilename : string;
  use_default_oname : bool;
  orig_shift_len : Z;
  reduced_shift_len : Z;
  digits_shift_len : Z;
  puncts_shift_len : Z;
  dec_numbers : bool;
  dec_puncts : bool;
  cipher_dict : ChrDict;
  nbytes_file : Z;
  display_log_info : bool;
  decipher_flags : Z
}.

Definition cmdopts0 : DecipherCtrlOpts :=
  mkDecipherCtrlOpts "" "" "" "" true 5 5 0 0 false false ∅ 0 false 64.

Definition set_program_name v o :=
  mkDecipherCtrlOpts v (prog_name_stripped o) (infilename o) (outfilename o)
    (use_default_oname o) (orig_shift_len o) (reduced_shift_len o)
    (digits_shift_len o) (puncts_shift_len o) (dec_numbers o) (dec_puncts o)
    (cipher_dict o) (nbytes_file o) (display_log_info o) (decipher_flags o).
Definition set_prog_name_stripped v o :=
  mkDecipherCtrlOpts (program_name o) v (infilename o) (outfilename o)
    (use_default_oname o) (orig_shift_len o) (reduced_shift_len o)
    (digits_shift_len o) (puncts_shift_len o) (dec_numbers o) (dec_puncts o)
    (cipher_dict o) (nbytes_file o) (display_log_info o) (decipher_flags o).
Definition set_infilename v o :=
  mkDecipherCtrlOpts (program_name o) (prog_name_stripped o) v (outfilename o)
    (use_default_oname o) (orig_shift_len o) (reduced_shift_len o)
    (digits_shift_len o) (puncts_shift_len o) (dec_numbers o) (dec_puncts o)
    (cipher_dict o) (nbytes_file o) (display_log_info o) (decipher_flags o).
Definition set_outfilename v o :=
  mkDecipherCtrlOpts (program_name o) (prog_name_stripped o) (infilename o) v
    (use_default_oname o) (orig_shift_len o) (reduced_shift_len o)
    (digits_shift_len o) (puncts_shift_len o) (dec_numbers o) (dec_puncts o)
    (cipher_dict o) (nbytes_file o) (display_log_info o) (decipher_flags o).
Definition set_use_default_oname v o :=
  mkDecipherCtrlOpts (program_name o) (prog_name_stripped o) (infilename o)
    (outfilename o) v (orig_shift_len o) (reduced_shift_len o)
    (digits_shift_len o) (puncts_shift_len o) (dec_numbers o) (dec_puncts o)
    (cipher_dict o) (nbytes_file o) (display_log_info o) (decipher_flags o).
Definition set_orig_shift_len v o :=
  mkDecipherCtrlOpts (program_name o) (prog_name_stripped o) (infilename o)
    (outfilename o) (use_default_oname o) v (reduced_shift_len o)
    (digits_shift_len o) (puncts_shift_len o) (dec_numbers o) (dec_puncts o)
    (cipher_dict o) (nbytes_file o) (display_log_info o) (decipher_flags o).
Definition set_reduced_shift_len v o :=
  mkDecipherCtrlOpts (program_name o) (prog_name_stripped o) (infilename o)
    (outfilename o) (use_default_oname o) (orig_shift_len o) v
    (digits_shift_len o) (puncts_shift_len o) (dec_numbers o) (dec_puncts o)
    (cipher_dict o) (nbytes_file o) (display_log_info o) (decipher_flags o).
Definition set_digits_shift_len v o :=
  mkDecipherCtrlOpts (program_name o) (prog_name_stripped o) (infilename o)
    (outfilename o) (use_default_oname o) (orig_shift_len o)
    (reduced_shift_len o) v (puncts_shift_len o) (dec_numbers o)
    (dec_puncts o) (cipher_dict o) (nbytes_file o) (display_log_info o)
    (decipher_flags o).
Definition set_puncts_shift_len v o :=
  mkDecipherCtrlOpts (program_name o) (prog_name_stripped o) (infilename o)
    (outfilename o) (use_default_oname o) (orig_shift_len o)
    (reduced_shift_len o) (digits_shift_len o) v (dec_numbers o)
    (dec_puncts o) (cipher_dict o) (nbytes_file o) (display_log_info o)
    (decipher_flags o).
Definition set_dec_numbers v o :=
  mkDecipherCtrlOpts (program_name o) (prog_name_stripped o) (infilename o)
    (outfilename o) (use_default_oname o) (orig_shift_len o)
    (reduced_shift_len o) (digits_shift_len o) (puncts_shift_len o) v
    (dec_puncts o) (cipher_dict o) (nbytes_file o) (display_log_info o)
    (decipher_flags o).
Definition set_dec_puncts v o :=
  mkDecipherCtrlOpts (program_name o) (prog_name_stripped o) (infilename o)
    (outfilename o) (use_default_oname o) (orig_shift_len o)
    (reduced_shift_len o) (digits_shift_len o) (puncts_shift_len o)
    (dec_numbers o) v (cipher_dict o) (nbytes_file o) (display_log_info o)
    (decipher_flags o).
Definition set_cipher_dict v o :=
  mkDecipherCtrlOpts (program_name o) (prog_name_stripped o) (infilename o)
    (outfilename o) (use_default_oname o) (orig_shift_len o)
    (reduced_shift_len o) (digits_shift_len o) (puncts_shift_len o)
    (dec_numbers o) (dec_puncts o) v (nbytes_file o) (display_log_info o)
    (decipher_flags o).
Definition set_nbytes_file v o :=
  mkDecipherCtrlOpts (program_name o) (prog_name_stripped o) (infilename o)
    (outfilename o) (use_default_oname o) (orig_shift_len o)
    (reduced_shift_len o) (digits_shift_len o) (puncts_shift_len o)
    (dec_numbers o) (dec_puncts o) (cipher_dict o) v (display_log_info o)
    (decipher_flags o).
Definition set_display_log_info v o :=
  mkDecipherCtrlOpts (program_name o) (prog_name_stripped o) (infilename o)
    (outfilename o) (use_default_oname o) (orig_shift_len o)
    (reduced_shift_len o) (digits_shift_len o) (puncts_shift_len o)
    (dec_numbers o) (dec_puncts o) (cipher_dict o) (nbytes_file o) v
    (decipher_flags o).
Definition set_decipher_flags v o :=
  mkDecipherCtrlOpts (program_name o) (prog_name_stripped o) (infilename o)
    (outfilename o) (use_default_oname o) (orig_shift_len o)
    (reduced_shift_len o) (digits_shift_len o) (puncts_shift_len o)
    (dec_numbers o) (dec_puncts o) (cipher_dict o) (nbytes_file o)
    (display_log_info o) v.

Definition set_flag (i : Z) (b : bool) (o : DecipherCtrlOpts) : DecipherCtrlOpts :=
  set_decipher_flags
    (if b then flag_set i (decipher_flags o) else flag_reset i (decipher_flags o)) o.

(** [parseSingleCharOptions] of this source only looks for a misplaced
    dash; [parseCommandLine] does not call it. *)
Definition parseSingleCharOptions (cmdlnSingles : string)
    (ciphopts : DecipherCtrlOpts) : DECIPHER_PROG_CODES * DecipherCtrlOpts :=
  if (find_last_of cmdlnSingles "-" >? 0)%Z then (CMDLN_USER_ERROR, ciphopts)
  else (CMDLN_OK, ciphopts).

(** The alphabets under the names of this source. *)
Abbreviation ORIG_UPPERCASE := ORIG_UPPER.
Abbreviation ORIG_LOWERCASE := ORIG_LOWER.
Abbreviation ORIG_DIGITS := ORIG_NUMBERS.
Abbreviation ORIG_PUNCTUATION_SYMBOLS := ORIG_PUNCTS.

Definition generateCipherDict (ciphopts : DecipherCtrlOpts) : option DecipherCtrlOpts :=
  red ← calcReducedShift (orig_shift_len ciphopts) 26;
  let o1 := set_reduced_shift_len red ciphopts in
  o2 ← (if dec_numbers o1 then
          n ← calcReducedShift (orig_shift_len o1)
                 (Z.of_nat (length ORIG_DIGITS));
          Some (set_digits_shift_len n o1)
        else Some o1);
  o3 ← (if dec_puncts o2 then
          p ← calcReducedShift (orig_shift_len o2)
                 (Z.of_nat (length ORIG_PUNCTUATION_SYMBOLS));
          Some (set_puncts_shift_len p o2)
        else Some o2);
  let shifted_uppercase := cshift ORIG_UPPERCASE (reduced_shift_len o3) in
  let shifted_lowercase := cshift ORIG_LOWERCASE (reduced_shift_len o3) in
  let shifted_digits := cshift ORIG_DIGITS (digits_shift_len o3) in
  let shifted_puncts := cshift ORIG_PUNCTUATION_SYMBOLS (puncts_shift_len o3) in
  let d1 := assign_all shifted_uppercase ORIG_UPPERCASE (cipher_dict o3) in
  let d2 := assign_all shifted_lowercase ORIG_LOWERCASE d1 in
  let d3 := assign_all shifted_digits ORIG_DIGITS d2 in
  let d4 := assign_all shifted_puncts ORIG_PUNCTUATION_SYMBOLS d3 in
  Some (set_cipher_dict d4 o3).

(** [decipherFileText]: the output stream is not checked here. *)
Definition decipherFileText (ciphopts : DecipherCtrlOpts) (w : world)
  : completion (DecipherCtrlOpts * world) unit :=
  match file_at w (infilename ciphopts) with
  | None =>
      Throws (filesystem_error "Input file not found." (infilename ciphopts))
             (ciphopts, w)
  | Some _ =>
      let fulloname :=
        if use_default_oname ciphopts then infilename ciphopts ++ ".dec"
        else outfilename ciphopts in
      let o1 :=
        if use_default_oname ciphopts then set_outfilename fulloname ciphopts
        else ciphopts in
      let '(opened, w1) := open_ofstream fulloname w in
      let content := default "" (file_at w1 (infilename o1)) in
      let '(written, num_chrs_read) :=
        transform_lines (cipher_dict o1) (getlines content "" false) in
      let w2 := if opened then write_file fulloname written w1 else w1 in
      let o2 := set_nbytes_file (nbytes_file o1 + num_chrs_read) o1 in
      let w3 :=
        if negb (display_log_info o2) then print (PrintCharsRead num_chrs_read) w2
        else w2 in
      Returns tt (o2, w3)
  end.

Definition printLogInfo (ciphopts : DecipherCtrlOpts) (w : world) : world :=
  print (PrintLogInfo (infilename ciphopts) (outfilename ciphopts)
           (orig_shift_len ciphopts) (nbytes_file ciphopts)) w.

Definition ia_errmsg (curropt : string) : string :=
  nl ++ "Invalid argument (" ++ curropt
     ++ ") used. Please see HELP with -h or --help option." ++ nl.

Definition sco_errmsg (c : ascii) (curropt : string) : string :=
  nl ++ "Invalid single-character option (" ++ String c ""
     ++ ") within (" ++ curropt ++ "). See HELP with -h or --help option." ++ nl.

Definition valid_singlechr_opts : gset ascii :=
  {[ "a"%char; "l"%char; "n"%char; "p"%char; "h"%char ]}.

(** The [for] loop over the characters of [curropt], as in the encipher
    program; the error branch also clears flags 7, 2 and 3. *)
Fixpoint single_char_options (curropt chars : string)
    (parse_results : Z) (at_end : bool) (ciphopts : DecipherCtrlOpts) (w : world)
  : completion (DecipherCtrlOpts * world) (Z * bool) :=
  match chars with
  | EmptyString => Returns (parse_results, at_end) (ciphopts, w)
  | String c chars' =>
      if bool_decide (c ∈ valid_singlechr_opts) then
        if Ascii.eqb c "a" then
          single_char_options curropt chars' parse_results at_end
            (set_dec_puncts true (set_dec_numbers true ciphopts)) w
        else if Ascii.eqb c "n" then
          single_char_options curropt chars' parse_results at_end
            (set_dec_numbers true ciphopts) w
        else if Ascii.eqb c "p" then
          single_char_options curropt chars' parse_results at_end
            (set_dec_puncts true ciphopts) w
        else if Ascii.eqb c "l" then
          single_char_options curropt chars' parse_results at_end
            (set_display_log_info true ciphopts) w
        else if Ascii.eqb c "h" then
          single_char_options curropt chars' 1 true ciphopts
            (print (PrintHelp (prog_name_stripped ciphopts)) w)
        else
          single_char_options curropt chars' parse_results at_end ciphopts w
      else
        Throws (invalid_argument (sco_errmsg c curropt))
          (set_flag 3 false
             (set_flag 2 false
                (set_flag 7 false
                   (set_dec_puncts false
                      (set_dec_numbers false
                         (set_display_log_info false ciphopts))))), w)
  end.

(** The [while (opt_number < usr_cmdln.size())] loop, [opts] being the
    arguments from [opt_number] on. *)
Fixpoint parse_options (opts : list string) (parse_results : Z)
    (ciphopts : DecipherCtrlOpts) (w : world)
  : completion (DecipherCtrlOpts * world) Z :=
  match opts with
  | [] => Returns parse_results (ciphopts, w)
  | curropt :: following =>
      if String.eqb curropt "-i" || String.eqb curropt "--ifile" then
        match following with
        | [] => Throws (out_of_range vector_at_what) (ciphopts, w)
        | value :: rest =>
            parse_options rest parse_results (set_infilename value ciphopts) w
        end
      else if String.eqb curropt "-o" || String.eqb curropt "--ofile" then
        match following with
        | [] => Throws (out_of_range vector_at_what) (ciphopts, w)
        | value :: rest =>
            parse_options rest parse_results
              (set_use_default_oname false (set_outfilename value ciphopts)) w
        end
      else if String.eqb curropt "-s" || String.eqb curropt "--shift-amount" then
        match following with
        | [] => Throws (out_of_range vector_at_what) (ciphopts, w)
        | currarg :: rest =>
            match stoi currarg with
            | inl e => Throws e (ciphopts, w)
            | inr n => parse_options rest parse_results (set_orig_shift_len n ciphopts) w
            end
        end
      else if String.eqb curropt "--shift-nums" then
        parse_options following parse_results (set_dec_numbers true ciphopts) w
      else if String.eqb curropt "--shift-puncts" then
        parse_options following parse_results (set_dec_puncts true ciphopts) w
      else if String.eqb curropt "--shift-all" then
        parse_options following parse_results
          (set_dec_puncts true (set_dec_numbers true ciphopts)) w
      else if String.eqb curropt "--help" then
        Returns 1 (ciphopts, print (PrintHelp (prog_name_stripped ciphopts)) w)
      else if String.eqb curropt "--show-log" then
        parse_options following parse_results (set_display_log_info true ciphopts) w
      else if (find_last_of curropt "-" >? 0)%Z then
        Throws (invalid_argument (ia_errmsg curropt)) (ciphopts, w)
      else
        match single_char_options curropt (string_rest curropt)
                parse_results false ciphopts w with
        | Returns (parse_results', at_end) (o', w') =>
            if at_end then Returns parse_results' (o', w')
            else parse_options following parse_results' o' w'
        | Throws e s => Throws e s
        | Undefined => Undefined
        end
  end.

Definition parseCommandLine (usr_cmdln : list string)
    (ciphopts : DecipherCtrlOpts) (w : world)
  : completion (DecipherCtrlOpts * world) Z :=
  match usr_cmdln with
  | [] => Throws (out_of_range vector_at_what) (ciphopts, w)
  | progname :: opts =>
      let o1 := set_program_name (program_name ciphopts ++ progname) ciphopts in
      let o2 := set_prog_name_stripped
                  (prog_name_stripped o1 ++ path_filename progname) o1 in
      match opts with
      | [] => Returns 1 (o2, print (PrintUsage (prog_name_stripped o2)) w)
      | _ => parse_options opts 0 o2 w
      end
  end.

(** [main]: [std::out_of_range] has a handler of its own here. *)
Definition handle (e : exn) (w : world) : run :=
  Exit 1 (print (PrintWhat e) w).

Definition main (args : list string) (w : world) : run :=
  match parseCommandLine args cmdopts0 w with
  | Throws e (_, w') => handle e w'
  | Undefined => UndefinedBehaviour
  | Returns parse_res (cmdopts, w1) =>
      if (parse_res =? 1)%Z then Exit 0 w1
      else if (parse_res =? 0)%Z then
        match generateCipherDict cmdopts with
        | None => UndefinedBehaviour
        | Some cmdopts' =>
            match decipherFileText cmdopts' w1 with
            | Throws e (_, w') => handle e w'
            | Undefined => UndefinedBehaviour
            | Returns _ (cmdopts'', w2) =>
                Exit 0 (if display_log_info cmdopts''
                        then printLogInfo cmdopts'' w2 else w2)
            end
        end
      else Exit 0 w1
  end.

End DecipherVec.

(** * Vocabulary of the statements *)

Local Open Scope Z_scope.

(** ** The character classes of the data model *)

(** The classes of the data model and their alphabets in the sources. *)
Inductive CharacterClass : Type := UpperAlpha | LowerAlpha | Digit | Punctuation.

Definition alphabet (c : CharacterClass) : list ascii :=
  match c with
  | UpperAlpha => ORIG_UPPER
  | LowerAlpha => ORIG_LOWER
  | Digit => ORIG_NUMBERS
  | Punctuation => ORIG_PUNCTS
  end.

Definition alphabet_size (c : CharacterClass) : Z :=
  Z.of_nat (length (alphabet c)).

(** Upper and lower case are always shifted, digits and punctuation when
    their option is on. *)
Definition class_enabled (nums puncts : bool) (c : CharacterClass) : bool :=
  match c with
  | UpperAlpha | LowerAlpha => true
  | Digit => nums
  | Punctuation => puncts
  end.

(** ** The dictionary of a run *)

(** Four assignment loops in a row, as [generateCipherDict] has them. *)
Definition four_loops (kU vU kL vL kN vN kP vP : list ascii) (dict : ChrDict)
  : ChrDict :=
  assign_all kP vP (assign_all kN vN (assign_all kL vL (assign_all kU vU dict))).

(** The options of a run with shift amount [k], digits enabled or not and
    punctuation enabled or not (every other member as [main] initialises
    it), and the dictionary [generateCipherDict] builds for them. *)
Definition encipher_options (k : Z) (nums puncts : bool) : Encipher.CipherOptions :=
  Encipher.set_enc_puncts puncts
    (Encipher.set_enc_numbers nums (Encipher.set_shift_amount k Encipher.cmdopts0)).

Definition decipher_options (k : Z) (nums puncts : bool) : Decipher.DecipherCtrlOpts :=
  Decipher.set_flag 3 puncts
    (Decipher.set_flag 2 nums (Decipher.set_orig_shift_len k Decipher.cmdopts0)).

Definition encipher_table (k : Z) (nums puncts : bool) : option ChrDict :=
  Encipher.cipher_dict <$> Encipher.generateCipherDict (encipher_options k nums puncts).

Definition decipher_table (k : Z) (nums puncts : bool) : option ChrDict :=
  Decipher.cipher_dict <$> Decipher.generateCipherDict (decipher_options k nums puncts).

(** The same for the second decipher source. *)
Definition decvec_options (k : Z) (nums puncts : bool) : DecipherVec.DecipherCtrlOpts :=
  DecipherVec.set_dec_puncts puncts
    (DecipherVec.set_dec_numbers nums
       (DecipherVec.set_orig_shift_len k DecipherVec.cmdopts0)).

Definition decvec_table (k : Z) (nums puncts : bool) : option ChrDict :=
  DecipherVec.cipher_dict
    <$> DecipherVec.generateCipherDict (decvec_options k nums puncts).

(** The rotation [generateCipherDict] applies to a class: the shift reduced
    by the size of the class when the class is enabled, the initial 0 of
    the member otherwise. *)
Definition class_rotation (k : Z) (nums puncts : bool) (c : CharacterClass) : Z :=
  if class_enabled nums puncts c then k mod alphabet_size c else 0.

(** What the specification says of a class that is not enabled: none of
    its symbols is a key of the dictionary. *)
Definition disabled_class_has_no_entries (k : Z) (nums puncts : bool) : Prop :=
  ∀ c x enc,
    class_enabled nums puncts c = false → x ∈ alphabet c →
    encipher_table k nums puncts = Some enc → enc !! x = None.

(** ** Characters and tokens of the command line *)

Fixpoint string_forallb (P : ascii → bool) (s : string) : bool :=
  match s with
  | EmptyString => true
  | String c s' => P c && string_forallb P s'
  end.

Fixpoint string_existsb (P : ascii → bool) (s : string) : bool :=
  match s with
  | EmptyString => false
  | String c s' => P c || string_existsb P s'
  end.

(** The single-character options the programs know. *)
Definition recognized (c : ascii) : bool :=
  Ascii.eqb c "a" || Ascii.eqb c "n" || Ascii.eqb c "p" || Ascii.eqb c "l"
  || Ascii.eqb c "h".

Definition is_dash (c : ascii) : bool := Ascii.eqb c "-".

Definition is_h (c : ascii) : bool := Ascii.eqb c "h".

Definition sets_digits (c : ascii) : bool := Ascii.eqb c "a" || Ascii.eqb c "n".

Definition sets_puncts (c : ascii) : bool := Ascii.eqb c "a" || Ascii.eqb c "p".

Definition sets_log (c : ascii) : bool := Ascii.eqb c "l".

Definition flag_char (c : ascii) : bool :=
  Ascii.eqb c "a" || Ascii.eqb c "n" || Ascii.eqb c "p" || Ascii.eqb c "l".

(** The tokens the parsers compare an argument with before they take it for
    single-character options. *)
Definition exact_option (tok : string) : bool :=
  String.eqb tok "-i" || String.eqb tok "--ifile"
  || String.eqb tok "-o" || String.eqb tok "--ofile"
  || String.eqb tok "-s" || String.eqb tok "--shift-amount"
  || String.eqb tok "--shift-nums" || String.eqb tok "--shift-numbers"
  || String.eqb tok "--shift-puncts" || String.eqb tok "--shift-all"
  || String.eqb tok "--help" || String.eqb tok "--show-log".

(** The options that take a value. *)
Definition value_option (opt : string) : bool :=
  String.eqb opt "-i" || String.eqb opt "--ifile"
  || String.eqb opt "-o" || String.eqb opt "--ofile"
  || String.eqb opt "-s" || String.eqb opt "--shift-amount".

Definition switch_token (tok : string) : bool :=
  String.eqb tok "--shift-puncts" || String.eqb tok "--shift-all"
  || String.eqb tok "--show-log"
  || match tok with
     | String d body => is_dash d && string_forallb flag_char body
     | EmptyString => false
     end.

(** ** Well-formed command lines *)

(** The options of a command line that all three parsers accept and that do
    not ask for the help: the options with a value, and the switches
    [--shift-puncts], [--shift-all], [--show-log] and a dash followed by
    any of [a], [n], [p], [l]. *)
Inductive cmd_item : Type :=
| ItemIfile (long : bool) (path : string)
| ItemOfile (long : bool) (path : string)
| ItemShift (long : bool) (text : string)
| ItemSwitch (token : string).

Definition item_ok (it : cmd_item) : bool :=
  match it with
  | ItemShift _ text => match stoi text with inr _ => true | inl _ => false end
  | ItemSwitch tok => switch_token tok
  | _ => true
  end.

Definition render_item (it : cmd_item) : list string :=
  match it with
  | ItemIfile long path => [if long then "--ifile" else "-i"; path]
  | ItemOfile long path => [if long then "--ofile" else "-o"; path]
  | ItemShift long text => [if long then "--shift-amount" else "-s"; text]
  | ItemSwitch tok => [tok]
  end.

Definition render (items : list cmd_item) : list string :=
  flat_map render_item items.

(** The value of the last occurrence of each option with a value, [init]
    when there is none. *)
Fixpoint last_ifile (items : list cmd_item) (init : string) : string :=
  match items with
  | [] => init
  | ItemIfile _ path :: more => last_ifile more path
  | _ :: more => last_ifile more init
  end.

Fixpoint last_ofile (items : list cmd_item) (init : string) : string :=
  match items with
  | [] => init
  | ItemOfile _ path :: more => last_ofile more path
  | _ :: more => last_ofile more init
  end.

Fixpoint last_shift (items : list cmd_item) (init : Z) : Z :=
  match items with
  | [] => init
  | ItemShift _ text :: more =>
      last_shift more (match stoi text with inr n => n | inl _ => init end)
  | _ :: more => last_shift more init
  end.

Definition repeated_items : list cmd_item :=
  [ ItemIfile false "a.txt"; ItemShift false "3"; ItemOfile true "x.out";
    ItemSwitch "-np"; ItemIfile true "b.txt"; ItemShift true "-80";
    ItemOfile false "y.out"; ItemIfile false "c.txt" ].


(** ** States of the parsers *)

(** Printing several events, and the help displays a run of characters
    causes in the parsers that print the help at once. *)
Definition print_all (es : list event) (w : world) : world :=
  mkFileSystem (files w) (unwritable w) (console w ++ es) (links w).

Fixpoint help_prints (progname : string) (chars : string) : list event :=
  match chars with
  | EmptyString => []
  | String c chars' =>
      if is_h c then PrintHelp progname :: help_prints progname chars'
      else help_prints progname chars'
  end.

(** The options with the three switches replaced. *)
Definition enc_with_flags (nums puncts log : bool) (o : Encipher.CipherOptions)
  : Encipher.CipherOptions :=
  Encipher.set_display_log_info log
    (Encipher.set_enc_puncts puncts (Encipher.set_enc_numbers nums o)).

(** The options with the three switches replaced. *)
Definition decvec_with_flags (nums puncts log : bool) (o : DecipherVec.DecipherCtrlOpts)
  : DecipherVec.DecipherCtrlOpts :=
  DecipherVec.set_display_log_info log
    (DecipherVec.set_dec_puncts puncts (DecipherVec.set_dec_numbers nums o)).

(** The flags the error branch of [parseSingleCharOptions] leaves. *)
Definition dec_cleared (f : Z) : Z :=
  flag_reset 0 (flag_reset 7 (flag_reset 3 (flag_reset 2 f))).

(** ** Text files *)

(** The number of newline characters of a text. *)
Fixpoint count_newlines (content : string) : nat :=
  match content with
  | EmptyString => O
  | String c rest =>
      if Ascii.eqb c (chr 10) then S (count_newlines rest)
      else count_newlines rest
  end.

(** Whether a text, read from a point where [extracted] tells that
    characters of the current line have been read, ends in a line without
    a newline. *)
Fixpoint unterminated (content : string) (extracted : bool) : bool :=
  match content with
  | EmptyString => extracted
  | String c rest =>
      if Ascii.eqb c (chr 10) then unterminated rest false
      else unterminated rest true
  end.

(** A text with a newline added when its last line has none. *)
Definition newline_ended (content : string) : string :=
  content ++ (if unterminated content false then nl else "").

(** ** More about tokens *)

(** A dash followed by characters none of which is a dash. *)
Definition dash_led (tok : string) : bool :=
  match tok with
  | String d body => is_dash d && string_forallb (λ x, negb (is_dash x)) body
  | EmptyString => false
  end.

Definition is_slash (c : ascii) : bool := Ascii.eqb c "/".

(** Whether a command line has an [-o] or [--ofile] option, and the
    switches its well-formed options turn on. *)
Definition item_is_ofile (it : cmd_item) : bool :=
  match it with ItemOfile _ _ => true | _ => false end.

Definition token_sets (on : ascii → bool) (long_names : list string)
    (tok : string) : bool :=
  bool_decide (tok ∈ long_names)
  || (dash_led tok && string_existsb on (string_rest tok)).

Definition item_sets (on : ascii → bool) (long_names : list string)
    (it : cmd_item) : bool :=
  match it with
  | ItemSwitch tok => token_sets on long_names tok
  | _ => false
  end.

Definition items_digits (items : list cmd_item) : bool :=
  existsb (item_sets sets_digits ["--shift-all"]) items.

Definition items_puncts (items : list cmd_item) : bool :=
  existsb (item_sets sets_puncts ["--shift-puncts"; "--shift-all"]) items.

Definition items_log (items : list cmd_item) : bool :=
  existsb (item_sets sets_log ["--show-log"]) items.

(** * Properties *)

Local Open Scope Z_scope.

(** ** The shift reduction *)

Section ShiftReduction.

Variable mod_size : Z.
Hypothesis mod_size_pos : 0 < mod_size.

(** The loop ends, with fuel to spare, on the floor-style residue. *)
Lemma add_until_nonneg_mod (fuel : nat) (eff_shift : Z) :
  eff_shift < mod_size → - eff_shift <= Z.of_nat fuel →
  add_until_nonneg fuel eff_shift mod_size = Some (eff_shift mod mod_size).
Proof.
  revert eff_shift. induction fuel as [|fuel IH]; intros e Hlt Hfuel; simpl.
  - destruct (Z.ltb_spec e 0); [lia|]. by rewrite Z.mod_small by lia.
  - destruct (Z.ltb_spec e 0).
    + rewrite IH by lia.
      by rewrite <- (Z.mul_1_l mod_size) at 1; rewrite Z_mod_plus_full.
    + by rewrite Z.mod_small by lia.
Qed.

(** More fuel does not change what the loop yields. *)
Lemma add_until_nonneg_fuel (fuel : nat) (eff_shift r : Z) :
  add_until_nonneg fuel eff_shift mod_size = Some r →
  add_until_nonneg (S fuel) eff_shift mod_size = Some r.
Proof.
  revert eff_shift. induction fuel as [|fuel IH]; intros e.
  - simpl. by destruct (e <? 0).
  - intros H. change (add_until_nonneg (S (S fuel)) e mod_size) with
      (if e <? 0 then add_until_nonneg (S fuel) (e + mod_size) mod_size
       else Some e).
    simpl in H. destruct (e <? 0); [by apply IH | done].
Qed.

(** C++ [%] truncates; adding the modulus and reducing again gives the
    floor-style residue. *)
Lemma rem_add_rem_mod (s : Z) :
  Z.rem (Z.rem s mod_size + mod_size) mod_size = s mod mod_size.
Proof.
  pose proof (Z.quot_rem' s mod_size) as Hqr.
  assert (Hb : - mod_size < Z.rem s mod_size < mod_size).
  { destruct (Z.le_gt_cases 0 s).
    - pose proof (Z.rem_bound_pos s mod_size). lia.
    - pose proof (Z.rem_bound_pos_neg s mod_size). lia. }
  rewrite Z.rem_mod_nonneg by lia.
  replace (Z.rem s mod_size + mod_size)
    with (s + (1 - s ÷ mod_size) * mod_size) by nia.
  apply Z_mod_plus_full.
Qed.

Lemma calculateEffectiveShift_mod (s : Z) :
  calculateEffectiveShift s mod_size = Some (s mod mod_size).
Proof.
  unfold calculateEffectiveShift. destruct (Z.ltb_spec s 0).
  - apply add_until_nonneg_mod; lia.
  - destruct (Z.geb_spec s 0); [|lia].
    by rewrite Z.rem_mod_nonneg by lia.
Qed.

Lemma calcReducedShift_mod (s : Z) :
  calcReducedShift s mod_size = Some (s mod mod_size).
Proof. apply calculateEffectiveShift_mod. Qed.

(** The residue is reached from a negative shift by adding the modulus
    [n] times, and no fewer additions give a non-negative number. *)
Lemma mod_least_additions (s : Z) :
  s < 0 →
  ∃ n : Z, 0 < n ∧ s mod mod_size = s + n * mod_size ∧
           ∀ k, 0 <= k < n → s + k * mod_size < 0.
Proof.
  intros Hs. exists (- (s / mod_size)).
  pose proof (Z.div_mod s mod_size ltac:(lia)) as Hdm.
  pose proof (Z.mod_pos_bound s mod_size mod_size_pos) as Hb.
  repeat split; try nia.
Qed.

End ShiftReduction.

(** ** Circular shifts and assignments to the dictionary *)

Section Lists.

Context {A : Type}.
Implicit Types l : list A.

Lemma length_cshift l n : length (cshift l n) = length l.
Proof. apply length_rotate. Qed.

Lemma elem_of_cshift l n x : x ∈ cshift l n ↔ x ∈ l.
Proof. apply elem_of_rotate. Qed.

Lemma cshift_Permutation l n : cshift l n ≡ₚ l.
Proof.
  unfold cshift, rotate.
  rewrite Permutation_app_comm. by rewrite take_drop.
Qed.

(** Element [i] of the shifted array is element [(i + n) mod size] of the
    original one. *)
Lemma lookup_cshift l n (i : nat) :
  (i < length l)%nat →
  cshift l n !! i = l !! Z.to_nat ((Z.of_nat i + n) mod Z.of_nat (length l)).
Proof.
  intros Hi. unfold cshift. rewrite lookup_rotate_r by done.
  unfold rotate_nat_add. f_equal. f_equal.
  rewrite Z2Nat.id by (apply Z.mod_pos_bound; lia).
  rewrite Zplus_mod_idemp_l. f_equal. lia.
Qed.

(** Shifts that agree modulo the size give the same array. *)
Lemma cshift_mod l n : cshift l (n mod Z.of_nat (length l)) = cshift l n.
Proof.
  unfold cshift. by rewrite Zmod_mod.
Qed.

Lemma cshift_0 l : cshift l 0 = l.
Proof.
  unfold cshift, rotate. rewrite Zmod_0_l. simpl.
  rewrite Nat.Div0.mod_0_l. simpl. by rewrite app_nil_r.
Qed.

End Lists.

Section AssignAll.

Implicit Types (keys vals : list ascii) (dict : ChrDict).

Lemma assign_all_cons k v keys vals dict :
  assign_all (k :: keys) (v :: vals) dict = assign_all keys vals (<[k := v]> dict).
Proof. done. Qed.

(** A character that is no key of the loop keeps its entry, or its
    absence. *)
Lemma assign_all_lookup_other keys vals dict c :
  c ∉ keys → assign_all keys vals dict !! c = dict !! c.
Proof.
  revert vals dict. induction keys as [|k keys IH]; intros vals dict Hc.
  - done.
  - destruct vals as [|v vals]; [done|].
    rewrite assign_all_cons, IH by set_solver.
    apply lookup_insert_ne. set_solver.
Qed.

(** The key at index [i] gets the value at index [i]. *)
Lemma assign_all_lookup keys vals dict (i : nat) k v :
  NoDup keys → keys !! i = Some k → vals !! i = Some v →
  assign_all keys vals dict !! k = Some v.
Proof.
  revert vals dict i.
  induction keys as [|k0 keys IH]; intros vals dict i Hnd Hk Hv; [done|].
  destruct vals as [|v0 vals]; [by destruct i|].
  rewrite assign_all_cons. apply NoDup_cons in Hnd as [Hk0 Hnd].
  destruct i as [|i]; simpl in *.
  - simplify_eq. rewrite assign_all_lookup_other by done.
    apply lookup_insert_eq.
  - by eapply IH.
Qed.

(** Every key of the loop has an entry afterwards. *)
Lemma assign_all_is_Some keys vals dict k :
  length keys = length vals → k ∈ keys →
  is_Some (assign_all keys vals dict !! k).
Proof.
  revert vals dict. induction keys as [|k0 keys IH]; intros vals dict Hlen Hk.
  - by apply elem_of_nil in Hk.
  - destruct vals as [|v0 vals]; [done|]. rewrite assign_all_cons.
    destruct (decide (k ∈ keys)) as [Hin|Hnin].
    + apply IH; [by simplify_eq/= | done].
    + rewrite assign_all_lookup_other by done.
      apply elem_of_cons in Hk as [->|]; [|done].
      rewrite lookup_insert_eq. eauto.
Qed.

End AssignAll.

(** ** The four character classes *)

Lemma alphabet_size_values :
  alphabet_size UpperAlpha = 26 ∧ alphabet_size LowerAlpha = 26 ∧
  alphabet_size Digit = 10 ∧ alphabet_size Punctuation = 32.
Proof. done. Qed.

(** The symbols of a class are distinct and the classes are disjoint. *)
Lemma alphabets_NoDup :
  NoDup (ORIG_UPPER ++ ORIG_LOWER ++ ORIG_NUMBERS ++ ORIG_PUNCTS).
Proof. apply (bool_decide_unpack _). by vm_compute. Qed.

Lemma alphabet_NoDup c : NoDup (alphabet c).
Proof.
  pose proof alphabets_NoDup as H. rewrite !NoDup_app in H.
  destruct H as (HU & _ & HL & _ & HN & _ & HP). by destruct c.
Qed.

(** Four assignment loops in a row, over keys that are distinct within and
    across the loops. *)
Section FourLoops.

Variables kU vU kL vL kN vN kP vP : list ascii.
Variable dict : ChrDict.
Hypothesis keys_NoDup : NoDup (kU ++ kL ++ kN ++ kP).

Local Abbreviation loops := (four_loops kU vU kL vL kN vN kP vP dict).

Lemma four_loops_first (i : nat) k v :
  kU !! i = Some k → vU !! i = Some v → loops !! k = Some v.
Proof.
  intros Hk Hv. pose proof keys_NoDup as H. rewrite !NoDup_app in H.
  destruct H as (HU & HUo & HL & HLo & HN & HNo & HP).
  assert (k ∈ kU) as Hin by by eapply list_elem_of_lookup_2.
  specialize (HUo k Hin). rewrite !elem_of_app in HUo. unfold four_loops.
  rewrite !assign_all_lookup_other by naive_solver.
  by eapply assign_all_lookup.
Qed.

Lemma four_loops_second (i : nat) k v :
  kL !! i = Some k → vL !! i = Some v → loops !! k = Some v.
Proof.
  intros Hk Hv. pose proof keys_NoDup as H. rewrite !NoDup_app in H.
  destruct H as (HU & HUo & HL & HLo & HN & HNo & HP).
  assert (k ∈ kL) as Hin by by eapply list_elem_of_lookup_2.
  specialize (HLo k Hin). rewrite !elem_of_app in HLo. unfold four_loops.
  rewrite !assign_all_lookup_other by naive_solver.
  by eapply assign_all_lookup.
Qed.

Lemma four_loops_third (i : nat) k v :
  kN !! i = Some k → vN !! i = Some v → loops !! k = Some v.
Proof.
  intros Hk Hv. pose proof keys_NoDup as H. rewrite !NoDup_app in H.
  destruct H as (HU & HUo & HL & HLo & HN & HNo & HP).
  assert (k ∈ kN) as Hin by by eapply list_elem_of_lookup_2.
  specialize (HNo k Hin). unfold four_loops.
  rewrite assign_all_lookup_other by naive_solver.
  by eapply assign_all_lookup.
Qed.

Lemma four_loops_fourth (i : nat) k v :
  kP !! i = Some k → vP !! i = Some v → loops !! k = Some v.
Proof.
  intros Hk Hv. pose proof keys_NoDup as H. rewrite !NoDup_app in H.
  destruct H as (HU & HUo & HL & HLo & HN & HNo & HP).
  unfold four_loops. by eapply assign_all_lookup.
Qed.

Lemma four_loops_other k :
  k ∉ (kU ++ kL ++ kN ++ kP)%list → loops !! k = dict !! k.
Proof.
  rewrite !elem_of_app. intros Hk. unfold four_loops.
  rewrite !assign_all_lookup_other; naive_solver.
Qed.

End FourLoops.

(** ** The dictionaries of the two programs *)

Lemma decipher_options_flags k nums puncts :
  flag (Decipher.decipher_flags (decipher_options k nums puncts)) 2 = nums ∧
  flag (Decipher.decipher_flags (decipher_options k nums puncts)) 3 = puncts.
Proof. by destruct nums, puncts. Qed.

Section Tables.

Variables (k : Z) (nums puncts : bool).

Local Abbreviation rot := (class_rotation k nums puncts).

Lemma encipher_generate :
  ∃ o, Encipher.generateCipherDict (encipher_options k nums puncts) = Some o ∧
       Encipher.effective_shift o = k mod 26 ∧
       Encipher.numbers_shift o = rot Digit ∧
       Encipher.puncts_shift o = rot Punctuation ∧
       Encipher.cipher_dict o =
         four_loops ORIG_UPPER (cshift ORIG_UPPER (rot UpperAlpha))
                    ORIG_LOWER (cshift ORIG_LOWER (rot LowerAlpha))
                    ORIG_NUMBERS (cshift ORIG_NUMBERS (rot Digit))
                    ORIG_PUNCTS (cshift ORIG_PUNCTS (rot Punctuation)) ∅.
Proof.
  unfold Encipher.generateCipherDict, rot, class_rotation.
  rewrite (calculateEffectiveShift_mod 26) by done. simpl.
  destruct nums, puncts; simpl;
    rewrite ?(calculateEffectiveShift_mod (Z.of_nat 10)) by done; simpl;
    rewrite ?(calculateEffectiveShift_mod (Z.of_nat 32)) by done; simpl;
    eexists; (split; [reflexivity|done]).
Qed.

Lemma decipher_generate :
  ∃ o, Decipher.generateCipherDict (decipher_options k nums puncts) = Some o ∧
       Decipher.reduced_shift_len o = k mod 26 ∧
       Decipher.digits_shift_len o = rot Digit ∧
       Decipher.puncts_shift_len o = rot Punctuation ∧
       Decipher.cipher_dict o =
         four_loops (cshift ORIG_UPPER (rot UpperAlpha)) ORIG_UPPER
                    (cshift ORIG_LOWER (rot LowerAlpha)) ORIG_LOWER
                    (cshift ORIG_NUMBERS (rot Digit)) ORIG_NUMBERS
                    (cshift ORIG_PUNCTS (rot Punctuation)) ORIG_PUNCTS ∅.
Proof.
  unfold Decipher.generateCipherDict, rot, class_rotation.
  rewrite (calcReducedShift_mod 26) by done. simpl.
  destruct nums, puncts; simpl;
    rewrite ?(calcReducedShift_mod (Z.of_nat 10)) by done; simpl;
    rewrite ?(calcReducedShift_mod (Z.of_nat 32)) by done; simpl;
    eexists; (split; [reflexivity|done]).
Qed.

Lemma encipher_table_eq :
  encipher_table k nums puncts =
  Some (four_loops ORIG_UPPER (cshift ORIG_UPPER (rot UpperAlpha))
                   ORIG_LOWER (cshift ORIG_LOWER (rot LowerAlpha))
                   ORIG_NUMBERS (cshift ORIG_NUMBERS (rot Digit))
                   ORIG_PUNCTS (cshift ORIG_PUNCTS (rot Punctuation)) ∅).
Proof.
  unfold encipher_table.
  destruct encipher_generate as (o & Ho & _ & _ & _ & Hd).
  rewrite Ho. simpl. by rewrite Hd.
Qed.

Lemma decipher_table_eq :
  decipher_table k nums puncts =
  Some (four_loops (cshift ORIG_UPPER (rot UpperAlpha)) ORIG_UPPER
                   (cshift ORIG_LOWER (rot LowerAlpha)) ORIG_LOWER
                   (cshift ORIG_NUMBERS (rot Digit)) ORIG_NUMBERS
                   (cshift ORIG_PUNCTS (rot Punctuation)) ORIG_PUNCTS ∅).
Proof.
  unfold decipher_table.
  destruct decipher_generate as (o & Ho & _ & _ & _ & Hd).
  rewrite Ho. simpl. by rewrite Hd.
Qed.

Lemma shifted_alphabets_NoDup :
  NoDup (cshift ORIG_UPPER (rot UpperAlpha) ++ cshift ORIG_LOWER (rot LowerAlpha)
         ++ cshift ORIG_NUMBERS (rot Digit) ++ cshift ORIG_PUNCTS (rot Punctuation)).
Proof. rewrite !cshift_Permutation. apply alphabets_NoDup. Qed.

(** The encipher dictionary maps the symbol at index [i] of a class to the
    symbol at index [i] of the shifted class. *)
Lemma encipher_table_lookup c (i : nat) x :
  alphabet c !! i = Some x →
  ∃ d, encipher_table k nums puncts = Some d ∧
       d !! x = cshift (alphabet c) (rot c) !! i.
Proof.
  intros Hx. rewrite encipher_table_eq. eexists; split; [done|].
  assert (is_Some (cshift (alphabet c) (rot c) !! i)) as [y Hy].
  { apply lookup_lt_is_Some. rewrite length_cshift.
    by eapply lookup_lt_Some. }
  rewrite Hy. pose proof alphabets_NoDup.
  destruct c; simpl in *;
    eauto using four_loops_first, four_loops_second, four_loops_third,
      four_loops_fourth.
Qed.

(** The decipher dictionary maps the symbol at index [i] of the shifted
    class to the symbol at index [i] of the class. *)
Lemma decipher_table_lookup c (i : nat) y :
  cshift (alphabet c) (rot c) !! i = Some y →
  ∃ d, decipher_table k nums puncts = Some d ∧ d !! y = alphabet c !! i.
Proof.
  intros Hy. rewrite decipher_table_eq. eexists; split; [done|].
  assert (is_Some (alphabet c !! i)) as [x Hx].
  { apply lookup_lt_is_Some. rewrite <- (length_cshift _ (rot c)).
    by eapply lookup_lt_Some. }
  rewrite Hx. pose proof shifted_alphabets_NoDup.
  destruct c; simpl in *;
    eauto using four_loops_first, four_loops_second, four_loops_third,
      four_loops_fourth.
Qed.

(** Characters outside the four alphabets have no entry. *)
Lemma encipher_table_outside x :
  (∀ c, x ∉ alphabet c) →
  ∃ d, encipher_table k nums puncts = Some d ∧ d !! x = None.
Proof.
  intros Hx. rewrite encipher_table_eq. eexists; split; [done|].
  rewrite four_loops_other; [done|].
  pose proof (Hx UpperAlpha : x ∉ ORIG_UPPER).
  pose proof (Hx LowerAlpha : x ∉ ORIG_LOWER).
  pose proof (Hx Digit : x ∉ ORIG_NUMBERS).
  pose proof (Hx Punctuation : x ∉ ORIG_PUNCTS).
  rewrite !elem_of_app. tauto.
Qed.

Lemma decipher_table_outside x :
  (∀ c, x ∉ alphabet c) →
  ∃ d, decipher_table k nums puncts = Some d ∧ d !! x = None.
Proof.
  intros Hx. rewrite decipher_table_eq. eexists; split; [done|].
  rewrite four_loops_other; [done|].
  pose proof (Hx UpperAlpha : x ∉ ORIG_UPPER).
  pose proof (Hx LowerAlpha : x ∉ ORIG_LOWER).
  pose proof (Hx Digit : x ∉ ORIG_NUMBERS).
  pose proof (Hx Punctuation : x ∉ ORIG_PUNCTS).
  rewrite !elem_of_app, !elem_of_cshift. tauto.
Qed.

End Tables.

Lemma tables_exist k nums puncts :
  ∃ enc dec, encipher_table k nums puncts = Some enc ∧
             decipher_table k nums puncts = Some dec.
Proof. rewrite encipher_table_eq, decipher_table_eq. eauto. Qed.

Lemma in_some_class_dec (x : ascii) :
  (∃ c, x ∈ alphabet c) ∨ (∀ c, x ∉ alphabet c).
Proof.
  destruct (decide (x ∈ ORIG_UPPER)); [left; by exists UpperAlpha|].
  destruct (decide (x ∈ ORIG_LOWER)); [left; by exists LowerAlpha|].
  destruct (decide (x ∈ ORIG_NUMBERS)); [left; by exists Digit|].
  destruct (decide (x ∈ ORIG_PUNCTS)); [left; by exists Punctuation|].
  right. by intros [].
Qed.

(** A symbol of one class is in no other class. *)
Lemma classes_disjoint c1 c2 x : x ∈ alphabet c1 → x ∈ alphabet c2 → c1 = c2.
Proof.
  pose proof alphabets_NoDup as H. rewrite !NoDup_app in H.
  destruct H as (_ & HU & _ & HL & _ & HN & _).
  specialize (HU x). specialize (HL x). specialize (HN x).
  repeat setoid_rewrite elem_of_app in HU. repeat setoid_rewrite elem_of_app in HL.
  intros H1 H2. destruct c1, c2; unfold alphabet in *; try done; tauto.
Qed.

Section RoundTrip.

Variables (k : Z) (nums puncts : bool) (enc dec : ChrDict).
Hypothesis enc_built : encipher_table k nums puncts = Some enc.
Hypothesis dec_built : decipher_table k nums puncts = Some dec.

Lemma roundtrip_symbol c x :
  x ∈ alphabet c → ∃ y, enc !! x = Some y ∧ dec !! y = Some x.
Proof.
  intros [i Hi]%list_elem_of_lookup.
  destruct (encipher_table_lookup k nums puncts c i x Hi) as (d & Hd & Hl).
  assert (is_Some (cshift (alphabet c) (class_rotation k nums puncts c) !! i))
    as [y Hy].
  { apply lookup_lt_is_Some. rewrite length_cshift. by eapply lookup_lt_Some. }
  destruct (decipher_table_lookup k nums puncts c i y Hy) as (d' & Hd' & Hl').
  exists y. split; congruence.
Qed.

Lemma roundtrip_char x : substitute dec (substitute enc x) = x.
Proof.
  unfold substitute at 2.
  destruct (in_some_class_dec x) as [[c Hc]|Hout].
  - destruct (roundtrip_symbol c x Hc) as (y & -> & Hy).
    unfold substitute. by rewrite Hy.
  - destruct (encipher_table_outside k nums puncts x Hout) as (d & Hd & Hl).
    destruct (decipher_table_outside k nums puncts x Hout) as (d' & Hd' & Hl').
    assert (d = enc) as -> by congruence.
    assert (d' = dec) as -> by congruence.
    rewrite Hl. unfold substitute. by rewrite Hl'.
Qed.

Lemma roundtrip_line text : transform_line dec (transform_line enc text) = text.
Proof.
  induction text as [|x text IH]; [done|].
  simpl. by rewrite roundtrip_char, IH.
Qed.

End RoundTrip.

(** The character at an index of a transformed line. *)
Lemma get_transform_line dict line (i : nat) :
  String.get i (transform_line dict line) = substitute dict <$> String.get i line.
Proof.
  revert i. induction line as [|x line IH]; intros i; [done|].
  destruct i as [|i]; [done|]. apply IH.
Qed.

Lemma class_rotation_periodic k n nums puncts c :
  class_rotation (k + n * alphabet_size c) nums puncts c
  = class_rotation k nums puncts c.
Proof.
  unfold class_rotation. destruct (class_enabled nums puncts c); [|done].
  apply Z_mod_plus_full.
Qed.

(** ** The claims about the dictionaries *)

(** C1: for every shift amount and every choice of enabled classes, the
    deciphering dictionary built for them undoes the enciphering dictionary
    on every symbol of an enabled class, and deciphering an enciphered line
    gives the line back. *)
Theorem decipher_table_inverts_encipher_table
    (k : Z) (nums puncts : bool) (c : CharacterClass) (x : ascii) (text : string) :
  class_enabled nums puncts c = true → x ∈ alphabet c →
  ∃ enc dec,
    encipher_table k nums puncts = Some enc ∧
    decipher_table k nums puncts = Some dec ∧
    (∃ y, enc !! x = Some y ∧ dec !! y = Some x) ∧
    transform_line dec (transform_line enc text) = text.
Proof.
  intros _ Hx. destruct (tables_exist k nums puncts) as (enc & dec & He & Hd).
  exists enc, dec. repeat split; try done.
  - by eapply roundtrip_symbol.
  - by eapply roundtrip_line.
Qed.

Lemma decipher_table_inverts_encipher_table_witness :
  class_enabled true false Digit = true ∧ "7"%char ∈ alphabet Digit ∧
  ∃ enc dec,
    encipher_table (-80) true false = Some enc ∧
    decipher_table (-80) true false = Some dec ∧
    (∃ y, enc !! "7"%char = Some y ∧ dec !! y = Some "7"%char) ∧
    transform_line dec (transform_line enc "Room 101, ok?") = "Room 101, ok?".
Proof.
  split; [reflexivity|]. split; [by apply (bool_decide_unpack _); vm_compute|].
  apply (decipher_table_inverts_encipher_table (-80) true false Digit "7").
  - reflexivity.
  - by apply (bool_decide_unpack _); vm_compute.
Defined.

(** C2: for a modulus 26, 10 or 32 the reduced shift is
    [((s % m) + m) % m] with the truncating [%] of C++; a negative shift is
    reduced by adding the modulus until the sum is not negative, a
    non-negative one is [s % m], and the result is in [0, m). *)
Theorem reduced_shift_floor_modulo (s m : Z) :
  m = 26 ∨ m = 10 ∨ m = 32 →
  ∃ r, calculateEffectiveShift s m = Some r ∧
       calcReducedShift s m = Some r ∧
       r = Z.rem (Z.rem s m + m) m ∧
       (s < 0 → add_until_nonneg (Z.to_nat (- s)) s m = Some r ∧
                ∃ n, 0 < n ∧ r = s + n * m ∧ ∀ j, 0 <= j < n → s + j * m < 0) ∧
       (0 <= s → r = Z.rem s m) ∧
       0 <= r < m.
Proof.
  intros Hm. assert (0 < m) as Hpos by lia.
  exists (s mod m). split; [by apply calculateEffectiveShift_mod|].
  split; [by apply calcReducedShift_mod|].
  split; [by rewrite rem_add_rem_mod|].
  split; [|split].
  - intros Hs. split; [apply add_until_nonneg_mod; lia|].
    by apply mod_least_additions.
  - intros Hs. by rewrite Z.rem_mod_nonneg by lia.
  - by apply Z.mod_pos_bound.
Qed.

Lemma reduced_shift_floor_modulo_witness :
  (10 = 26 ∨ 10 = 10 ∨ 10 = 32) ∧
  ∃ r, calculateEffectiveShift (-83) 10 = Some r ∧
       calcReducedShift (-83) 10 = Some r ∧
       r = Z.rem (Z.rem (-83) 10 + 10) 10 ∧
       (-83 < 0 → add_until_nonneg (Z.to_nat (- -83)) (-83) 10 = Some r ∧
                ∃ n, 0 < n ∧ r = -83 + n * 10 ∧ ∀ j, 0 <= j < n → -83 + j * 10 < 0) ∧
       (0 <= -83 → r = Z.rem (-83) 10) ∧
       0 <= r < 10.
Proof.
  split; [lia|]. apply (reduced_shift_floor_modulo (-83) 10). lia.
Defined.

(** C3: whatever the other switches are, the rotation of the digits, when
    they are enabled, is the shift reduced modulo 10 and the rotation of the
    punctuation, when it is enabled, the shift reduced modulo 32, both taken
    from the shift amount itself and not from the letter rotation; a class
    that is not enabled keeps the rotation 0.  Shift 37 rotates letters by
    11, digits by 7 and punctuation by 5, while reducing the letter rotation
    again would give 1 and 11; with the digits switch alone the digits are
    still rotated by 7. *)
Theorem digit_and_punctuation_shifts_from_raw_shift (s : Z) (nums puncts : bool) :
  (∃ oe od,
     Encipher.generateCipherDict (encipher_options s nums puncts) = Some oe ∧
     Decipher.generateCipherDict (decipher_options s nums puncts) = Some od ∧
     Encipher.effective_shift oe = s mod 26 ∧
     Encipher.numbers_shift oe = (if nums then s mod 10 else 0) ∧
     Encipher.puncts_shift oe = (if puncts then s mod 32 else 0) ∧
     Decipher.reduced_shift_len od = s mod 26 ∧
     Decipher.digits_shift_len od = (if nums then s mod 10 else 0) ∧
     Decipher.puncts_shift_len od = (if puncts then s mod 32 else 0) ∧
     Encipher.cipher_dict oe =
       four_loops ORIG_UPPER (cshift ORIG_UPPER (s mod 26))
                  ORIG_LOWER (cshift ORIG_LOWER (s mod 26))
                  ORIG_NUMBERS
                  (cshift ORIG_NUMBERS (if nums then s mod 10 else 0))
                  ORIG_PUNCTS
                  (cshift ORIG_PUNCTS (if puncts then s mod 32 else 0)) ∅ ∧
     Decipher.cipher_dict od =
       four_loops (cshift ORIG_UPPER (s mod 26)) ORIG_UPPER
                  (cshift ORIG_LOWER (s mod 26)) ORIG_LOWER
                  (cshift ORIG_NUMBERS (if nums then s mod 10 else 0))
                  ORIG_NUMBERS
                  (cshift ORIG_PUNCTS (if puncts then s mod 32 else 0))
                  ORIG_PUNCTS ∅) ∧
  (∃ oe,
     Encipher.generateCipherDict (encipher_options 37 true true) = Some oe ∧
     Encipher.effective_shift oe = 11 ∧
     Encipher.numbers_shift oe = 7 ∧
     Encipher.puncts_shift oe = 5 ∧
     Encipher.effective_shift oe mod 10 = 1 ∧
     Encipher.effective_shift oe mod 32 = 11 ∧
     Encipher.cipher_dict oe !! "A"%char = Some "L"%char ∧
     Encipher.cipher_dict oe !! "0"%char = Some "7"%char ∧
     Encipher.cipher_dict oe !! "!"%char = Some "&"%char) ∧
  (∃ oe od,
     Encipher.generateCipherDict (encipher_options 37 true false) = Some oe ∧
     Decipher.generateCipherDict (decipher_options 37 true false) = Some od ∧
     Encipher.effective_shift oe = 11 ∧
     Encipher.numbers_shift oe = 7 ∧
     Decipher.digits_shift_len od = 7 ∧
     Encipher.cipher_dict oe !! "A"%char = Some "L"%char ∧
     Encipher.cipher_dict oe !! "0"%char = Some "7"%char ∧
     Encipher.cipher_dict oe !! "!"%char = Some "!"%char ∧
     Decipher.cipher_dict od !! "7"%char = Some "0"%char).
Proof.
  split; [|split].
  - destruct (encipher_generate s nums puncts) as (oe & He & H1 & H2 & H3 & H4).
    destruct (decipher_generate s nums puncts) as (od & Hd & H5 & H6 & H7 & H8).
    exists oe, od. rewrite H1, H2, H3, H4, H5, H6, H7, H8.
    unfold class_rotation. by destruct nums, puncts.
  - destruct (encipher_generate 37 true true) as (oe & He & H1 & H2 & H3 & _).
    assert (encipher_table 37 true true = Some (Encipher.cipher_dict oe)) as Ht
      by (unfold encipher_table; by rewrite He).
    exists oe. split; [exact He|]. rewrite H1, H2, H3.
    do 5 (split; [reflexivity|]).
    split; [|split].
    + destruct (encipher_table_lookup 37 true true UpperAlpha 0 "A" eq_refl)
        as (d & Hd & Hl).
      assert (d = Encipher.cipher_dict oe) as -> by congruence. by rewrite Hl.
    + destruct (encipher_table_lookup 37 true true Digit 0 "0" eq_refl)
        as (d & Hd & Hl).
      assert (d = Encipher.cipher_dict oe) as -> by congruence. by rewrite Hl.
    + destruct (encipher_table_lookup 37 true true Punctuation 0 "!" eq_refl)
        as (d & Hd & Hl).
      assert (d = Encipher.cipher_dict oe) as -> by congruence. by rewrite Hl.
  - destruct (encipher_generate 37 true false) as (oe & He & H1 & H2 & _).
    destruct (decipher_generate 37 true false) as (od & Hd' & _ & H6 & _).
    assert (encipher_table 37 true false = Some (Encipher.cipher_dict oe)) as Ht
      by (unfold encipher_table; by rewrite He).
    assert (decipher_table 37 true false = Some (Decipher.cipher_dict od)) as Ht'
      by (unfold decipher_table; by rewrite Hd').
    exists oe, od. split; [exact He|]. split; [exact Hd'|]. rewrite H1, H2, H6.
    do 3 (split; [reflexivity|]).
    split; [|split; [|split]].
    + destruct (encipher_table_lookup 37 true false UpperAlpha 0 "A" eq_refl)
        as (d & Hd & Hl).
      assert (d = Encipher.cipher_dict oe) as -> by congruence. by rewrite Hl.
    + destruct (encipher_table_lookup 37 true false Digit 0 "0" eq_refl)
        as (d & Hd & Hl).
      assert (d = Encipher.cipher_dict oe) as -> by congruence. by rewrite Hl.
    + destruct (encipher_table_lookup 37 true false Punctuation 0 "!" eq_refl)
        as (d & Hd & Hl).
      assert (d = Encipher.cipher_dict oe) as -> by congruence. by rewrite Hl.
    + destruct (decipher_table_lookup 37 true false Digit 0 "7" eq_refl)
        as (d & Hd & Hl).
      assert (d = Decipher.cipher_dict od) as -> by congruence. by rewrite Hl.
Qed.

(** With the shift 5 of the defaults and no class option, the digit 0 is a
    key of the dictionary. *)
Lemma disabled_class_has_no_entries_fails :
  ¬ disabled_class_has_no_entries 5 false false.
Proof.
  intros H.
  specialize (H Digit "0"%char (default ∅ (encipher_table 5 false false))).
  by vm_compute in H; specialize (H eq_refl (list_elem_of_here _ _) eq_refl).
Qed.

(** A symbol of a class that is not enabled is mapped to itself by both
    dictionaries. *)
Lemma disabled_symbol_entries k nums puncts enc dec c x :
  encipher_table k nums puncts = Some enc →
  decipher_table k nums puncts = Some dec →
  class_enabled nums puncts c = false → x ∈ alphabet c →
  enc !! x = Some x ∧ dec !! x = Some x.
Proof.
  intros He Hd Hoff [i Hi]%list_elem_of_lookup.
  assert (cshift (alphabet c) (class_rotation k nums puncts c) !! i = Some x) as Hs.
  { unfold class_rotation. by rewrite Hoff, cshift_0. }
  destruct (encipher_table_lookup k nums puncts c i x Hi) as (d & Hd1 & Hl).
  destruct (decipher_table_lookup k nums puncts c i x Hs) as (d' & Hd2 & Hl').
  split; congruence.
Qed.

Lemma elem_of_alphabets y :
  y ∈ (ORIG_UPPER ++ ORIG_LOWER ++ ORIG_NUMBERS ++ ORIG_PUNCTS)%list
  ↔ ∃ c, y ∈ alphabet c.
Proof.
  rewrite !elem_of_app. split.
  - intros [H|[H|[H|H]]];
      [by exists UpperAlpha|by exists LowerAlpha|by exists Digit|by exists Punctuation].
  - intros [c Hc]. destruct c; unfold alphabet in Hc; tauto.
Qed.

(** The keys of both dictionaries are the symbols of the four classes. *)
Lemma table_domains k nums puncts enc dec :
  encipher_table k nums puncts = Some enc →
  decipher_table k nums puncts = Some dec →
  dom enc = list_to_set (ORIG_UPPER ++ ORIG_LOWER ++ ORIG_NUMBERS ++ ORIG_PUNCTS) ∧
  dom dec = list_to_set (ORIG_UPPER ++ ORIG_LOWER ++ ORIG_NUMBERS ++ ORIG_PUNCTS).
Proof.
  intros He Hd.
  split; apply set_eq; intros y;
    rewrite elem_of_dom, elem_of_list_to_set, elem_of_alphabets;
    (destruct (in_some_class_dec y) as [[c' Hc']|Hout];
     [ destruct (roundtrip_symbol k nums puncts enc dec He Hd c' y Hc')
         as (z & Hz & _)
     | ]).
  - rewrite Hz. split; [intros _; by exists c'|intros _; by eexists].
  - destruct (encipher_table_outside k nums puncts y Hout) as (d & Hd1 & Hn).
    assert (d = enc) as -> by congruence. rewrite Hn.
    split; [by intros []|]. intros [c Hc]. by destruct (Hout c).
  - split; [intros _; by exists c'|intros _].
    assert (y ∈ cshift (alphabet c') (class_rotation k nums puncts c')) as Hy
      by by apply elem_of_cshift.
    apply list_elem_of_lookup in Hy as [j Hj].
    destruct (decipher_table_lookup k nums puncts c' j y Hj) as (d & Hd1 & Hn).
    assert (d = dec) as -> by congruence. rewrite Hn.
    apply lookup_lt_is_Some.
    rewrite <- (length_cshift _ (class_rotation k nums puncts c')).
    by eapply lookup_lt_Some.
  - destruct (decipher_table_outside k nums puncts y Hout) as (d & Hd1 & Hn).
    assert (d = dec) as -> by congruence. rewrite Hn.
    split; [by intros []|]. intros [c Hc]. by destruct (Hout c).
Qed.

(** C4, amended: whatever the options are, the keys of both dictionaries
    are the symbols of the four classes, and every symbol of a class that is
    not enabled is mapped to itself. *)
Theorem disabled_class_has_identity_entries (k : Z) (nums puncts : bool) :
  ∃ enc dec,
    encipher_table k nums puncts = Some enc ∧
    decipher_table k nums puncts = Some dec ∧
    dom enc = list_to_set (ORIG_UPPER ++ ORIG_LOWER ++ ORIG_NUMBERS ++ ORIG_PUNCTS) ∧
    dom dec = list_to_set (ORIG_UPPER ++ ORIG_LOWER ++ ORIG_NUMBERS ++ ORIG_PUNCTS) ∧
    ∀ c x,
      class_enabled nums puncts c = false → x ∈ alphabet c →
      enc !! x = Some x ∧ dec !! x = Some x.
Proof.
  destruct (tables_exist k nums puncts) as (enc & dec & He & Hd).
  exists enc, dec. split; [done|]. split; [done|].
  destruct (table_domains k nums puncts enc dec He Hd) as [H1 H2].
  split; [done|]. split; [done|].
  intros c x Hoff Hx.
  exact (disabled_symbol_entries k nums puncts enc dec c x He Hd Hoff Hx).
Qed.

Lemma disabled_class_has_identity_entries_witness :
  class_enabled false true Digit = false ∧ "4"%char ∈ alphabet Digit ∧
  ∃ enc dec,
    encipher_table 13 false true = Some enc ∧
    decipher_table 13 false true = Some dec ∧
    dom enc = list_to_set (ORIG_UPPER ++ ORIG_LOWER ++ ORIG_NUMBERS ++ ORIG_PUNCTS) ∧
    dom dec = list_to_set (ORIG_UPPER ++ ORIG_LOWER ++ ORIG_NUMBERS ++ ORIG_PUNCTS) ∧
    enc !! "4"%char = Some "4"%char ∧ dec !! "4"%char = Some "4"%char.
Proof.
  assert (class_enabled false true Digit = false) as Hoff by reflexivity.
  assert ("4"%char ∈ alphabet Digit) as Hx
    by (by apply (bool_decide_unpack _); vm_compute).
  split; [exact Hoff|]. split; [exact Hx|].
  destruct (disabled_class_has_identity_entries 13 false true)
    as (enc & dec & He & Hd & D1 & D2 & Hid).
  exists enc, dec. repeat (split; [assumption|]).
  exact (Hid Digit "4"%char Hoff Hx).
Defined.

(** C5: in the transform of a line, a character that belongs to no enabled
    class is written as it was read, by the encipher and by the decipher
    program; so is every symbol of a class that is not enabled, whatever
    the shift amount. *)
Theorem passthrough_outside_enabled_classes
    (k : Z) (nums puncts : bool) (line : string) (i : nat) (x : ascii) :
  String.get i line = Some x →
  ((∀ c, class_enabled nums puncts c = true → x ∉ alphabet c) ∨
   (∃ c, class_enabled nums puncts c = false ∧ x ∈ alphabet c)) →
  ∃ enc dec,
    encipher_table k nums puncts = Some enc ∧
    decipher_table k nums puncts = Some dec ∧
    String.get i (transform_line enc line) = Some x ∧
    String.get i (transform_line dec line) = Some x.
Proof.
  intros Hget Hx.
  destruct (tables_exist k nums puncts) as (enc & dec & He & Hd).
  exists enc, dec. split; [done|]. split; [done|].
  rewrite !get_transform_line, Hget. simpl.
  assert (substitute enc x = x ∧ substitute dec x = x) as [-> ->]; [|done].
  destruct (in_some_class_dec x) as [[c Hc]|Hout].
  - assert (class_enabled nums puncts c = false) as Hoff.
    { destruct Hx as [Hx|(c' & Hoff & Hc')].
      - destruct (class_enabled nums puncts c) eqn:E; [|done].
        by destruct (Hx c E).
      - by rewrite (classes_disjoint c c' x). }
    destruct (disabled_symbol_entries k nums puncts enc dec c x He Hd Hoff Hc)
      as [Hex Hdx].
    unfold substitute. by rewrite Hex, Hdx.
  - destruct (encipher_table_outside k nums puncts x Hout) as (d & Hd1 & Hn).
    destruct (decipher_table_outside k nums puncts x Hout) as (d' & Hd2 & Hn').
    assert (d = enc) as -> by congruence. assert (d' = dec) as -> by congruence.
    unfold substitute. by rewrite Hn, Hn'.
Qed.

Lemma passthrough_outside_enabled_classes_witness :
  String.get 5 "Room 101" = Some "1"%char ∧
  ((∀ c, class_enabled false false c = true → "1"%char ∉ alphabet c) ∨
   (∃ c, class_enabled false false c = false ∧ "1"%char ∈ alphabet c)) ∧
  ∃ enc dec,
    encipher_table 5 false false = Some enc ∧
    decipher_table 5 false false = Some dec ∧
    String.get 5 (transform_line enc "Room 101") = Some "1"%char ∧
    String.get 5 (transform_line dec "Room 101") = Some "1"%char.
Proof.
  assert (∃ c, class_enabled false false c = false ∧ "1"%char ∈ alphabet c) as H.
  { exists Digit. split; [reflexivity|].
    by apply (bool_decide_unpack _); vm_compute. }
  split; [reflexivity|]. split; [by right|].
  apply (passthrough_outside_enabled_classes 5 false false "Room 101" 5 "1").
  - reflexivity.
  - by right.
Defined.

(** C8: the entries of a class in the dictionary built for shift [k] are
    the entries built for shift [k + n * m], [m] the size of the class. *)
Theorem table_periodic_in_shift
    (k n : Z) (nums puncts : bool) (c : CharacterClass) (x : ascii) :
  x ∈ alphabet c →
  ∃ enc enc' dec dec',
    encipher_table k nums puncts = Some enc ∧
    encipher_table (k + n * alphabet_size c) nums puncts = Some enc' ∧
    decipher_table k nums puncts = Some dec ∧
    decipher_table (k + n * alphabet_size c) nums puncts = Some dec' ∧
    enc !! x = enc' !! x ∧ dec !! x = dec' !! x.
Proof.
  intros Hx.
  destruct (tables_exist k nums puncts) as (enc & dec & He & Hd).
  destruct (tables_exist (k + n * alphabet_size c) nums puncts)
    as (enc' & dec' & He' & Hd').
  exists enc, enc', dec, dec'. repeat (split; [done|]).
  split.
  - apply list_elem_of_lookup in Hx as [i Hi].
    destruct (encipher_table_lookup k nums puncts c i x Hi) as (d & H1 & Hl).
    destruct (encipher_table_lookup (k + n * alphabet_size c) nums puncts c i x Hi)
      as (d' & H1' & Hl').
    rewrite class_rotation_periodic in Hl'. congruence.
  - assert (x ∈ cshift (alphabet c) (class_rotation k nums puncts c)) as Hy
      by by apply elem_of_cshift.
    apply list_elem_of_lookup in Hy as [j Hj].
    destruct (decipher_table_lookup k nums puncts c j x Hj) as (d & H1 & Hl).
    rewrite <- (class_rotation_periodic k n) in Hj.
    destruct (decipher_table_lookup (k + n * alphabet_size c) nums puncts c j x Hj)
      as (d' & H1' & Hl').
    congruence.
Qed.

Lemma table_periodic_in_shift_witness :
  "y"%char ∈ alphabet LowerAlpha ∧
  ∃ enc enc' dec dec',
    encipher_table 5 true true = Some enc ∧
    encipher_table (5 + (-4) * alphabet_size LowerAlpha) true true = Some enc' ∧
    decipher_table 5 true true = Some dec ∧
    decipher_table (5 + (-4) * alphabet_size LowerAlpha) true true = Some dec' ∧
    enc !! "y"%char = enc' !! "y"%char ∧ dec !! "y"%char = dec' !! "y"%char.
Proof.
  split; [by apply (bool_decide_unpack _); vm_compute|].
  apply (table_periodic_in_shift 5 (-4) true true LowerAlpha "y").
  by apply (bool_decide_unpack _); vm_compute.
Defined.

(** ** Command-line tokens *)

Lemma recognized_cases c :
  recognized c = true →
  c = "a"%char ∨ c = "n"%char ∨ c = "p"%char ∨ c = "l"%char ∨ c = "h"%char.
Proof.
  unfold recognized. rewrite !orb_true_iff, !Ascii.eqb_eq. tauto.
Qed.

Lemma valid_singlechr_opts_recognized c :
  bool_decide (c ∈ Encipher.valid_singlechr_opts) = recognized c.
Proof.
  assert (c ∈ Encipher.valid_singlechr_opts ↔ recognized c = true) as H.
  { unfold Encipher.valid_singlechr_opts, recognized.
    rewrite !elem_of_union, !elem_of_singleton, !orb_true_iff, !Ascii.eqb_eq.
    tauto. }
  destruct (recognized c).
  - apply bool_decide_eq_true. by apply H.
  - apply bool_decide_eq_false. intros Hc. by apply H in Hc.
Qed.

Lemma find_last_of_from_absent s c i found :
  string_forallb (λ x, negb (Ascii.eqb x c)) s = true →
  find_last_of_from s c i found = found.
Proof.
  revert i found. induction s as [|x s IH]; intros i found H; [done|].
  simpl in *. apply andb_true_iff in H as [Hx Hs].
  destruct (Ascii.eqb x c); [done|]. by apply IH.
Qed.

(** A dash followed by characters that are no dash. *)
Lemma find_last_of_leading_dash body :
  string_forallb (λ x, negb (is_dash x)) body = true →
  find_last_of (String "-" body) "-" = 0.
Proof.
  intros H. unfold find_last_of. simpl.
  by apply find_last_of_from_absent.
Qed.

(** A dash followed by two or more characters, none a dash, is none of the
    options that are compared as a whole. *)
Lemma combined_not_exact_option body :
  string_forallb (λ x, negb (is_dash x)) body = true →
  (2 <= String.length body)%nat →
  exact_option (String "-" body) = false.
Proof.
  intros Hd Hlen. destruct body as [|c1 [|c2 body]]; simpl in Hlen; try lia.
  simpl in Hd. apply andb_true_iff in Hd as [H1 _].
  unfold is_dash in H1. apply negb_true_iff in H1.
  unfold exact_option. simpl. rewrite H1.
  by repeat match goal with |- context [Ascii.eqb c1 ?x] =>
              destruct (Ascii.eqb c1 x) end.
Qed.

Lemma print_all_nil w : print_all [] w = w.
Proof. destruct w. unfold print_all. simpl. by rewrite app_nil_r. Qed.

Lemma print_all_print e es w : print_all es (print e w) = print_all (e :: es) w.
Proof. unfold print_all, print. simpl. by rewrite <- app_assoc. Qed.

(** ** Parsing in the encipher program *)

Lemma enc_with_flags_id o :
  enc_with_flags (Encipher.enc_numbers o) (Encipher.enc_puncts o)
    (Encipher.display_log_info o) o = o.
Proof. by destruct o. Qed.

(** The loop over single-character options, on a run of recognized
    characters: each sets its switch, [h] prints the help and ends the
    parsing after this argument. *)
Lemma enc_single_char_options_recognized tok pre chars pr ae n p l o w :
  string_forallb recognized pre = true →
  Encipher.single_char_options tok (pre ++ chars) pr ae (enc_with_flags n p l o) w
  = Encipher.single_char_options tok chars
      (if string_existsb is_h pre then 1 else pr)
      (ae || string_existsb is_h pre)
      (enc_with_flags (n || string_existsb sets_digits pre)
                      (p || string_existsb sets_puncts pre)
                      (l || string_existsb sets_log pre) o)
      (print_all (help_prints (Encipher.prog_name_stripped o) pre) w).
Proof.
  revert pr ae n p l w.
  induction pre as [|c pre IH]; intros pr ae n p l w Hpre.
  - simpl. by rewrite print_all_nil, !orb_false_r.
  - simpl in Hpre. apply andb_true_iff in Hpre as [Hc Hpre].
    change (String c pre ++ chars) with (String c (pre ++ chars)).
    cbn [Encipher.single_char_options].
    rewrite valid_singlechr_opts_recognized, Hc.
    apply recognized_cases in Hc as [->|[->|[->|[->| ->]]]]; cbn [Ascii.eqb];
      simpl Ascii.eqb; cbv iota;
      [ change (Encipher.set_enc_puncts true
                  (Encipher.set_enc_numbers true (enc_with_flags n p l o)))
          with (enc_with_flags true true l o)
      | change (Encipher.set_enc_numbers true (enc_with_flags n p l o))
          with (enc_with_flags true p l o)
      | change (Encipher.set_enc_puncts true (enc_with_flags n p l o))
          with (enc_with_flags n true l o)
      | change (Encipher.set_display_log_info true (enc_with_flags n p l o))
          with (enc_with_flags n p true o)
      | change (Encipher.prog_name_stripped (enc_with_flags n p l o))
          with (Encipher.prog_name_stripped o) ];
      rewrite IH by done; simpl; rewrite ?print_all_print, ?orb_true_r;
      try done.
  by destruct (string_existsb is_h pre).
Qed.

(** An argument that is none of the options compared as a whole and has its
    only dash in front is taken for single-character options. *)
Lemma enc_parse_options_single tok rest pr o w :
  exact_option tok = false → find_last_of tok "-" = 0 →
  Encipher.parse_options (tok :: rest) pr o w =
  match Encipher.single_char_options tok (string_rest tok) pr false o w with
  | Returns (pr', at_end) (o', w') =>
      if at_end then Returns pr' (o', w')
      else Encipher.parse_options rest pr' o' w'
  | Throws e s => Throws e s
  | Undefined => Undefined
  end.
Proof.
  unfold exact_option. rewrite !orb_false_iff.
  intros (((((((((((H1 & H2) & H3) & H4) & H5) & H6) & H7) & H8) & H9) & H10)
            & H11) & H12) Hd.
  cbn [Encipher.parse_options].
  by rewrite H1, H2, H3, H4, H5, H6, H7, H9, H10, H11, H12, Hd.
Qed.

(** A combined token with an unrecognized character [c], the characters
    before it recognized: the three switches are cleared, the exception
    names [c] and the token. *)
Lemma enc_parse_options_bad_char pre c suf rest pr o w :
  string_forallb recognized pre = true → recognized c = false →
  string_forallb (λ x, negb (is_dash x)) (pre ++ String c suf) = true →
  (2 <= String.length (pre ++ String c suf))%nat →
  Encipher.parse_options (String "-" (pre ++ String c suf) :: rest) pr o w =
  Throws (invalid_argument
            (Encipher.sco_errmsg c (String "-" (pre ++ String c suf))))
         (enc_with_flags false false false o,
          print_all (help_prints (Encipher.prog_name_stripped o) pre) w).
Proof.
  intros Hpre Hc Hdash Hlen.
  rewrite enc_parse_options_single
    by (by apply combined_not_exact_option || by apply find_last_of_leading_dash).
  cbn [string_rest].
  rewrite <- (enc_with_flags_id o) at 1.
  rewrite enc_single_char_options_recognized by done.
  cbn [Encipher.single_char_options].
  by rewrite valid_singlechr_opts_recognized, Hc.
Qed.

(** ** Parsing well-formed command lines *)

Lemma flag_char_facts body :
  string_forallb flag_char body = true →
  string_forallb recognized body = true ∧
  string_existsb is_h body = false ∧
  string_forallb (λ x, negb (is_dash x)) body = true.
Proof.
  induction body as [|c body IH]; [done|]. simpl.
  intros [Hc Hb]%andb_true_iff. destruct (IH Hb) as (-> & -> & ->).
  unfold flag_char in Hc. rewrite !orb_true_iff, !Ascii.eqb_eq in Hc.
  by destruct Hc as [[[->| ->]| ->]| ->].
Qed.

Lemma flags_not_exact_option body :
  string_forallb flag_char body = true →
  exact_option (String "-" body) = false.
Proof.
  destruct body as [|c body]; [done|]. simpl.
  intros [Hc _]%andb_true_iff.
  unfold flag_char in Hc. rewrite !orb_true_iff, !Ascii.eqb_eq in Hc.
  by destruct Hc as [[[->| ->]| ->]| ->].
Qed.

(** What a switch token is. *)
Lemma switch_token_cases tok :
  switch_token tok = true →
  tok = "--shift-puncts" ∨ tok = "--shift-all" ∨ tok = "--show-log" ∨
  ∃ body, tok = String "-" body ∧ string_forallb flag_char body = true.
Proof.
  unfold switch_token. rewrite !orb_true_iff, !String.eqb_eq.
  intros [[[H|H]|H]|H]; [tauto..|].
  destruct tok as [|d body]; [done|].
  apply andb_true_iff in H as [Hd Hb]. apply Ascii.eqb_eq in Hd as ->.
  right; right; right. by exists body.
Qed.

Lemma append_empty_r (s : string) : s ++ "" = s.
Proof.
  induction s as [|c s IH]; [done|].
  change (String c s ++ "") with (String c (s ++ "")). by rewrite IH.
Qed.

Lemma append_assoc (s1 s2 s3 : string) : (s1 ++ s2) ++ s3 = s1 ++ s2 ++ s3.
Proof.
  induction s1 as [|c s1 IH]; [done|].
  change (String c (s1 ++ s2) ++ s3 = String c (s1 ++ s2 ++ s3)).
  change (String c ((s1 ++ s2) ++ s3) = String c (s1 ++ s2 ++ s3)).
  by rewrite IH.
Qed.

Lemma help_prints_no_h progname chars :
  string_existsb is_h chars = false → help_prints progname chars = [].
Proof.
  induction chars as [|c chars IH]; [done|].
  simpl. intros [-> Hh]%orb_false_iff. by apply IH.
Qed.

(** A dash followed by switches only sets these switches. *)
Lemma enc_parse_options_flags body rest pr o w :
  string_forallb flag_char body = true →
  Encipher.parse_options (String "-" body :: rest) pr o w
  = Encipher.parse_options rest pr
      (enc_with_flags
         (Encipher.enc_numbers o || string_existsb sets_digits body)
         (Encipher.enc_puncts o || string_existsb sets_puncts body)
         (Encipher.display_log_info o || string_existsb sets_log body) o) w.
Proof.
  intros Hb. destruct (flag_char_facts body Hb) as (Hr & Hh & Hd).
  rewrite enc_parse_options_single
    by (by apply flags_not_exact_option || by apply find_last_of_leading_dash).
  cbn [string_rest]. rewrite <- (enc_with_flags_id o) at 1.
  rewrite <- (append_empty_r body) at 2.
  rewrite enc_single_char_options_recognized by done.
  rewrite Hh, help_prints_no_h by done.
  cbn [Encipher.single_char_options orb]. by rewrite print_all_nil.
Qed.

(** The encipher loop on a well-formed beginning of the command line: it
    goes on with what follows, the values of the last occurrences stored. *)
Lemma enc_parse_items items more :
  forallb item_ok items = true →
  ∀ pr o w, ∃ o',
    Encipher.parse_options (render items ++ more) pr o w
    = Encipher.parse_options more pr o' w ∧
    Encipher.infilename o' = last_ifile items (Encipher.infilename o) ∧
    Encipher.outfilename o' = last_ofile items (Encipher.outfilename o) ∧
    Encipher.shift_amount o' = last_shift items (Encipher.shift_amount o) ∧
    Encipher.prog_name_stripped o' = Encipher.prog_name_stripped o.
Proof.
  induction items as [|it items IH]; intros Hok pr o w.
  - exists o. by repeat split.
  - simpl in Hok. apply andb_true_iff in Hok as [Hit Hok].
    specialize (IH Hok). unfold render. simpl flat_map. fold (render items).
    rewrite <- app_assoc.
    destruct it as [long path|long path|long text|tok]; cbn [render_item app].
    + destruct long; cbn [Encipher.parse_options]; simpl;
        exact (IH pr (Encipher.set_infilename path o) w).
    + destruct long; cbn [Encipher.parse_options]; simpl;
        exact (IH pr (Encipher.set_use_default_oname false
                        (Encipher.set_outfilename path o)) w).
    + simpl in Hit. destruct (stoi text) as [e|n] eqn:Hs; [done|].
      destruct long; cbn [Encipher.parse_options]; simpl; rewrite Hs;
        exact (IH pr (Encipher.set_shift_amount n o) w).
    + simpl in Hit.
      apply switch_token_cases in Hit as [->|[->|[->|(body & -> & Hb)]]].
      { exact (IH pr (Encipher.set_enc_puncts true o) w). }
      { exact (IH pr (Encipher.set_enc_puncts true
                        (Encipher.set_enc_numbers true o)) w). }
      { exact (IH pr (Encipher.set_display_log_info true o) w). }
      rewrite enc_parse_options_flags by done.
      exact (IH pr (enc_with_flags
                      (Encipher.enc_numbers o || string_existsb sets_digits body)
                      (Encipher.enc_puncts o || string_existsb sets_puncts body)
                      (Encipher.display_log_info o || string_existsb sets_log body)
                      o) w).
Qed.

Lemma enc_parseCommandLine_options progname opts w :
  opts ≠ [] →
  Encipher.parseCommandLine (progname :: opts) Encipher.cmdopts0 w
  = Encipher.parse_options opts 0
      (Encipher.set_prog_name_stripped (path_filename progname)
         (Encipher.set_program_name progname Encipher.cmdopts0)) w.
Proof. by destruct opts. Qed.

(** ** Parsing in the decipher program *)

Lemma flag_flag_set i j f :
  0 <= i → flag (flag_set i f) j = (i =? j) || flag f j.
Proof. intros Hi. unfold flag, flag_set. by apply Z.setbit_eqb. Qed.

Lemma flag_flag_reset i j f :
  flag (flag_reset i f) j = flag f j && negb (i =? j).
Proof. unfold flag, flag_reset. apply Z.clearbit_eqb. Qed.

Lemma dec_cleared_flags f :
  flag (dec_cleared f) 0 = false ∧ flag (dec_cleared f) 2 = false ∧
  flag (dec_cleared f) 3 = false ∧ flag (dec_cleared f) 7 = false ∧
  flag (dec_cleared f) 1 = flag f 1.
Proof.
  unfold dec_cleared. rewrite !flag_flag_reset. simpl.
  by rewrite ?andb_false_r, ?andb_true_r.
Qed.

Ltac flag_simpl H :=
  rewrite ?flag_flag_set, ?flag_flag_reset in H by lia;
  cbn [Z.eqb Pos.eqb orb andb negb] in H;
  rewrite ?andb_true_r, ?andb_false_r in H.

Lemma dec_set_flag_flags i b f o :
  Decipher.set_flag i b (Decipher.set_decipher_flags f o)
  = Decipher.set_decipher_flags (if b then flag_set i f else flag_reset i f) o.
Proof. done. Qed.

Lemma dec_set_decipher_flags_id o :
  Decipher.set_decipher_flags (Decipher.decipher_flags o) o = o.
Proof. by destruct o. Qed.

(** The loop of [parseSingleCharOptions] changes the flags only, and does
    not change flag 1. *)
Lemma dec_single_char_loop_frame chars code f o :
  ∃ code' f',
    Decipher.single_char_loop chars code (Decipher.set_decipher_flags f o)
    = (code', Decipher.set_decipher_flags f' o) ∧
    flag f' 1 = flag f 1.
Proof.
  revert code f. induction chars as [|c chars IH]; intros code f.
  - by exists code, f.
  - cbn [Decipher.single_char_loop].
    repeat match goal with
           | |- context [if Ascii.eqb c ?x then _ else _] =>
               destruct (Ascii.eqb c x)
           end;
      rewrite !dec_set_flag_flags;
      match goal with
      | |- context [Decipher.single_char_loop chars ?code1
                      (Decipher.set_decipher_flags ?f1 o)] =>
          destruct (IH code1 f1) as (code' & f' & Heq & H1)
      end;
      exists code', f'; (split; [exact Heq|]);
      rewrite H1, ?flag_flag_set, ?flag_flag_reset by lia; simpl;
      by rewrite ?andb_true_r.
Qed.

Lemma dec_single_char_loop_app pre chars code o :
  Decipher.single_char_loop (pre ++ chars) code o
  = Decipher.single_char_loop chars
      (Decipher.single_char_loop pre code o).1
      (Decipher.single_char_loop pre code o).2.
Proof.
  revert code o. induction pre as [|c pre IH]; intros code o; [done|].
  change (String c pre ++ chars) with (String c (pre ++ chars)).
  cbn [Decipher.single_char_loop].
  repeat match goal with
         | |- context [if Ascii.eqb c ?x then _ else _] =>
             destruct (Ascii.eqb c x)
         end; apply IH.
Qed.

(** On switches only, the loop keeps the code it was entered with. *)
Lemma dec_single_char_loop_switches chars code f o :
  string_forallb flag_char chars = true →
  ∃ f', Decipher.single_char_loop chars code (Decipher.set_decipher_flags f o)
        = (code, Decipher.set_decipher_flags f' o) ∧
        flag f' 1 = flag f 1.
Proof.
  revert f. induction chars as [|c chars IH]; intros f Hc.
  - by exists f.
  - simpl in Hc. apply andb_true_iff in Hc as [Hc Hcs].
    unfold flag_char in Hc. rewrite !orb_true_iff, !Ascii.eqb_eq in Hc.
    cbn [Decipher.single_char_loop].
    destruct Hc as [[[->| ->]| ->]| ->]; simpl Ascii.eqb; cbv iota;
      rewrite !dec_set_flag_flags;
      match goal with
      | |- context [Decipher.single_char_loop chars code
                      (Decipher.set_decipher_flags ?f1 o)] =>
          destruct (IH f1 Hcs) as (f' & Heq & H1)
      end;
      exists f'; (split; [exact Heq|]);
      by rewrite H1, ?flag_flag_set by lia.
Qed.

(** Once the code is [CMDLN_USER_ERROR], characters other than [h] leave it
    so, and a flag is on afterwards only if it was on or one of these
    characters sets it. *)
Lemma dec_single_char_loop_error chars f o :
  string_existsb is_h chars = false →
  ∃ f', Decipher.single_char_loop chars Decipher.CMDLN_USER_ERROR
          (Decipher.set_decipher_flags f o)
        = (Decipher.CMDLN_USER_ERROR, Decipher.set_decipher_flags f' o) ∧
        flag f' 1 = flag f 1 ∧
        (flag f' 0 = true → flag f 0 = true) ∧
        (flag f' 2 = true →
         flag f 2 = true ∨ string_existsb sets_digits chars = true) ∧
        (flag f' 3 = true →
         flag f 3 = true ∨ string_existsb sets_puncts chars = true) ∧
        (flag f' 7 = true →
         flag f 7 = true ∨ string_existsb sets_log chars = true).
Proof.
  revert f. induction chars as [|c chars IH]; intros f Hh.
  - exists f. by repeat split; auto.
  - simpl in Hh. apply orb_false_iff in Hh as [Hc Hh]. unfold is_h in Hc.
    cbn [Decipher.single_char_loop string_existsb].
    unfold sets_digits, sets_puncts, sets_log. rewrite Hc.
    destruct (Ascii.eqb c "a") eqn:Ea; [|destruct (Ascii.eqb c "n") eqn:En;
      [|destruct (Ascii.eqb c "p") eqn:Ep; [|destruct (Ascii.eqb c "l") eqn:El]]];
      rewrite !dec_set_flag_flags;
      match goal with
      | |- context [Decipher.single_char_loop chars _
                      (Decipher.set_decipher_flags ?f1 o)] =>
          destruct (IH f1 Hh) as (f' & Heq & H1 & H0 & H2 & H3 & H7)
      end;
      exists f'; (split; [exact Heq|]);
      flag_simpl H1; flag_simpl H0; flag_simpl H2; flag_simpl H3; flag_simpl H7;
      unfold sets_digits, sets_puncts, sets_log in H2, H3, H7;
      cbn [orb]; rewrite ?orb_true_iff; repeat split; try done;
      intuition discriminate.
Qed.

Lemma dec_parse_deque_single tok rest pr o :
  exact_option tok = false →
  Decipher.parse_deque (tok :: rest) pr o =
  match (Decipher.parseSingleCharOptions tok o).1 with
  | Decipher.CMDLN_USER_ERROR =>
      Throws (invalid_argument (Decipher.ia_errmsg tok))
             (Decipher.parseSingleCharOptions tok o).2
  | Decipher.CMDLN_OK =>
      Decipher.parse_deque rest Decipher.CMDLN_OK
        (Decipher.parseSingleCharOptions tok o).2
  | code => Returns code (Decipher.parseSingleCharOptions tok o).2
  end.
Proof.
  unfold exact_option. rewrite !orb_false_iff.
  intros (((((((((((H1 & H2) & H3) & H4) & H5) & H6) & H7) & H8) & H9) & H10)
            & H11) & H12).
  cbn [Decipher.parse_deque].
  rewrite H1, H2, H3, H4, H5, H6, H8, H9, H10, H11, H12. cbn [orb].
  by destruct (Decipher.parseSingleCharOptions tok o) as [[] o'].
Qed.

Lemma dec_parseSingleCharOptions_dash body o :
  string_forallb (λ x, negb (is_dash x)) body = true →
  Decipher.parseSingleCharOptions (String "-" body) o
  = Decipher.single_char_loop body Decipher.CMDLN_OK o.
Proof.
  intros Hd. unfold Decipher.parseSingleCharOptions.
  by rewrite find_last_of_leading_dash.
Qed.

(** A combined token with an unrecognized character [c] and no [h] after
    it: the exception names the token; flag 0 is off; flags 2, 3 and 7 are
    on only if a character after [c] sets them; nothing else changes. *)
Lemma dec_parse_deque_bad_char pre c suf rest pr o :
  recognized c = false →
  string_forallb (λ x, negb (is_dash x)) (pre ++ String c suf) = true →
  (2 <= String.length (pre ++ String c suf))%nat →
  string_existsb is_h suf = false →
  ∃ f',
    Decipher.parse_deque (String "-" (pre ++ String c suf) :: rest) pr o
    = Throws (invalid_argument
                (Decipher.ia_errmsg (String "-" (pre ++ String c suf))))
             (Decipher.set_decipher_flags f' o) ∧
    flag f' 0 = false ∧
    flag f' 1 = flag (Decipher.decipher_flags o) 1 ∧
    (flag f' 2 = true → string_existsb sets_digits suf = true) ∧
    (flag f' 3 = true → string_existsb sets_puncts suf = true) ∧
    (flag f' 7 = true → string_existsb sets_log suf = true).
Proof.
  intros Hc Hdash Hlen Hh.
  rewrite dec_parse_deque_single by by apply combined_not_exact_option.
  rewrite dec_parseSingleCharOptions_dash by done.
  rewrite dec_single_char_loop_app.
  destruct (dec_single_char_loop_frame pre Decipher.CMDLN_OK
              (Decipher.decipher_flags o) o) as (code1 & f1 & Heq & Hf1).
  rewrite dec_set_decipher_flags_id in Heq. rewrite Heq.
  cbn [fst snd Decipher.single_char_loop].
  unfold recognized in Hc. rewrite !orb_false_iff in Hc.
  destruct Hc as ((((-> & ->) & ->) & ->) & ->).
  rewrite !dec_set_flag_flags.
  destruct (dec_single_char_loop_error suf
              (flag_reset 0 (flag_reset 7 (flag_reset 3 (flag_reset 2 f1)))) o Hh)
    as (f' & -> & H1 & H0 & H2 & H3 & H7).
  cbn [fst snd]. exists f'. split; [done|].
  destruct (dec_cleared_flags f1) as (C0 & C2 & C3 & C7 & C1).
  unfold dec_cleared in *. rewrite C0 in H0. rewrite C2 in H2.
  rewrite C3 in H3. rewrite C7 in H7. rewrite C1 in H1.
  repeat split.
  - destruct (flag f' 0); [by specialize (H0 eq_refl)|done].
  - congruence.
  - intros H. by destruct (H2 H).
  - intros H. by destruct (H3 H).
  - intros H. by destruct (H7 H).
Qed.

(** A dash followed by switches only changes flags other than flag 1. *)
Lemma dec_parse_deque_flags body rest pr o :
  string_forallb flag_char body = true →
  ∃ f', Decipher.parse_deque (String "-" body :: rest) pr o
        = Decipher.parse_deque rest Decipher.CMDLN_OK
            (Decipher.set_decipher_flags f' o) ∧
        flag f' 1 = flag (Decipher.decipher_flags o) 1.
Proof.
  intros Hb. destruct (flag_char_facts body Hb) as (Hr & Hh & Hd).
  rewrite dec_parse_deque_single by by apply flags_not_exact_option.
  rewrite dec_parseSingleCharOptions_dash by done.
  destruct (dec_single_char_loop_switches body Decipher.CMDLN_OK
              (Decipher.decipher_flags o) o Hb) as (f' & Heq & H1).
  rewrite dec_set_decipher_flags_id in Heq. rewrite Heq.
  by exists f'.
Qed.

(** The decipher loop on a well-formed beginning of the command line. *)
Lemma dec_parse_items items more :
  forallb item_ok items = true →
  ∀ o, ∃ o',
    Decipher.parse_deque (render items ++ more) Decipher.CMDLN_OK o
    = Decipher.parse_deque more Decipher.CMDLN_OK o' ∧
    Decipher.infilename o' = last_ifile items (Decipher.infilename o) ∧
    Decipher.outfilename o' = last_ofile items (Decipher.outfilename o) ∧
    Decipher.orig_shift_len o' = last_shift items (Decipher.orig_shift_len o) ∧
    Decipher.prog_name_stripped o' = Decipher.prog_name_stripped o.
Proof.
  induction items as [|it items IH]; intros Hok o.
  - exists o. by repeat split.
  - simpl in Hok. apply andb_true_iff in Hok as [Hit Hok].
    specialize (IH Hok). unfold render. simpl flat_map. fold (render items).
    rewrite <- app_assoc.
    destruct it as [long path|long path|long text|tok]; cbn [render_item app].
    + destruct long; cbn [Decipher.parse_deque]; simpl;
        exact (IH (Decipher.set_infilename path o)).
    + destruct long; cbn [Decipher.parse_deque]; simpl;
        exact (IH (Decipher.set_flag 1 false (Decipher.set_outfilename path o))).
    + simpl in Hit. destruct (stoi text) as [e|n] eqn:Hs; [done|].
      destruct long; cbn [Decipher.parse_deque]; simpl; rewrite Hs;
        exact (IH (Decipher.set_orig_shift_len n o)).
    + simpl in Hit.
      apply switch_token_cases in Hit as [->|[->|[->|(body & -> & Hb)]]].
      { exact (IH (Decipher.set_flag 3 true o)). }
      { exact (IH (Decipher.set_flag 3 true (Decipher.set_flag 2 true o))). }
      { exact (IH (Decipher.set_flag 7 true o)). }
      destruct (dec_parse_deque_flags body (render items ++ more)
                  Decipher.CMDLN_OK o Hb) as (f' & -> & _).
      exact (IH (Decipher.set_decipher_flags f' o)).
Qed.

Lemma dec_parseCommandLine_options progname opts :
  opts ≠ [] →
  Decipher.parseCommandLine (progname :: opts) Decipher.cmdopts0
  = Decipher.parse_deque opts Decipher.CMDLN_OK
      (Decipher.set_prog_name_stripped (path_filename progname)
         (Decipher.set_program_name progname Decipher.cmdopts0)).
Proof. by destruct opts. Qed.

(** ** Parsing in the second decipher source *)

Lemma decvec_valid_singlechr_opts_recognized c :
  bool_decide (c ∈ DecipherVec.valid_singlechr_opts) = recognized c.
Proof.
  assert (c ∈ DecipherVec.valid_singlechr_opts ↔ recognized c = true) as H.
  { unfold DecipherVec.valid_singlechr_opts, recognized.
    rewrite !elem_of_union, !elem_of_singleton, !orb_true_iff, !Ascii.eqb_eq.
    tauto. }
  destruct (recognized c).
  - apply bool_decide_eq_true. by apply H.
  - apply bool_decide_eq_false. intros Hc. by apply H in Hc.
Qed.

Lemma decvec_with_flags_id o :
  decvec_with_flags (DecipherVec.dec_numbers o) (DecipherVec.dec_puncts o)
    (DecipherVec.display_log_info o) o = o.
Proof. by destruct o. Qed.

(** The loop over single-character options, on a run of recognized
    characters: each sets its switch, [h] prints the help and ends the
    parsing after this argument. *)
Lemma decvec_single_char_options_recognized tok pre chars pr ae n p l o w :
  string_forallb recognized pre = true →
  DecipherVec.single_char_options tok (pre ++ chars) pr ae (decvec_with_flags n p l o) w
  = DecipherVec.single_char_options tok chars
      (if string_existsb is_h pre then 1 else pr)
      (ae || string_existsb is_h pre)
      (decvec_with_flags (n || string_existsb sets_digits pre)
                      (p || string_existsb sets_puncts pre)
                      (l || string_existsb sets_log pre) o)
      (print_all (help_prints (DecipherVec.prog_name_stripped o) pre) w).
Proof.
  revert pr ae n p l w.
  induction pre as [|c pre IH]; intros pr ae n p l w Hpre.
  - simpl. by rewrite print_all_nil, !orb_false_r.
  - simpl in Hpre. apply andb_true_iff in Hpre as [Hc Hpre].
    change (String c pre ++ chars) with (String c (pre ++ chars)).
    cbn [DecipherVec.single_char_options].
    rewrite decvec_valid_singlechr_opts_recognized, Hc.
    apply recognized_cases in Hc as [->|[->|[->|[->| ->]]]]; cbn [Ascii.eqb];
      simpl Ascii.eqb; cbv iota;
      [ change (DecipherVec.set_dec_puncts true
                  (DecipherVec.set_dec_numbers true (decvec_with_flags n p l o)))
          with (decvec_with_flags true true l o)
      | change (DecipherVec.set_dec_numbers true (decvec_with_flags n p l o))
          with (decvec_with_flags true p l o)
      | change (DecipherVec.set_dec_puncts true (decvec_with_flags n p l o))
          with (decvec_with_flags n true l o)
      | change (DecipherVec.set_display_log_info true (decvec_with_flags n p l o))
          with (decvec_with_flags n p true o)
      | change (DecipherVec.prog_name_stripped (decvec_with_flags n p l o))
          with (DecipherVec.prog_name_stripped o) ];
      rewrite IH by done; simpl; rewrite ?print_all_print, ?orb_true_r;
      try done.
  by destruct (string_existsb is_h pre).
Qed.

(** An argument that is none of the options compared as a whole and has its
    only dash in front is taken for single-character options. *)
Lemma decvec_parse_options_single tok rest pr o w :
  exact_option tok = false → find_last_of tok "-" = 0 →
  DecipherVec.parse_options (tok :: rest) pr o w =
  match DecipherVec.single_char_options tok (string_rest tok) pr false o w with
  | Returns (pr', at_end) (o', w') =>
      if at_end then Returns pr' (o', w')
      else DecipherVec.parse_options rest pr' o' w'
  | Throws e s => Throws e s
  | Undefined => Undefined
  end.
Proof.
  unfold exact_option. rewrite !orb_false_iff.
  intros (((((((((((H1 & H2) & H3) & H4) & H5) & H6) & H7) & H8) & H9) & H10)
            & H11) & H12) Hd.
  cbn [DecipherVec.parse_options].
  by rewrite H1, H2, H3, H4, H5, H6, H7, H9, H10, H11, H12, Hd.
Qed.


(** A dash followed by switches only sets these switches. *)
Lemma decvec_parse_options_flags body rest pr o w :
  string_forallb flag_char body = true →
  DecipherVec.parse_options (String "-" body :: rest) pr o w
  = DecipherVec.parse_options rest pr
      (decvec_with_flags
         (DecipherVec.dec_numbers o || string_existsb sets_digits body)
         (DecipherVec.dec_puncts o || string_existsb sets_puncts body)
         (DecipherVec.display_log_info o || string_existsb sets_log body) o) w.
Proof.
  intros Hb. destruct (flag_char_facts body Hb) as (Hr & Hh & Hd).
  rewrite decvec_parse_options_single
    by (by apply flags_not_exact_option || by apply find_last_of_leading_dash).
  cbn [string_rest]. rewrite <- (decvec_with_flags_id o) at 1.
  rewrite <- (append_empty_r body) at 2.
  rewrite decvec_single_char_options_recognized by done.
  rewrite Hh, help_prints_no_h by done.
  cbn [DecipherVec.single_char_options orb]. by rewrite print_all_nil.
Qed.

(** The loop of the second decipher source on a well-formed beginning of
    the command line: it goes on with what follows, the values of the last
    occurrences stored. *)
Lemma decvec_parse_items items more :
  forallb item_ok items = true →
  ∀ pr o w, ∃ o',
    DecipherVec.parse_options (render items ++ more) pr o w
    = DecipherVec.parse_options more pr o' w ∧
    DecipherVec.infilename o' = last_ifile items (DecipherVec.infilename o) ∧
    DecipherVec.outfilename o' = last_ofile items (DecipherVec.outfilename o) ∧
    DecipherVec.orig_shift_len o' = last_shift items (DecipherVec.orig_shift_len o) ∧
    DecipherVec.prog_name_stripped o' = DecipherVec.prog_name_stripped o.
Proof.
  induction items as [|it items IH]; intros Hok pr o w.
  - exists o. by repeat split.
  - simpl in Hok. apply andb_true_iff in Hok as [Hit Hok].
    specialize (IH Hok). unfold render. simpl flat_map. fold (render items).
    rewrite <- app_assoc.
    destruct it as [long path|long path|long text|tok]; cbn [render_item app].
    + destruct long; cbn [DecipherVec.parse_options]; simpl;
        exact (IH pr (DecipherVec.set_infilename path o) w).
    + destruct long; cbn [DecipherVec.parse_options]; simpl;
        exact (IH pr (DecipherVec.set_use_default_oname false
                        (DecipherVec.set_outfilename path o)) w).
    + simpl in Hit. destruct (stoi text) as [e|n] eqn:Hs; [done|].
      destruct long; cbn [DecipherVec.parse_options]; simpl; rewrite Hs;
        exact (IH pr (DecipherVec.set_orig_shift_len n o) w).
    + simpl in Hit.
      apply switch_token_cases in Hit as [->|[->|[->|(body & -> & Hb)]]].
      { exact (IH pr (DecipherVec.set_dec_puncts true o) w). }
      { exact (IH pr (DecipherVec.set_dec_puncts true
                        (DecipherVec.set_dec_numbers true o)) w). }
      { exact (IH pr (DecipherVec.set_display_log_info true o) w). }
      rewrite decvec_parse_options_flags by done.
      exact (IH pr (decvec_with_flags
                      (DecipherVec.dec_numbers o || string_existsb sets_digits body)
                      (DecipherVec.dec_puncts o || string_existsb sets_puncts body)
                      (DecipherVec.display_log_info o || string_existsb sets_log body)
                      o) w).
Qed.

Lemma decvec_parseCommandLine_options progname opts w :
  opts ≠ [] →
  DecipherVec.parseCommandLine (progname :: opts) DecipherVec.cmdopts0 w
  = DecipherVec.parse_options opts 0
      (DecipherVec.set_prog_name_stripped (path_filename progname)
         (DecipherVec.set_program_name progname DecipherVec.cmdopts0)) w.
Proof. by destruct opts. Qed.

(** ** The claims about the command line *)

Lemma render_nonempty items : items ≠ [] → render items ≠ [].
Proof. destruct items as [|[] items]; done. Qed.

Lemma render_app_cons_nonempty items (tok : string) rest :
  (render items ++ tok :: rest)%list ≠ [].
Proof. by destruct (render items). Qed.

Lemma value_option_cases opt :
  value_option opt = true →
  opt = "-i" ∨ opt = "--ifile" ∨ opt = "-o" ∨ opt = "--ofile" ∨
  opt = "-s" ∨ opt = "--shift-amount".
Proof.
  unfold value_option. rewrite !orb_true_iff, !String.eqb_eq. tauto.
Qed.

(** C10: a command line of well-formed options, in which the options with
    a value may occur any number of times, is parsed without an error and
    without anything printed, and the options hold the value of the last
    occurrence of each (the initial value when there is none), in the three
    parsers. *)
Theorem repeated_value_options_last_wins
    (progname : string) (items : list cmd_item) (w : world) :
  items ≠ [] → forallb item_ok items = true →
  (∃ o, Encipher.parseCommandLine (progname :: render items) Encipher.cmdopts0 w
        = Returns 0 (o, w) ∧
        Encipher.infilename o = last_ifile items "" ∧
        Encipher.outfilename o = last_ofile items "" ∧
        Encipher.shift_amount o = last_shift items 5) ∧
  (∃ o, Decipher.parseCommandLine (progname :: render items) Decipher.cmdopts0
        = Returns Decipher.CMDLN_OK o ∧
        Decipher.infilename o = last_ifile items "" ∧
        Decipher.outfilename o = last_ofile items "" ∧
        Decipher.orig_shift_len o = last_shift items 5) ∧
  (∃ o, DecipherVec.parseCommandLine (progname :: render items)
          DecipherVec.cmdopts0 w
        = Returns 0 (o, w) ∧
        DecipherVec.infilename o = last_ifile items "" ∧
        DecipherVec.outfilename o = last_ofile items "" ∧
        DecipherVec.orig_shift_len o = last_shift items 5).
Proof.
  intros Hne Hok. apply render_nonempty in Hne as Hr.
  rewrite enc_parseCommandLine_options, dec_parseCommandLine_options,
    decvec_parseCommandLine_options by done.
  rewrite <- (app_nil_r (render items)).
  repeat split.
  - edestruct (enc_parse_items items [] Hok) as (o & -> & Hi & Ho & Hs & _).
    exists o. repeat split; [exact Hi|exact Ho|exact Hs].
  - edestruct (dec_parse_items items [] Hok) as (o & -> & Hi & Ho & Hs & _).
    exists o. repeat split; [exact Hi|exact Ho|exact Hs].
  - edestruct (decvec_parse_items items [] Hok) as (o & -> & Hi & Ho & Hs & _).
    exists o. repeat split; [exact Hi|exact Ho|exact Hs].
Qed.

Lemma repeated_value_options_last_wins_witness :
  repeated_items ≠ [] ∧ forallb item_ok repeated_items = true ∧
  (∃ o, Encipher.parseCommandLine ("enc" :: render repeated_items)
          Encipher.cmdopts0 (mkWorld ∅ ∅ [])
        = Returns 0 (o, mkWorld ∅ ∅ []) ∧
        Encipher.infilename o = last_ifile repeated_items "" ∧
        Encipher.outfilename o = last_ofile repeated_items "" ∧
        Encipher.shift_amount o = last_shift repeated_items 5) ∧
  (∃ o, Decipher.parseCommandLine ("enc" :: render repeated_items)
          Decipher.cmdopts0
        = Returns Decipher.CMDLN_OK o ∧
        Decipher.infilename o = last_ifile repeated_items "" ∧
        Decipher.outfilename o = last_ofile repeated_items "" ∧
        Decipher.orig_shift_len o = last_shift repeated_items 5) ∧
  (∃ o, DecipherVec.parseCommandLine ("enc" :: render repeated_items)
          DecipherVec.cmdopts0 (mkWorld ∅ ∅ [])
        = Returns 0 (o, mkWorld ∅ ∅ []) ∧
        DecipherVec.infilename o = last_ifile repeated_items "" ∧
        DecipherVec.outfilename o = last_ofile repeated_items "" ∧
        DecipherVec.orig_shift_len o = last_shift repeated_items 5).
Proof.
  split; [done|]. split; [reflexivity|].
  apply (repeated_value_options_last_wins "enc" repeated_items (mkWorld ∅ ∅ [])).
  - done.
  - reflexivity.
Defined.

(** The values of the example: the last input file, output file and shift. *)
Example repeated_items_values :
  last_ifile repeated_items "" = "c.txt" ∧
  last_ofile repeated_items "" = "y.out" ∧
  last_shift repeated_items 5 = -80.
Proof. done. Qed.








Section BadToken.

Variables (progname : string) (earlier : list string).
Variables (pre : string) (c : ascii) (suf : string) (rest : list string).
Hypothesis c_unrecognized : recognized c = false.
Hypothesis no_dash :
  string_forallb (λ x, negb (is_dash x)) (pre ++ String c suf) = true.
Hypothesis combined : (2 <= String.length (pre ++ String c suf))%nat.

Local Abbreviation tok := (String "-" (pre ++ String c suf)).
Local Abbreviation args := (progname :: (earlier ++ tok :: rest)%list).




End BadToken.

(** An exception of the parser ends the run in the handlers of [main]. *)
Lemma enc_main_throws args w e o w' :
  Encipher.parseCommandLine args Encipher.cmdopts0 w = Throws e (o, w') →
  Encipher.main args w = Encipher.handle e w'.
Proof. intros H. unfold Encipher.main. by rewrite H. Qed.

Lemma decvec_main_throws args w e o w' :
  DecipherVec.parseCommandLine args DecipherVec.cmdopts0 w = Throws e (o, w') →
  DecipherVec.main args w = DecipherVec.handle e w'.
Proof. intros H. unfold DecipherVec.main. by rewrite H. Qed.




(** C7: an option that takes a value is the last token, after well-formed
    options.  The parsers that index the argument vector throw
    [std::out_of_range] from [at] and the run ends with status 1, no file
    touched.  The decipher program pops the option and calls [front()] on
    the deque, which is then empty: its behaviour is undefined. *)
Theorem missing_value_after_option
    (progname : string) (items : list cmd_item) (opt : string) (w : world) :
  forallb item_ok items = true → value_option opt = true →
  let args := progname :: (render items ++ [opt])%list in
  Decipher.parseCommandLine args Decipher.cmdopts0 = Undefined ∧
  Decipher.main args w = UndefinedBehaviour ∧
  (∃ o, Encipher.parseCommandLine args Encipher.cmdopts0 w
        = Throws (out_of_range vector_at_what) (o, w)) ∧
  Encipher.main args w = Exit 1 (print PrintUnexpected w) ∧
  (∃ o, DecipherVec.parseCommandLine args DecipherVec.cmdopts0 w
        = Throws (out_of_range vector_at_what) (o, w)) ∧
  DecipherVec.main args w
  = Exit 1 (print (PrintWhat (out_of_range vector_at_what)) w).
Proof.
  intros Hok Hopt args.
  assert (Decipher.parseCommandLine args Decipher.cmdopts0 = Undefined) as Hd.
  { unfold args.
    rewrite dec_parseCommandLine_options by apply render_app_cons_nonempty.
    edestruct (dec_parse_items items [opt] Hok) as (o' & -> & _).
    by apply value_option_cases in Hopt as [->|[->|[->|[->|[->| ->]]]]]. }
  assert (∃ o, Encipher.parseCommandLine args Encipher.cmdopts0 w
               = Throws (out_of_range vector_at_what) (o, w)) as [oe He].
  { unfold args.
    rewrite enc_parseCommandLine_options by apply render_app_cons_nonempty.
    edestruct (enc_parse_items items [opt] Hok) as (o' & -> & _).
    exists o'.
    by apply value_option_cases in Hopt as [->|[->|[->|[->|[->| ->]]]]]. }
  assert (∃ o, DecipherVec.parseCommandLine args DecipherVec.cmdopts0 w
               = Throws (out_of_range vector_at_what) (o, w)) as [ov Hv].
  { unfold args.
    rewrite decvec_parseCommandLine_options by apply render_app_cons_nonempty.
    edestruct (decvec_parse_items items [opt] Hok) as (o' & -> & _).
    exists o'.
    by apply value_option_cases in Hopt as [->|[->|[->|[->|[->| ->]]]]]. }
  split; [exact Hd|]. split; [unfold Decipher.main; by rewrite Hd|].
  split; [by exists oe|]. split; [exact (enc_main_throws _ _ _ _ _ He)|].
  split; [by exists ov|]. exact (decvec_main_throws _ _ _ _ _ Hv).
Qed.

Lemma missing_value_after_option_witness :
  forallb item_ok [ItemSwitch "-n"; ItemShift true "12"] = true ∧
  value_option "-i" = true ∧
  let args := "dec" :: (render [ItemSwitch "-n"; ItemShift true "12"] ++ ["-i"])%list in
  let w := mkWorld {[ "f" := "abc" ]} ∅ [] in
  Decipher.parseCommandLine args Decipher.cmdopts0 = Undefined ∧
  Decipher.main args w = UndefinedBehaviour ∧
  (∃ o, Encipher.parseCommandLine args Encipher.cmdopts0 w
        = Throws (out_of_range vector_at_what) (o, w)) ∧
  Encipher.main args w = Exit 1 (print PrintUnexpected w) ∧
  (∃ o, DecipherVec.parseCommandLine args DecipherVec.cmdopts0 w
        = Throws (out_of_range vector_at_what) (o, w)) ∧
  DecipherVec.main args w
  = Exit 1 (print (PrintWhat (out_of_range vector_at_what)) w).
Proof.
  split; [reflexivity|]. split; [reflexivity|].
  apply (missing_value_after_option "dec"
           [ItemSwitch "-n"; ItemShift true "12"] "-i"
           (mkWorld {[ "f" := "abc" ]} ∅ [])); reflexivity.
Defined.

(** C9: in the decipher program the token [-hxh] ends in the help display
    and status 0, because the [h] after the unrecognized [x] replaces the
    error code; [-hx] ends in the error.  The parsers that index the
    argument vector throw at the [x], after the help has been printed. *)
Theorem help_after_unrecognized_character (w : world) :
  (∃ o, Decipher.parseCommandLine ["dec"; "-hxh"] Decipher.cmdopts0
        = Returns Decipher.CMDLN_HELP_REQ o) ∧
  Decipher.main ["dec"; "-hxh"] w = Exit 0 (print (PrintHelp "dec") w) ∧
  Decipher.main ["dec"; "-hx"] w
  = Exit 1 (print (PrintWhat (invalid_argument (Decipher.ia_errmsg "-hx"))) w) ∧
  Encipher.main ["enc"; "-hxh"] w
  = Exit 1 (print (PrintWhat (invalid_argument (Encipher.sco_errmsg "x" "-hxh")))
              (print (PrintHelp "enc") w)) ∧
  DecipherVec.main ["dec"; "-hxh"] w
  = Exit 1 (print (PrintWhat (invalid_argument (DecipherVec.sco_errmsg "x" "-hxh")))
              (print (PrintHelp "dec") w)).
Proof. repeat split; try reflexivity. by eexists. Qed.

(** ** Further facts about the programs *)

(** Scanning after an [h], in the parsers that index the argument
    vector: an unrecognized character after an [h] throws, the help already
    printed. *)
Lemma enc_unrecognized_after_help pre c suf rest pr o w :
  string_forallb recognized pre = true → string_existsb is_h pre = true →
  recognized c = false →
  string_forallb (λ x, negb (is_dash x)) (pre ++ String c suf) = true →
  (2 <= String.length (pre ++ String c suf))%nat →
  ∃ o' w',
    Encipher.parse_options (String "-" (pre ++ String c suf) :: rest) pr o w
    = Throws (invalid_argument
                (Encipher.sco_errmsg c (String "-" (pre ++ String c suf))))
             (o', w') ∧
    PrintHelp (Encipher.prog_name_stripped o) ∈ console w'.
Proof.
  intros Hpre Hh Hc Hd Hlen. rewrite enc_parse_options_bad_char by done.
  eexists _, _. split; [reflexivity|]. simpl. apply elem_of_app. right.
  clear -Hh. induction pre as [|x pre IH]; [done|]. simpl in *.
  destruct (is_h x); [apply list_elem_of_here|]. by apply IH.
Qed.

(** In the decipher program the same holds when no [h] follows the
    unrecognized character. *)
Lemma dec_unrecognized_after_help pre c suf rest pr o :
  recognized c = false →
  string_forallb (λ x, negb (is_dash x)) (pre ++ String c suf) = true →
  (2 <= String.length (pre ++ String c suf))%nat →
  string_existsb is_h suf = false →
  ∃ o',
    Decipher.parse_deque (String "-" (pre ++ String c suf) :: rest) pr o
    = Throws (invalid_argument
                (Decipher.ia_errmsg (String "-" (pre ++ String c suf)))) o'.
Proof.
  intros Hc Hd Hlen Hh.
  destruct (dec_parse_deque_bad_char pre c suf rest pr o Hc Hd Hlen Hh)
    as (f' & -> & _). by eexists.
Qed.

(** [generateCipherDict] returns for every state of the options. *)
Lemma enc_generateCipherDict_total o :
  is_Some (Encipher.generateCipherDict o).
Proof.
  unfold Encipher.generateCipherDict.
  rewrite (calculateEffectiveShift_mod 26) by done. simpl.
  destruct (Encipher.enc_numbers o); simpl;
    rewrite ?(calculateEffectiveShift_mod (Z.of_nat 10)) by done; simpl;
    (destruct (Encipher.enc_puncts o); simpl;
     rewrite ?(calculateEffectiveShift_mod (Z.of_nat 32)) by done; simpl);
    exact (mk_is_Some _ _ eq_refl).
Qed.

Lemma dec_generateCipherDict_total o :
  is_Some (Decipher.generateCipherDict o).
Proof.
  unfold Decipher.generateCipherDict.
  rewrite (calcReducedShift_mod 26) by done. simpl.
  destruct (flag (Decipher.decipher_flags o) 2); simpl;
    rewrite ?(calcReducedShift_mod (Z.of_nat 10)) by done; simpl;
    (destruct (flag (Decipher.decipher_flags o) 3); simpl;
     rewrite ?(calcReducedShift_mod (Z.of_nat 32)) by done; simpl);
    exact (mk_is_Some _ _ eq_refl).
Qed.

(** The text written for a file is the transformed lines, each followed by
    a newline, and the count is the number of characters of the lines. *)
Lemma transform_lines_written dict lines :
  (transform_lines dict lines).1
  = String.concat "" (map (λ l, transform_line dict l ++ nl) lines) ∧
  (transform_lines dict lines).2
  = Z.of_nat (sum_list (map String.length lines)).
Proof.
  induction lines as [|l lines [IH1 IH2]]; [done|].
  cbn [transform_lines map sum_list]. fold (sum_list (map String.length lines)).
  destruct (transform_lines dict lines) as [written count]. simpl in *.
  subst. split; [|lia].
  destruct lines as [|l' lines]; [by rewrite !append_empty_r|].
  by rewrite append_assoc.
Qed.

(** Opening a stream, writing a file and printing leave the names of the
    files as they are; a file other than the one written is as before. *)
Lemma resolve_print e w path : resolve (print e w) path = resolve w path.
Proof. done. Qed.

Lemma resolve_write_file p content w path :
  resolve (write_file p content w) path = resolve w path.
Proof. done. Qed.

Lemma open_ofstream_opened path w :
  can_open_for_writing path w = true →
  open_ofstream path w
  = (true, mkFileSystem (<[resolve w path := ""]> (files w))
             (unwritable w) (console w) (links w)).
Proof. unfold open_ofstream. by intros ->. Qed.

Lemma file_at_truncated_other path p w u c :
  resolve w path ≠ resolve w p →
  file_at (mkFileSystem (<[resolve w path := ""]> (files w)) u c (links w)) p
  = file_at w p.
Proof. intros Hne. unfold file_at. cbn. by apply lookup_insert_ne. Qed.

Lemma file_at_truncated_same path p w u c :
  resolve w path = resolve w p →
  file_at (mkFileSystem (<[resolve w path := ""]> (files w)) u c (links w)) p
  = Some "".
Proof.
  intros He. unfold file_at.
  change (resolve (mkFileSystem _ u c (links w)) p) with (resolve w p).
  cbn [files]. rewrite <- He. apply lookup_insert_eq.
Qed.

(** What [encipherFileText] writes: when the input file exists and the
    output path resolves to another file that can be opened, that file holds
    the transformed lines and nothing else changes in the file system. *)
Lemma enc_encipherFileText_writes o w content :
  let fulloname :=
    if Encipher.use_default_oname o then Encipher.infilename o ++ ".ciph"
    else Encipher.outfilename o in
  file_at w (Encipher.infilename o) = Some content →
  can_open_for_writing fulloname w = true →
  resolve w fulloname ≠ resolve w (Encipher.infilename o) →
  ∃ o' w',
    Encipher.encipherFileText o w = Returns tt (o', w') ∧
    files w'
    = <[resolve w fulloname :=
          (transform_lines (Encipher.cipher_dict o) (getlines content "" false)).1]>
        (files w) ∧
    unwritable w' = unwritable w ∧ links w' = links w ∧
    Encipher.nbytes_file o'
    = Encipher.nbytes_file o
      + (transform_lines (Encipher.cipher_dict o) (getlines content "" false)).2.
Proof.
  intros fulloname Hin Hopen Hne. unfold Encipher.encipherFileText.
  rewrite Hin. fold fulloname. rewrite open_ofstream_opened by done.
  rewrite file_at_truncated_other by done. rewrite Hin.
  change (default "" (Some content)) with content.
  destruct (transform_lines (Encipher.cipher_dict o) (getlines content "" false))
    as [written count].
  eexists _, _. split; [reflexivity|].
  destruct (negb (Encipher.display_log_info _));
    cbn [files unwritable links print write_file fst snd
         Encipher.nbytes_file Encipher.set_nbytes_file];
    change (resolve (mkFileSystem _ _ _ (links w)) fulloname)
      with (resolve w fulloname);
    by rewrite insert_insert_eq.
Qed.

(** The second decipher source builds the dictionary of the first. *)
Lemma decvec_table_decipher_table k nums puncts :
  decvec_table k nums puncts = decipher_table k nums puncts.
Proof.
  rewrite decipher_table_eq.
  unfold decvec_table, DecipherVec.generateCipherDict, class_rotation.
  rewrite (calcReducedShift_mod 26) by done. simpl.
  destruct nums, puncts; simpl;
    rewrite ?(calcReducedShift_mod (Z.of_nat 10)) by done; simpl;
    rewrite ?(calcReducedShift_mod (Z.of_nat 32)) by done; done.
Qed.

(** The scenarios of the specification: shift 5 on letters only, and back;
    shift -3; digits with their own modulus. *)
Example scenario_hello :
  (λ d, transform_line d "Hello, World!") <$> encipher_table 5 false false
  = Some "Mjqqt, Btwqi!" ∧
  (λ d, transform_line d "Mjqqt, Btwqi!") <$> decipher_table 5 false false
  = Some "Hello, World!" ∧
  (λ d, transform_line d "abc") <$> encipher_table (-3) false false
  = Some "xyz" ∧
  (λ d, transform_line d "Room 101") <$> encipher_table 5 true false
  = Some "Wttr 656".
Proof. repeat split; by vm_compute. Qed.

(** A whole run of the encipher program. *)
Example scenario_run :
  Encipher.main ["enc"; "-s"; "5"; "-i"; "f"]
    (mkWorld {[ "f" := "Hello, World!" ]} ∅ [])
  = Exit 0 (mkWorld {[ "f" := "Hello, World!";
                       "f.ciph" := "Mjqqt, Btwqi!" ++ nl ]} ∅
              [PrintCharsRead 13]).
Proof. by vm_compute. Qed.

(** No argument at all: the usage, status 0. *)
Example scenario_usage w :
  Encipher.main ["enc"] w = Exit 0 (print (PrintUsage "enc") w) ∧
  Decipher.main ["dec"] w = Exit 0 (print (PrintUsage "dec") w).
Proof. done. Qed.

(** * Further properties of the programs *)

(** ** The text a run writes *)

Lemma transform_line_app dict s1 s2 :
  transform_line dict (s1 ++ s2) = transform_line dict s1 ++ transform_line dict s2.
Proof.
  induction s1 as [|c s1 IH]; [done|].
  change (String c s1 ++ s2) with (String c (s1 ++ s2)).
  cbn [transform_line]. by rewrite IH.
Qed.

Lemma length_transform_line dict s :
  String.length (transform_line dict s) = String.length s.
Proof. induction s as [|c s IH]; [done|]. simpl. by rewrite IH. Qed.

Lemma length_append (s1 s2 : string) :
  String.length (s1 ++ s2) = (String.length s1 + String.length s2)%nat.
Proof.
  induction s1 as [|c s1 IH]; [done|].
  change (String c s1 ++ s2) with (String c (s1 ++ s2)). simpl. by rewrite IH.
Qed.

(** The lines of a text, transformed and written one by one, are the text
    transformed character by character, newlines kept, and a newline added
    after a last line that has none. *)
Lemma transform_lines_getlines dict content line extracted :
  dict !! chr 10 = None →
  (extracted = false → line = "") →
  (transform_lines dict (getlines content line extracted)).1
  = transform_line dict (line ++ content)
    ++ (if unterminated content extracted then nl else "").
Proof.
  intros Hnl. revert line extracted.
  induction content as [|c rest IH]; intros line extracted Hline.
  - cbn [getlines unterminated]. destruct extracted.
    + cbn [transform_lines fst]. by rewrite !append_empty_r.
    + by rewrite Hline.
  - cbn [getlines unterminated]. destruct (Ascii.eqb_spec c (chr 10)) as [->|Hc].
    + cbn [transform_lines].
      destruct (transform_lines dict (getlines rest "" false)) as [written n] eqn:E.
      cbn [fst]. specialize (IH "" false (λ _, eq_refl)). rewrite E in IH.
      cbn [fst] in IH. rewrite IH. change ("" ++ rest) with rest.
      rewrite (transform_line_app dict line). cbn [transform_line].
      unfold substitute. rewrite Hnl. by rewrite append_assoc.
    + rewrite IH by done. by rewrite append_assoc.
Qed.

(** The characters counted are the characters of the text that are no
    newlines. *)
Lemma count_getlines dict content line extracted :
  (extracted = false → line = "") →
  (transform_lines dict (getlines content line extracted)).2
  = Z.of_nat (String.length line + String.length content
              - count_newlines content).
Proof.
  revert line extracted.
  induction content as [|c rest IH]; intros line extracted Hline.
  - cbn [getlines]. destruct extracted.
    + cbn [transform_lines snd String.length count_newlines]. lia.
    + by rewrite Hline.
  - cbn [getlines count_newlines String.length].
    destruct (Ascii.eqb_spec c (chr 10)) as [->|Hc].
    + cbn [transform_lines].
      destruct (transform_lines dict (getlines rest "" false)) as [written n] eqn:E.
      cbn [snd]. specialize (IH "" false (λ _, eq_refl)). rewrite E in IH.
      cbn [snd String.length] in IH. subst n.
      assert (count_newlines rest <= String.length rest)%nat.
      { clear. induction rest as [|x rest IH]; [done|]. simpl.
        destruct (Ascii.eqb x (chr 10)); lia. }
      lia.
    + rewrite IH by done. rewrite length_append. simpl.
      assert (count_newlines rest <= String.length rest)%nat.
      { clear. induction rest as [|x rest IH]; [done|]. simpl.
        destruct (Ascii.eqb x (chr 10)); lia. }
      lia.
Qed.

Lemma unterminated_append_newline content extracted :
  unterminated (content ++ (if unterminated content extracted then nl else ""))
    extracted = false.
Proof.
  revert extracted. induction content as [|c rest IH]; intros extracted.
  - by destruct extracted.
  - cbn [unterminated].
    change (String c rest ++ ?s) with (String c (rest ++ s)).
    cbn [unterminated]. destruct (Ascii.eqb c (chr 10)); apply IH.
Qed.

Lemma unterminated_newline_ended content :
  unterminated (newline_ended content) false = false.
Proof. apply unterminated_append_newline. Qed.

Lemma newline_ended_idem content :
  newline_ended (newline_ended content) = newline_ended content.
Proof.
  unfold newline_ended at 1. rewrite unterminated_newline_ended.
  apply append_empty_r.
Qed.

(** A dictionary that keeps the newline and maps nothing else to it keeps
    the line structure of a text. *)
Lemma unterminated_transform_line dict content extracted :
  (∀ x, substitute dict x = chr 10 ↔ x = chr 10) →
  unterminated (transform_line dict content) extracted
  = unterminated content extracted.
Proof.
  intros Hnl. revert extracted.
  induction content as [|c rest IH]; intros extracted; [done|].
  cbn [transform_line unterminated].
  destruct (Ascii.eqb_spec (substitute dict c) (chr 10)) as [E|E];
    destruct (Ascii.eqb_spec c (chr 10)) as [E'|E']; try apply IH.
  - destruct E'. by apply Hnl.
  - destruct E. by apply Hnl.
Qed.

Lemma transform_line_newline_ended dict content :
  dict !! chr 10 = None →
  transform_line dict (newline_ended content)
  = transform_line dict content
    ++ (if unterminated content false then nl else "").
Proof.
  intros Hnl. unfold newline_ended. rewrite transform_line_app.
  destruct (unterminated content false); [|done].
  cbn [transform_line nl]. unfold substitute. by rewrite Hnl.
Qed.

Lemma newline_outside_classes c : chr 10 ∉ alphabet c.
Proof. destruct c; apply (bool_decide_unpack _); by vm_compute. Qed.

(** The dictionaries of the programs have no entry for the newline and
    map nothing to it. *)
Lemma tables_keep_newline k nums puncts enc dec :
  encipher_table k nums puncts = Some enc →
  decipher_table k nums puncts = Some dec →
  enc !! chr 10 = None ∧ dec !! chr 10 = None ∧
  (∀ x, substitute enc x = chr 10 ↔ x = chr 10) ∧
  (∀ x, substitute dec x = chr 10 ↔ x = chr 10).
Proof.
  intros He Hd.
  destruct (encipher_table_outside k nums puncts (chr 10) newline_outside_classes)
    as (d & Hd1 & Hn).
  destruct (decipher_table_outside k nums puncts (chr 10) newline_outside_classes)
    as (d' & Hd2 & Hn').
  assert (d = enc) as -> by congruence. assert (d' = dec) as -> by congruence.
  assert (substitute enc (chr 10) = chr 10) as Fe by (unfold substitute; by rewrite Hn).
  assert (substitute dec (chr 10) = chr 10) as Fd by (unfold substitute; by rewrite Hn').
  split; [done|]. split; [done|]. split; intros x; split; intros Hx.
  - by rewrite <- (roundtrip_char k nums puncts enc dec He Hd x), Hx.
  - by subst.
  - destruct (in_some_class_dec x) as [[c Hc]|Hout].
    + destruct (roundtrip_symbol k nums puncts enc dec He Hd c x Hc) as (y & Hy & Hdy).
      apply list_elem_of_lookup in Hc as [i Hi].
      assert (x ∈ cshift (alphabet c) (class_rotation k nums puncts c)) as Hin.
      { apply elem_of_cshift. by eapply list_elem_of_lookup_2. }
      apply list_elem_of_lookup in Hin as [j Hj].
      destruct (decipher_table_lookup k nums puncts c j x Hj) as (d & Hd1' & Hl).
      assert (d = dec) as -> by congruence.
      destruct (alphabet c !! j) as [z|] eqn:Hz.
      * unfold substitute in Hx. rewrite Hl in Hx. subst z.
        apply list_elem_of_lookup_2 in Hz. by destruct (newline_outside_classes c).
      * unfold substitute in Hx. by rewrite Hl in Hx.
    + destruct (decipher_table_outside k nums puncts x Hout) as (d & Hd1' & Hn2).
      assert (d = dec) as -> by congruence.
      unfold substitute in Hx. by rewrite Hn2 in Hx.
  - by subst.
Qed.

(** What [decipherFileText] writes, as [enc_encipherFileText_writes] for the
    encipher program. *)
Lemma dec_decipherFileText_writes o w content :
  let fulloname :=
    if flag (Decipher.decipher_flags o) 1 then Decipher.infilename o ++ ".dec"
    else Decipher.outfilename o in
  file_at w (Decipher.infilename o) = Some content →
  can_open_for_writing fulloname w = true →
  resolve w fulloname ≠ resolve w (Decipher.infilename o) →
  ∃ o' w',
    Decipher.decipherFileText o w = Returns tt (o', w') ∧
    files w'
    = <[resolve w fulloname :=
          (transform_lines (Decipher.cipher_dict o) (getlines content "" false)).1]>
        (files w) ∧
    unwritable w' = unwritable w ∧ links w' = links w ∧
    Decipher.outfilename o' = fulloname ∧
    Decipher.nbytes_file o'
    = Decipher.nbytes_file o
      + (transform_lines (Decipher.cipher_dict o) (getlines content "" false)).2.
Proof.
  intros fulloname Hin Hopen Hne. unfold Decipher.decipherFileText.
  rewrite Hin. subst fulloname.
  destruct (flag (Decipher.decipher_flags o) 1) eqn:F1;
    cbn [Decipher.outfilename Decipher.set_outfilename Decipher.infilename
         Decipher.cipher_dict Decipher.nbytes_file Decipher.decipher_flags];
    (rewrite open_ofstream_opened by done); cbn [negb];
    (rewrite file_at_truncated_other by done); rewrite Hin;
    change (default "" (Some content)) with content;
    destruct (transform_lines (Decipher.cipher_dict o) (getlines content "" false))
      as [written count];
    eexists _, _; (split; [reflexivity|]);
    destruct (negb _);
    cbn [files unwritable links print write_file fst snd Decipher.outfilename
         Decipher.set_nbytes_file Decipher.set_outfilename Decipher.nbytes_file];
    match goal with
    | |- context [resolve (mkFileSystem ?f ?u ?c (links w)) ?p] =>
        change (resolve (mkFileSystem f u c (links w)) p) with (resolve w p)
    end;
    rewrite insert_insert_eq; done.
Qed.

(** X1.  [encipherFileText]: when the input file exists, the output path
    resolves to another file and can be opened, and the dictionary has no
    entry for the newline, the call returns; the output file then holds the
    input text with every character substituted and a newline added when
    the last line had none, every other file is as before, and the
    character counter has grown by the number of characters that are not
    newlines. *)
Theorem encipherFileText_output
    (o : Encipher.CipherOptions) (w : world) (content : string) :
  let fulloname :=
    if Encipher.use_default_oname o then Encipher.infilename o ++ ".ciph"
    else Encipher.outfilename o in
  file_at w (Encipher.infilename o) = Some content →
  can_open_for_writing fulloname w = true →
  resolve w fulloname ≠ resolve w (Encipher.infilename o) →
  Encipher.cipher_dict o !! chr 10 = None →
  ∃ o' w',
    Encipher.encipherFileText o w = Returns tt (o', w') ∧
    files w'
    = <[resolve w fulloname :=
          transform_line (Encipher.cipher_dict o) (newline_ended content)]>
        (files w) ∧
    links w' = links w ∧
    Encipher.nbytes_file o'
    = Encipher.nbytes_file o
      + Z.of_nat (String.length content - count_newlines content).
Proof.
  intros fulloname Hin Hopen Hne Hnl.
  destruct (enc_encipherFileText_writes o w content Hin Hopen Hne)
    as (o' & w' & Hrun & Hfiles & _ & Hlinks & Hcount).
  exists o', w'. split; [done|].
  rewrite Hfiles, Hcount.
  rewrite (transform_lines_getlines _ content "" false Hnl) by done.
  rewrite (count_getlines _ content "" false) by done.
  by rewrite transform_line_newline_ended.
Qed.

Lemma encipherFileText_output_witness :
  let o :=
    Encipher.set_use_default_oname false
      (Encipher.set_outfilename "./out/notes"
         (Encipher.set_infilename "notes.txt" Encipher.cmdopts0)) in
  let w :=
    mkFileSystem {[ "notes.txt" := "ab" ++ nl ++ "cd" ]} ∅ []
      {[ "./out/notes" := "out/notes"; "./notes.txt" := "notes.txt" ]} in
  file_at w (Encipher.infilename o) = Some ("ab" ++ nl ++ "cd") ∧
  can_open_for_writing "./out/notes" w = true ∧
  resolve w "./out/notes" ≠ resolve w (Encipher.infilename o) ∧
  Encipher.cipher_dict o !! chr 10 = None ∧
  ∃ o' w',
    Encipher.encipherFileText o w = Returns tt (o', w') ∧
    files w'
    = <[resolve w "./out/notes" :=
          transform_line (Encipher.cipher_dict o)
            (newline_ended ("ab" ++ nl ++ "cd"))]> (files w) ∧
    links w' = links w ∧
    Encipher.nbytes_file o'
    = Encipher.nbytes_file o
      + Z.of_nat (String.length ("ab" ++ nl ++ "cd")
                  - count_newlines ("ab" ++ nl ++ "cd")).
Proof.
  intros o w.
  split; [reflexivity|]. split; [reflexivity|].
  split; [vm_compute; discriminate|]. split; [reflexivity|].
  apply (encipherFileText_output o w ("ab" ++ nl ++ "cd"));
    [reflexivity | reflexivity | vm_compute; discriminate | reflexivity].
Defined.

(** X2.  A file enciphered by [encipherFileText] and then deciphered by
    [decipherFileText] with the dictionaries the two programs build for the
    same shift and the same classes is the original text, with a newline
    added when its last line had none; the enciphered file must be another
    file than the input, and the deciphered file another file than the
    enciphered one. *)
Theorem file_round_trip
    (k : Z) (nums puncts : bool)
    (oe : Encipher.CipherOptions) (od : Decipher.DecipherCtrlOpts)
    (w : world) (content : string) :
  let ciphname :=
    if Encipher.use_default_oname oe then Encipher.infilename oe ++ ".ciph"
    else Encipher.outfilename oe in
  let plainname :=
    if flag (Decipher.decipher_flags od) 1 then Decipher.infilename od ++ ".dec"
    else Decipher.outfilename od in
  encipher_table k nums puncts = Some (Encipher.cipher_dict oe) →
  decipher_table k nums puncts = Some (Decipher.cipher_dict od) →
  resolve w (Decipher.infilename od) = resolve w ciphname →
  file_at w (Encipher.infilename oe) = Some content →
  can_open_for_writing ciphname w = true →
  resolve w ciphname ≠ resolve w (Encipher.infilename oe) →
  can_open_for_writing plainname w = true →
  resolve w plainname ≠ resolve w ciphname →
  ∃ oe' w1 od' w2,
    Encipher.encipherFileText oe w = Returns tt (oe', w1) ∧
    Decipher.decipherFileText od w1 = Returns tt (od', w2) ∧
    file_at w2 plainname = Some (newline_ended content).
Proof.
  intros ciphname plainname He Hd Hname Hin Hopen1 Hne1 Hopen2 Hne2.
  destruct (tables_keep_newline k nums puncts _ _ He Hd)
    as (Hnle & Hnld & Hkeep & _).
  destruct (enc_encipherFileText_writes oe w content Hin Hopen1 Hne1)
    as (oe' & w1 & Hrun1 & Hfiles1 & Hunw & Hlinks & _).
  fold ciphname in Hfiles1.
  rewrite (transform_lines_getlines _ content "" false Hnle) in Hfiles1 by done.
  rewrite <- transform_line_newline_ended in Hfiles1 by done.
  assert (∀ p, resolve w1 p = resolve w p) as Hres
    by (intros p; unfold resolve; by rewrite Hlinks).
  set (ciphertext := transform_line (Encipher.cipher_dict oe) (newline_ended content))
    in *.
  assert (file_at w1 (Decipher.infilename od) = Some ciphertext) as Hin2.
  { unfold file_at. rewrite Hres, Hname, Hfiles1. apply lookup_insert_eq. }
  assert (can_open_for_writing plainname w1 = true) as Hopen2'.
  { revert Hopen2. unfold can_open_for_writing. by rewrite Hunw. }
  assert (resolve w1 plainname ≠ resolve w1 (Decipher.infilename od)) as Hne2'
    by by rewrite !Hres, Hname.
  destruct (dec_decipherFileText_writes od w1 ciphertext Hin2 Hopen2' Hne2')
    as (od' & w2 & Hrun2 & Hfiles2 & _ & Hlinks2 & _).
  exists oe', w1, od', w2. split; [done|]. split; [done|].
  fold plainname in Hfiles2. unfold file_at.
  assert (resolve w2 plainname = resolve w1 plainname) as ->
    by (unfold resolve; by rewrite Hlinks2).
  rewrite Hfiles2, lookup_insert_eq. f_equal.
  rewrite (transform_lines_getlines _ ciphertext "" false Hnld) by done.
  change ("" ++ ciphertext) with ciphertext.
  unfold ciphertext at 2.
  rewrite (unterminated_transform_line _ _ _ Hkeep), unterminated_newline_ended.
  rewrite append_empty_r. unfold ciphertext.
  apply (roundtrip_line k nums puncts); done.
Qed.

Lemma file_round_trip_witness :
  let oe :=
    Encipher.set_cipher_dict (default ∅ (encipher_table 3 true false))
      (Encipher.set_infilename "memo" Encipher.cmdopts0) in
  let od :=
    Decipher.set_cipher_dict (default ∅ (decipher_table 3 true false))
      (Decipher.set_outfilename "memo.out"
         (Decipher.set_infilename "./memo.ciph" Decipher.cmdopts0)) in
  let w :=
    mkFileSystem {[ "memo" := "Room 101" ]} ∅ []
      {[ "./memo.ciph" := "memo.ciph" ]} in
  encipher_table 3 true false = Some (Encipher.cipher_dict oe) ∧
  decipher_table 3 true false = Some (Decipher.cipher_dict od) ∧
  resolve w (Decipher.infilename od) = resolve w "memo.ciph" ∧
  file_at w (Encipher.infilename oe) = Some "Room 101" ∧
  can_open_for_writing "memo.ciph" w = true ∧
  resolve w "memo.ciph" ≠ resolve w (Encipher.infilename oe) ∧
  can_open_for_writing "memo.out" w = true ∧
  resolve w "memo.out" ≠ resolve w "memo.ciph" ∧
  ∃ oe' w1 od' w2,
    Encipher.encipherFileText oe w = Returns tt (oe', w1) ∧
    Decipher.decipherFileText od w1 = Returns tt (od', w2) ∧
    file_at w2 "memo.out" = Some (newline_ended "Room 101").
Proof.
  intros oe od w.
  split; [vm_compute; reflexivity|]. split; [vm_compute; reflexivity|].
  split; [reflexivity|]. split; [reflexivity|]. split; [reflexivity|].
  split; [vm_compute; discriminate|]. split; [reflexivity|].
  split; [vm_compute; discriminate|].
  apply (file_round_trip 3 true false oe od w "Room 101");
    [vm_compute; reflexivity | vm_compute; reflexivity | reflexivity
    | reflexivity | reflexivity | vm_compute; discriminate | reflexivity
    | vm_compute; discriminate].
Defined.

(** X3.  [encipherFileText] opens the output stream before it reads: when
    the output path resolves to the input file (the same path, or another
    name of the file such as [./diary] for [diary]), the file is emptied,
    nothing is read and the counter stays as it was. *)
Theorem encipherFileText_same_path
    (o : Encipher.CipherOptions) (w : world) (content : string) :
  let fulloname :=
    if Encipher.use_default_oname o then Encipher.infilename o ++ ".ciph"
    else Encipher.outfilename o in
  resolve w fulloname = resolve w (Encipher.infilename o) →
  file_at w (Encipher.infilename o) = Some content →
  can_open_for_writing fulloname w = true →
  ∃ o' w',
    Encipher.encipherFileText o w = Returns tt (o', w') ∧
    files w' = <[resolve w (Encipher.infilename o) := ""]> (files w) ∧
    Encipher.nbytes_file o' = Encipher.nbytes_file o.
Proof.
  intros fulloname Hsame Hin Hopen. unfold Encipher.encipherFileText.
  rewrite Hin. fold fulloname. rewrite open_ofstream_opened by done.
  rewrite file_at_truncated_same by done.
  change (default "" (Some "")) with "". cbn [getlines transform_lines].
  eexists _, _. split; [reflexivity|].
  cbn [Encipher.nbytes_file Encipher.set_nbytes_file].
  split; [|lia].
  destruct (negb _); cbn [files print write_file];
    change (resolve (mkFileSystem _ _ _ (links w)) fulloname)
      with (resolve w fulloname);
    by rewrite insert_insert_eq, Hsame.
Qed.

Lemma encipherFileText_same_path_witness :
  let o :=
    Encipher.set_use_default_oname false
      (Encipher.set_outfilename "./diary"
         (Encipher.set_infilename "diary" Encipher.cmdopts0)) in
  let w :=
    mkFileSystem {[ "diary" := "secret" ]} ∅ [] {[ "./diary" := "diary" ]} in
  resolve w "./diary" = resolve w (Encipher.infilename o) ∧
  file_at w (Encipher.infilename o) = Some "secret" ∧
  can_open_for_writing "./diary" w = true ∧
  ∃ o' w',
    Encipher.encipherFileText o w = Returns tt (o', w') ∧
    files w' = <[resolve w (Encipher.infilename o) := ""]> (files w) ∧
    Encipher.nbytes_file o' = Encipher.nbytes_file o.
Proof.
  intros o w. repeat (split; [reflexivity|]).
  apply (encipherFileText_same_path o w "secret"); reflexivity.
Defined.

(** X4.  An output file that cannot be opened: [encipherFileText] does not
    look at the stream, reads and counts the input and returns as after a
    success, with no file changed; [decipherFileText] checks [is_open] and
    throws a [filesystem_error] that names the output path. *)
Theorem output_file_not_opened
    (oe : Encipher.CipherOptions) (od : Decipher.DecipherCtrlOpts)
    (w : world) (content : string) :
  let ciphname :=
    if Encipher.use_default_oname oe then Encipher.infilename oe ++ ".ciph"
    else Encipher.outfilename oe in
  let plainname :=
    if flag (Decipher.decipher_flags od) 1 then Decipher.infilename od ++ ".dec"
    else Decipher.outfilename od in
  file_at w (Encipher.infilename oe) = Some content →
  file_at w (Decipher.infilename od) = Some content →
  can_open_for_writing ciphname w = false →
  can_open_for_writing plainname w = false →
  (∃ oe' w',
     Encipher.encipherFileText oe w = Returns tt (oe', w') ∧
     files w' = files w ∧
     Encipher.nbytes_file oe'
     = Encipher.nbytes_file oe
       + Z.of_nat (String.length content - count_newlines content)) ∧
  (∃ od',
     Decipher.decipherFileText od w
     = Throws (filesystem_error "Deciphering text file problem." plainname)
              (od', w)).
Proof.
  intros ciphname plainname Hin1 Hin2 Hopen1 Hopen2. split.
  - unfold Encipher.encipherFileText. rewrite Hin1. fold ciphname.
    unfold open_ofstream. rewrite Hopen1. rewrite Hin1.
    change (default "" (Some content)) with content.
    pose proof (count_getlines (Encipher.cipher_dict oe) content "" false
                  (λ _, eq_refl)) as Hcount.
    destruct (transform_lines _ _) as [written count].
    eexists _, _. split; [reflexivity|].
    cbn [Encipher.nbytes_file Encipher.set_nbytes_file snd] in *.
    rewrite Hcount. split; [|done]. by destruct (negb _).
  - unfold Decipher.decipherFileText. rewrite Hin2. subst plainname.
    destruct (flag (Decipher.decipher_flags od) 1);
      cbn [Decipher.outfilename Decipher.set_outfilename Decipher.infilename];
      unfold open_ofstream; rewrite Hopen2; cbn [negb]; by eexists.
Qed.

Lemma output_file_not_opened_witness :
  let oe := Encipher.set_infilename "log" Encipher.cmdopts0 in
  let od := Decipher.set_infilename "log" Decipher.cmdopts0 in
  let w := mkWorld {[ "log" := "abc" ]} {[ "log.ciph" ]} [] in
  file_at w (Encipher.infilename oe) = Some "abc" ∧
  file_at w (Decipher.infilename od) = Some "abc" ∧
  can_open_for_writing "log.ciph" w = false ∧
  can_open_for_writing "" w = false ∧
  (∃ oe' w',
     Encipher.encipherFileText oe w = Returns tt (oe', w') ∧
     files w' = files w ∧
     Encipher.nbytes_file oe'
     = Encipher.nbytes_file oe
       + Z.of_nat (String.length "abc" - count_newlines "abc")) ∧
  (∃ od',
     Decipher.decipherFileText od w
     = Throws (filesystem_error "Deciphering text file problem." "")
              (od', w)).
Proof.
  intros oe od w. do 4 (split; [reflexivity|]).
  apply (output_file_not_opened oe od w "abc"); reflexivity.
Defined.

(** ** The dictionaries as index arithmetic *)

Lemma alphabet_size_length c : alphabet_size c = Z.of_nat (length (alphabet c)).
Proof. by destruct c. Qed.

Lemma alphabet_size_pos c : 0 < alphabet_size c.
Proof. by destruct c. Qed.

Lemma class_rotation_mod k nums puncts c i :
  class_enabled nums puncts c = true →
  (i + class_rotation k nums puncts c) mod alphabet_size c
  = (i + k) mod alphabet_size c.
Proof.
  intros He. unfold class_rotation. rewrite He.
  by rewrite Zplus_mod_idemp_r.
Qed.

(** In the dictionary of the encipher program the symbol at index [i] of an
    enabled class has the symbol at index [(i + k) mod size]. *)
Lemma encipher_index k nums puncts enc c (i : nat) x :
  encipher_table k nums puncts = Some enc →
  class_enabled nums puncts c = true → alphabet c !! i = Some x →
  enc !! x = alphabet c !! Z.to_nat ((Z.of_nat i + k) mod alphabet_size c).
Proof.
  intros He Hc Hi.
  destruct (encipher_table_lookup k nums puncts c i x Hi) as (d & Hd & Hl).
  assert (d = enc) as -> by congruence.
  rewrite Hl, lookup_cshift by (by eapply lookup_lt_Some).
  by rewrite <- alphabet_size_length, class_rotation_mod.
Qed.

(** In the dictionary of the decipher program it has the symbol at index
    [(i - k) mod size]. *)
Lemma decipher_index k nums puncts dec c (i : nat) x :
  decipher_table k nums puncts = Some dec →
  class_enabled nums puncts c = true → alphabet c !! i = Some x →
  dec !! x = alphabet c !! Z.to_nat ((Z.of_nat i - k) mod alphabet_size c).
Proof.
  intros Hd Hc Hi.
  pose proof (alphabet_size_pos c) as Hpos.
  pose proof (lookup_lt_Some _ _ _ Hi) as Hlt.
  set (j := Z.to_nat ((Z.of_nat i - k) mod alphabet_size c)).
  assert (0 <= (Z.of_nat i - k) mod alphabet_size c < alphabet_size c) as Hj
    by (apply Z.mod_pos_bound; lia).
  assert (cshift (alphabet c) (class_rotation k nums puncts c) !! j = Some x) as Hx.
  { rewrite lookup_cshift
      by (unfold j; pose proof (alphabet_size_length c); lia).
    rewrite <- alphabet_size_length, class_rotation_mod by done.
    unfold j. rewrite Z2Nat.id by lia.
    rewrite Zplus_mod_idemp_l.
    replace (Z.of_nat i - k + k) with (Z.of_nat i) by lia.
    rewrite Z.mod_small by (pose proof (alphabet_size_length c); lia).
    by rewrite Nat2Z.id. }
  destruct (decipher_table_lookup k nums puncts c j x Hx) as (d & Hd' & Hl).
  assert (d = dec) as -> by congruence.
  by rewrite Hl.
Qed.

(** A symbol is in an enabled class, in a class that is not enabled, or in
    no class. *)
Lemma symbol_cases nums puncts x :
  (∃ c (i : nat), class_enabled nums puncts c = true ∧ alphabet c !! i = Some x) ∨
  (∃ c, class_enabled nums puncts c = false ∧ x ∈ alphabet c) ∨
  (∀ c, x ∉ alphabet c).
Proof.
  destruct (in_some_class_dec x) as [[c Hc]|Hout]; [|by right; right].
  destruct (class_enabled nums puncts c) eqn:Hen.
  - left. apply list_elem_of_lookup in Hc as [i Hi]. by exists c, i.
  - right; left. by exists c.
Qed.

Lemma encipher_outside k nums puncts enc x :
  encipher_table k nums puncts = Some enc → (∀ c, x ∉ alphabet c) →
  enc !! x = None.
Proof.
  intros He Hout.
  destruct (encipher_table_outside k nums puncts x Hout) as (d & Hd1 & Hn).
  congruence.
Qed.

Lemma decipher_outside k nums puncts dec x :
  decipher_table k nums puncts = Some dec → (∀ c, x ∉ alphabet c) →
  dec !! x = None.
Proof.
  intros He Hout.
  destruct (decipher_table_outside k nums puncts x Hout) as (d & Hd1 & Hn).
  congruence.
Qed.

Lemma alphabet_lookup_mod c z :
  is_Some (alphabet c !! Z.to_nat (z mod alphabet_size c)).
Proof.
  apply lookup_lt_is_Some.
  pose proof (Z.mod_pos_bound z _ (alphabet_size_pos c)).
  pose proof (alphabet_size_length c). lia.
Qed.

Lemma alphabet_lookup_inj c (i j : nat) x :
  alphabet c !! i = Some x → alphabet c !! j = Some x → i = j.
Proof. apply NoDup_lookup, alphabet_NoDup. Qed.

(** X5.  [generateCipherDict] as index arithmetic: for a symbol at index
    [i] of an enabled class, the dictionary of the encipher program has the
    symbol at index [(i + k) mod size] of that class and the dictionary of
    the decipher program the symbol at index [(i - k) mod size], for every
    shift [k], negative ones too. *)
Theorem enabled_class_entries_by_index
    (k : Z) (nums puncts : bool) (c : CharacterClass) (i : nat) (x : ascii) :
  class_enabled nums puncts c = true → alphabet c !! i = Some x →
  ∃ enc dec y z,
    encipher_table k nums puncts = Some enc ∧
    decipher_table k nums puncts = Some dec ∧
    alphabet c !! Z.to_nat ((Z.of_nat i + k) mod alphabet_size c) = Some y ∧
    alphabet c !! Z.to_nat ((Z.of_nat i - k) mod alphabet_size c) = Some z ∧
    enc !! x = Some y ∧ dec !! x = Some z.
Proof.
  intros Hc Hi.
  destruct (tables_exist k nums puncts) as (enc & dec & He & Hd).
  destruct (alphabet_lookup_mod c (Z.of_nat i + k)) as [y Hy].
  destruct (alphabet_lookup_mod c (Z.of_nat i - k)) as [z Hz].
  exists enc, dec, y, z. repeat (split; [done|]).
  split.
  - by rewrite (encipher_index k nums puncts enc c i x).
  - by rewrite (decipher_index k nums puncts dec c i x).
Qed.

Lemma enabled_class_entries_by_index_witness :
  class_enabled false true Punctuation = true ∧
  alphabet Punctuation !! 1%nat = Some (chr 34) ∧
  ∃ enc dec y z,
    encipher_table (-3) false true = Some enc ∧
    decipher_table (-3) false true = Some dec ∧
    alphabet Punctuation
      !! Z.to_nat ((Z.of_nat 1 + -3) mod alphabet_size Punctuation) = Some y ∧
    alphabet Punctuation
      !! Z.to_nat ((Z.of_nat 1 - -3) mod alphabet_size Punctuation) = Some z ∧
    enc !! chr 34 = Some y ∧ dec !! chr 34 = Some z.
Proof.
  split; [reflexivity|]. split; [reflexivity|].
  apply (enabled_class_entries_by_index (-3) false true Punctuation 1 (chr 34));
    reflexivity.
Defined.

(** X6.  The dictionary the decipher program builds for a shift is the
    dictionary the encipher program builds for the opposite shift. *)
Theorem decipher_table_is_encipher_table_of_opposite_shift
    (k : Z) (nums puncts : bool) :
  decipher_table k nums puncts = encipher_table (- k) nums puncts.
Proof.
  destruct (tables_exist k nums puncts) as (enc & dec & He & Hd).
  destruct (tables_exist (- k) nums puncts) as (enc' & dec' & He' & Hd').
  rewrite Hd, He'. f_equal. apply map_eq. intros x.
  destruct (symbol_cases nums puncts x) as [(c & i & Hc & Hi)|[(c & Hc & Hx)|Hout]].
  - rewrite (decipher_index k nums puncts dec c i x Hd Hc Hi).
    rewrite (encipher_index (- k) nums puncts enc' c i x He' Hc Hi).
    by replace (Z.of_nat i + - k) with (Z.of_nat i - k) by lia.
  - destruct (disabled_symbol_entries k nums puncts enc dec c x He Hd Hc Hx)
      as [_ ->].
    by destruct (disabled_symbol_entries (- k) nums puncts enc' dec' c x He' Hd' Hc Hx)
      as [-> _].
  - by rewrite (decipher_outside k nums puncts dec x Hd Hout),
      (encipher_outside (- k) nums puncts enc' x He' Hout).
Qed.

Lemma substitute_Some dict x y : dict !! x = Some y → substitute dict x = y.
Proof. unfold substitute. by intros ->. Qed.

Lemma substitute_None dict x : dict !! x = None → substitute dict x = x.
Proof. unfold substitute. by intros ->. Qed.

(** What [substitute] gives with the dictionary of the encipher program. *)
Lemma substitute_encipher_cases k nums puncts enc x :
  encipher_table k nums puncts = Some enc →
  (∃ c (i : nat), class_enabled nums puncts c = true ∧ alphabet c !! i = Some x ∧
     alphabet c !! Z.to_nat ((Z.of_nat i + k) mod alphabet_size c)
     = Some (substitute enc x)) ∨
  (substitute enc x = x ∧
   ∀ c, x ∈ alphabet c → class_enabled nums puncts c = false).
Proof.
  intros He.
  destruct (tables_exist k nums puncts) as (enc0 & dec & He0 & Hd).
  assert (enc0 = enc) as -> by congruence.
  destruct (symbol_cases nums puncts x) as [(c & i & Hc & Hi)|[(c & Hc & Hx)|Hout]].
  - left. exists c, i. split; [done|]. split; [done|].
    destruct (alphabet_lookup_mod c (Z.of_nat i + k)) as [y Hy].
    rewrite Hy. f_equal. symmetry. apply substitute_Some.
    by rewrite (encipher_index k nums puncts enc c i x).
  - right. split.
    + apply substitute_Some.
      by destruct (disabled_symbol_entries k nums puncts enc dec c x He Hd Hc Hx).
    + intros c' Hx'. by rewrite (classes_disjoint c' c x).
  - right. split.
    + apply substitute_None. by eapply encipher_outside.
    + intros c Hx. by destruct (Hout c).
Qed.

(** X7.  Shifts add up: enciphering with shift [k1] and the result with
    shift [k2], the same classes enabled, is enciphering with shift
    [k1 + k2]. *)
Theorem enciphering_twice_adds_the_shifts
    (k1 k2 : Z) (nums puncts : bool) (text : string) :
  ∃ enc1 enc2 enc12,
    encipher_table k1 nums puncts = Some enc1 ∧
    encipher_table k2 nums puncts = Some enc2 ∧
    encipher_table (k1 + k2) nums puncts = Some enc12 ∧
    transform_line enc2 (transform_line enc1 text) = transform_line enc12 text.
Proof.
  destruct (tables_exist k1 nums puncts) as (enc1 & _ & He1 & _).
  destruct (tables_exist k2 nums puncts) as (enc2 & _ & He2 & _).
  destruct (tables_exist (k1 + k2) nums puncts) as (enc12 & _ & He12 & _).
  exists enc1, enc2, enc12. repeat (split; [done|]).
  induction text as [|x text IH]; [done|].
  cbn [transform_line]. rewrite IH. f_equal.
  destruct (substitute_encipher_cases k1 nums puncts enc1 x He1)
    as [(c & i & Hc & Hi & H1)|[H1 Hdis]].
  - set (j := Z.to_nat ((Z.of_nat i + k1) mod alphabet_size c)) in *.
    pose proof (Z.mod_pos_bound (Z.of_nat i + k1) _ (alphabet_size_pos c)) as Hb.
    rewrite (substitute_Some enc2 _
               (substitute enc12 x)); [done|].
    rewrite (encipher_index k2 nums puncts enc2 c j _ He2 Hc H1).
    unfold j. rewrite Z2Nat.id by lia. rewrite Zplus_mod_idemp_l.
    replace (Z.of_nat i + k1 + k2) with (Z.of_nat i + (k1 + k2)) by lia.
    rewrite <- (encipher_index (k1 + k2) nums puncts enc12 c i x He12 Hc Hi).
    destruct (alphabet_lookup_mod c (Z.of_nat i + (k1 + k2))) as [y Hy].
    rewrite (encipher_index (k1 + k2) nums puncts enc12 c i x He12 Hc Hi), Hy.
    f_equal. symmetry. apply substitute_Some.
    by rewrite (encipher_index (k1 + k2) nums puncts enc12 c i x He12 Hc Hi).
  - rewrite H1.
    destruct (substitute_encipher_cases k2 nums puncts enc2 x He2)
      as [(c & i & Hc & Hi & _)|[H2 _]].
    { apply list_elem_of_lookup_2 in Hi. by rewrite (Hdis c Hi) in Hc. }
    destruct (substitute_encipher_cases (k1 + k2) nums puncts enc12 x He12)
      as [(c & i & Hc & Hi & _)|[H12 _]].
    { apply list_elem_of_lookup_2 in Hi. by rewrite (Hdis c Hi) in Hc. }
    by rewrite H2, H12.
Qed.

(** X8.  The dictionary of the encipher program permutes every class: a
    character is in a class exactly when its substitute is, and two
    characters with the same substitute are the same character. *)
Theorem enciphering_permutes_each_class (k : Z) (nums puncts : bool) :
  ∃ enc,
    encipher_table k nums puncts = Some enc ∧
    (∀ c x, x ∈ alphabet c ↔ substitute enc x ∈ alphabet c) ∧
    (∀ x y, substitute enc x = substitute enc y → x = y).
Proof.
  destruct (tables_exist k nums puncts) as (enc & dec & He & Hd).
  exists enc. split; [done|]. split.
  - intros c x.
    destruct (substitute_encipher_cases k nums puncts enc x He)
      as [(c' & i & Hc & Hi & Hy)|[-> _]]; [|done].
    apply list_elem_of_lookup_2 in Hi, Hy. split; intros Hx.
    + by rewrite (classes_disjoint c c' x).
    + by rewrite (classes_disjoint c c' (substitute enc x)).
  - intros x y Hxy.
    rewrite <- (roundtrip_char k nums puncts enc dec He Hd x).
    rewrite <- (roundtrip_char k nums puncts enc dec He Hd y).
    by rewrite Hxy.
Qed.

(** X9.  A shift that is a multiple of the size of every enabled class
    (0, or 26 when only the letters are shifted) leaves every text as it
    is. *)
Theorem shift_multiple_of_sizes_is_identity
    (k : Z) (nums puncts : bool) (text : string) :
  (∀ c, class_enabled nums puncts c = true → k mod alphabet_size c = 0) →
  ∃ enc,
    encipher_table k nums puncts = Some enc ∧ transform_line enc text = text.
Proof.
  intros Hk.
  destruct (tables_exist k nums puncts) as (enc & _ & He & _).
  exists enc. split; [done|].
  induction text as [|x text IH]; [done|].
  cbn [transform_line]. rewrite IH. f_equal.
  destruct (substitute_encipher_cases k nums puncts enc x He)
    as [(c & i & Hc & Hi & Hy)|[H1 _]]; [|done].
  pose proof (lookup_lt_Some _ _ _ Hi) as Hlt.
  pose proof (alphabet_size_length c) as Hlen.
  rewrite <- Zplus_mod_idemp_r, (Hk c Hc), Z.add_0_r in Hy.
  rewrite Z.mod_small, Nat2Z.id in Hy by lia.
  congruence.
Qed.

Lemma shift_multiple_of_sizes_is_identity_witness :
  (∀ c, class_enabled false false c = true → 52 mod alphabet_size c = 0) ∧
  ∃ enc,
    encipher_table 52 false false = Some enc ∧
    transform_line enc "Room 101" = "Room 101".
Proof.
  assert (∀ c, class_enabled false false c = true → 52 mod alphabet_size c = 0)
    as H by (intros []; vm_compute; congruence).
  split; [exact H|].
  apply (shift_multiple_of_sizes_is_identity 52 false false "Room 101"); exact H.
Defined.

(** ** Every command line *)

(** The loop over the characters of a token prints at most; it ends by
    returning the code it was given or 1, or by throwing
    [invalid_argument]. *)
Lemma enc_single_char_options_safe tok chars pr ae o w :
  match Encipher.single_char_options tok chars pr ae o w with
  | Returns (pr', _) (_, w') =>
      files w' = files w ∧ unwritable w' = unwritable w ∧ (pr' = pr ∨ pr' = 1)
  | Throws e (_, w') =>
      files w' = files w ∧ unwritable w' = unwritable w
  | Undefined => False
  end.
Proof.
  revert pr ae o w. induction chars as [|c chars IH]; intros pr ae o w.
  - cbn. auto.
  - cbn [Encipher.single_char_options].
    destruct (bool_decide _); [|done].
    repeat (destruct (Ascii.eqb c _); [apply IH|]).
    destruct (Ascii.eqb c "h"); [|apply IH].
    specialize (IH 1 true o (print (PrintHelp (Encipher.prog_name_stripped o)) w)).
    destruct (Encipher.single_char_options _ _ _ _ _ _) as [[pr' ?] [? w']|? [? w']|];
      [|done|done].
    destruct IH as (? & ? & ?). split; [done|]. split; [done|]. right. tauto.
Qed.

Lemma enc_parse_options_safe_upto (n : nat) opts pr o w :
  (length opts ≤ n)%nat →
  match Encipher.parse_options opts pr o w with
  | Returns pr' (_, w') =>
      files w' = files w ∧ unwritable w' = unwritable w ∧ (pr' = pr ∨ pr' = 1)
  | Throws e (_, w') =>
      files w' = files w ∧ unwritable w' = unwritable w
  | Undefined => False
  end.
Proof.
  revert opts pr o w. induction n as [|n IH]; intros opts pr o w Hlen.
  { destruct opts; [cbn; auto | cbn in Hlen; lia]. }
  destruct opts as [|tok following]; [cbn; auto|].
  cbn [length] in Hlen. cbn [Encipher.parse_options].
  destruct (_ || _).
  { destruct following as [|v rest]; [done|]. apply IH. cbn [length] in Hlen. lia. }
  destruct (_ || _).
  { destruct following as [|v rest]; [done|]. apply IH. cbn [length] in Hlen. lia. }
  destruct (_ || _).
  { destruct following as [|v rest]; [done|].
    destruct (stoi v); [done|]. apply IH. cbn [length] in Hlen. lia. }
  destruct (String.eqb tok "--shift-nums"); [apply IH; lia|].
  destruct (String.eqb tok "--shift-puncts"); [apply IH; lia|].
  destruct (String.eqb tok "--shift-all"); [apply IH; lia|].
  destruct (String.eqb tok "--help"); [cbn; auto|].
  destruct (String.eqb tok "--show-log"); [apply IH; lia|].
  destruct (_ >? _); [done|].
  pose proof (enc_single_char_options_safe tok (string_rest tok) pr false o w) as Hs.
  destruct (Encipher.single_char_options _ _ _ _ _ _)
    as [[pr' ae] [o' w']|? [? w']|]; [|done|done].
  destruct Hs as (Hf & Hu & Hpr). destruct ae; [done|].
  specialize (IH following pr' o' w' ltac:(lia)).
  destruct (Encipher.parse_options following pr' o' w') as [r [? w'']|? [? w'']|];
    [|by rewrite <- Hf, <- Hu|done].
  destruct IH as (Hf' & Hu' & Hr).
  split; [congruence|]. split; [congruence|]. destruct Hpr, Hr; subst; auto.
Qed.

Lemma enc_parseCommandLine_safe args w :
  match Encipher.parseCommandLine args Encipher.cmdopts0 w with
  | Returns pr' (_, w') =>
      files w' = files w ∧ unwritable w' = unwritable w ∧ (pr' = 0 ∨ pr' = 1)
  | Throws e (_, w') =>
      files w' = files w ∧ unwritable w' = unwritable w
  | Undefined => False
  end.
Proof.
  destruct args as [|progname opts]; [done|].
  unfold Encipher.parseCommandLine.
  destruct opts as [|tok opts]; [cbn; auto|].
  apply (enc_parse_options_safe_upto (length (tok :: opts))). done.
Qed.

Lemma enc_handle_exit e w :
  ∃ ev, Encipher.handle e w = Exit 1 (print ev w) ∧
        (ev = PrintUnexpected ∨ ∃ e', ev = PrintWhat e').
Proof. destruct e; eexists; (split; [reflexivity|]); eauto. Qed.

(** X10.  The encipher program on every command line and every file
    system: [main] ends with status 0 or 1; when the status is 1 no file
    has been changed and the last thing printed is the text of the
    exception or the message of the catch-all handler. *)
Theorem encipher_main_exit_status (args : list string) (w : world) :
  ∃ st w',
    Encipher.main args w = Exit st w' ∧
    (st = 0 ∨ st = 1) ∧
    (st = 1 →
     files w' = files w ∧
     ∃ ev, last (console w') = Some ev ∧
           (ev = PrintUnexpected ∨ ∃ e, ev = PrintWhat e)).
Proof.
  assert (∀ e w1, files w1 = files w →
            ∃ st w', Encipher.handle e w1 = Exit st w' ∧
              (st = 0 ∨ st = 1) ∧
              (st = 1 →
               files w' = files w ∧
               ∃ ev, last (console w') = Some ev ∧
                     (ev = PrintUnexpected ∨ ∃ e, ev = PrintWhat e))) as Hh.
  { intros e w1 Hf. destruct (enc_handle_exit e w1) as (ev & -> & Hev).
    eexists _, _. split; [reflexivity|]. split; [by right|]. intros _.
    split; [done|]. exists ev. split; [|done]. cbn. apply last_snoc. }
  unfold Encipher.main.
  pose proof (enc_parseCommandLine_safe args w) as Hp.
  destruct (Encipher.parseCommandLine args Encipher.cmdopts0 w)
    as [r [o w1]|e [o w1]|]; [| |done].
  - destruct Hp as (Hf & Hu & [-> | ->]); cbn [Z.eqb];
      [|eexists _, _; split; [reflexivity|]; split; [by left|done]].
    destruct (enc_generateCipherDict_total o) as [o' ->].
    unfold Encipher.encipherFileText.
    destruct (file_at w1 (Encipher.infilename o')); [|by apply Hh].
    destruct (open_ofstream _ _) as [opened w2].
    destruct (transform_lines _ _) as [written count].
    eexists _, _. split; [reflexivity|]. split; [by left|done].
  - destruct Hp as (Hf & Hu). by apply Hh.
Qed.

(** ** The default output name of the first decipher source *)

Lemma dec_parseSingleCharOptions_frame tok o :
  ∃ code f',
    Decipher.parseSingleCharOptions tok o
    = (code, Decipher.set_decipher_flags f' o) ∧
    flag f' 1 = flag (Decipher.decipher_flags o) 1.
Proof.
  unfold Decipher.parseSingleCharOptions.
  destruct (_ >? _).
  - exists Decipher.CMDLN_USER_ERROR, (Decipher.decipher_flags o).
    by rewrite dec_set_decipher_flags_id.
  - destruct (dec_single_char_loop_frame (string_rest tok) Decipher.CMDLN_OK
                (Decipher.decipher_flags o) o) as (code & f' & Heq & Hf).
    rewrite dec_set_decipher_flags_id in Heq. by exists code, f'.
Qed.

(** The loop of [parseCommandLine] never sets flag 1, and leaves
    [outfilename] alone when no argument is [-o] or [--ofile]. *)
Lemma dec_parse_deque_flag1_upto (n : nat) opts pr o :
  (length opts ≤ n)%nat →
  flag (Decipher.decipher_flags o) 1 = false →
  match Decipher.parse_deque opts pr o with
  | Returns _ o' | Throws _ o' =>
      flag (Decipher.decipher_flags o') 1 = false ∧
      ("-o" ∉ opts → "--ofile" ∉ opts →
       Decipher.outfilename o' = Decipher.outfilename o)
  | Undefined => True
  end.
Proof.
  revert opts pr o. induction n as [|n IH]; intros opts pr o Hlen Hf.
  { destruct opts; [cbn; auto | cbn in Hlen; lia]. }
  destruct opts as [|tok following]; [cbn; auto|].
  cbn [length] in Hlen.
  assert (∀ pr' o',
            flag (Decipher.decipher_flags o') 1 = false →
            Decipher.outfilename o' = Decipher.outfilename o →
            match Decipher.parse_deque following pr' o' with
            | Returns _ o'' | Throws _ o'' =>
                flag (Decipher.decipher_flags o'') 1 = false ∧
                ("-o" ∉ tok :: following → "--ofile" ∉ tok :: following →
                 Decipher.outfilename o'' = Decipher.outfilename o)
            | Undefined => True
            end) as Hnext.
  { intros pr' o' Hf' Ho'.
    specialize (IH following pr' o' ltac:(lia) Hf').
    destruct (Decipher.parse_deque following pr' o'); [| |done];
      (destruct IH as [IH1 IH2]; split; [done|]; intros H1 H2;
       rewrite <- Ho'; apply IH2; set_solver). }
  assert (∀ i b, 0 <= i → i ≠ 1 ∨ b = false →
            flag (Decipher.decipher_flags (Decipher.set_flag i b o)) 1 = false)
    as Hset.
  { intros i b Hi Hib. unfold Decipher.set_flag. cbn [Decipher.decipher_flags
      Decipher.set_decipher_flags].
    destruct b.
    - rewrite flag_flag_set, Hf by done. destruct Hib as [Hib|]; [|done].
      rewrite orb_false_r. by apply Z.eqb_neq.
    - by rewrite flag_flag_reset, Hf. }
  cbn [Decipher.parse_deque].
  destruct (_ || _).
  { destruct following as [|v rest]; [done|].
    specialize (IH rest pr (Decipher.set_infilename v o)
                  ltac:(cbn [length] in Hlen; lia) Hf).
    destruct (Decipher.parse_deque rest pr _); [| |done];
      (destruct IH as [IH1 IH2]; split; [done|]; intros H1 H2;
       apply IH2; set_solver). }
  destruct (String.eqb tok "-o" || String.eqb tok "--ofile") eqn:Eo.
  { destruct following as [|v rest]; [done|].
    specialize (IH rest pr
                  (Decipher.set_flag 1 false (Decipher.set_outfilename v o))
                  ltac:(cbn [length] in Hlen; lia)).
    cbn [Decipher.set_flag Decipher.decipher_flags Decipher.set_decipher_flags
         Decipher.set_outfilename] in IH.
    rewrite flag_flag_reset, Hf in IH. specialize (IH eq_refl).
    destruct (Decipher.parse_deque rest pr _); [| |done];
      (destruct IH as [IH1 IH2]; split; [done|]; intros H1 H2;
       apply orb_true_iff in Eo as [Eo|Eo]; apply String.eqb_eq in Eo; subst;
       set_solver). }
  destruct (String.eqb tok "-s" || String.eqb tok "--shift-amount").
  { destruct following as [|v rest]; [done|].
    destruct (stoi v) as [e|z]; [by cbv iota|].
    specialize (IH rest pr (Decipher.set_orig_shift_len z o)
                  ltac:(cbn [length] in Hlen; lia) Hf).
    destruct (Decipher.parse_deque rest pr _); [| |done];
      (destruct IH as [IH1 IH2]; split; [done|]; intros H1 H2;
       apply IH2; set_solver). }
  destruct (String.eqb tok "--shift-numbers").
  { apply Hnext; [apply Hset; [lia | by left] | done]. }
  destruct (String.eqb tok "--shift-puncts").
  { apply Hnext; [apply Hset; [lia | by left] | done]. }
  destruct (String.eqb tok "--shift-all").
  { apply Hnext; [|done].
    unfold Decipher.set_flag.
    cbn [Decipher.decipher_flags Decipher.set_decipher_flags].
    by rewrite !flag_flag_set, Hf by lia. }
  destruct (String.eqb tok "--help").
  { cbv iota. split; [apply Hset; [lia | by left] | done]. }
  destruct (String.eqb tok "--show-log").
  { apply Hnext; [apply Hset; [lia | by left] | done]. }
  destruct (dec_parseSingleCharOptions_frame tok o) as (code & f' & -> & Hf').
  rewrite Hf in Hf'.
  destruct code; cbv iota; try (by split); by apply Hnext.
Qed.

Lemma dec_generateCipherDict_frame o :
  ∃ o', Decipher.generateCipherDict o = Some o' ∧
        Decipher.decipher_flags o' = Decipher.decipher_flags o ∧
        Decipher.infilename o' = Decipher.infilename o ∧
        Decipher.outfilename o' = Decipher.outfilename o.
Proof.
  unfold Decipher.generateCipherDict.
  rewrite (calcReducedShift_mod 26) by done. simpl.
  destruct (flag (Decipher.decipher_flags o) 2); simpl;
    rewrite ?(calcReducedShift_mod (Z.of_nat 10)) by done; simpl;
    (destruct (flag (Decipher.decipher_flags o) 3); simpl;
     rewrite ?(calcReducedShift_mod (Z.of_nat 32)) by done; simpl);
    by eexists.
Qed.

(** X11.  In the first decipher source the flags start as [0b01000000],
    which is flag 6 and not flag 1, and nothing sets flag 1: after every
    command line, whether parsing returns or throws, the flag of the
    default output name is clear, and the output name is still empty when
    no argument is [-o] or [--ofile]. *)
Theorem decipher_default_output_name_never_enabled (args : list string) :
  match Decipher.parseCommandLine args Decipher.cmdopts0 with
  | Returns _ o | Throws _ o =>
      flag (Decipher.decipher_flags o) 1 = false ∧
      ("-o" ∉ tail args → "--ofile" ∉ tail args → Decipher.outfilename o = "")
  | Undefined => True
  end.
Proof.
  destruct args as [|progname opts]; [done|].
  unfold Decipher.parseCommandLine.
  destruct opts as [|tok opts]; [done|].
  apply (dec_parse_deque_flag1_upto (length (tok :: opts))); done.
Qed.

(** X12.  So the first decipher source deciphers nothing without [-o] or
    [--ofile]: on such a command line [main], when it ends, has changed no
    file, and it ends with status 0 only after printing the help or the
    usage. *)
Theorem decipher_without_ofile_changes_no_file (args : list string) (w : world) :
  "-o" ∉ tail args → "--ofile" ∉ tail args →
  match Decipher.main args w with
  | Exit st w' =>
      files w' = files w ∧
      (st = 0 ∨ st = 1) ∧
      (st = 0 →
       ∃ name, console w' = (console w ++ [PrintHelp name])%list ∨
               console w' = (console w ++ [PrintUsage name])%list)
  | UndefinedBehaviour => True
  end.
Proof.
  intros Ho1 Ho2.
  assert (match Decipher.parseCommandLine args Decipher.cmdopts0 with
          | Returns _ o | Throws _ o =>
              flag (Decipher.decipher_flags o) 1 = false ∧
              ("-o" ∉ tail args → "--ofile" ∉ tail args →
               Decipher.outfilename o = "")
          | Undefined => True
          end) as Hp.
  { destruct args as [|progname opts]; [done|].
    unfold Decipher.parseCommandLine.
    destruct opts as [|tok opts]; [done|].
    apply (dec_parse_deque_flag1_upto (length (tok :: opts))); done. }
  unfold Decipher.main.
  destruct (Decipher.parseCommandLine args Decipher.cmdopts0) as [r o|e o|];
    [| |done].
  - destruct Hp as [Hf Hout]. specialize (Hout Ho1 Ho2).
    destruct r.
    + split; [done|]. split; [by right|done].
    + destruct (dec_generateCipherDict_frame o) as (o' & -> & Hf' & Hi' & Ho').
      unfold Decipher.decipherFileText.
      destruct (file_at w (Decipher.infilename o')).
      * rewrite Hf', Hf, Ho', Hout. cbn.
        split; [done|]. split; [by right|done].
      * cbn. split; [done|]. split; [by right|done].
    + cbn. split; [done|]. split; [by left|]. intros _. eauto.
    + cbn. split; [done|]. split; [by left|]. intros _. eauto.
  - cbn. split; [done|]. split; [by right|done].
Qed.

Lemma decipher_without_ofile_changes_no_file_witness :
  let args := ["dec"; "-s"; "5"; "-i"; "f.ciph"] in
  let w := mkWorld {[ "f.ciph" := "Mjqqt" ]} ∅ [] in
  ("-o" ∉ tail args) ∧ ("--ofile" ∉ tail args) ∧
  match Decipher.main args w with
  | Exit st w' =>
      files w' = files w ∧
      (st = 0 ∨ st = 1) ∧
      (st = 0 →
       ∃ name, console w' = (console w ++ [PrintHelp name])%list ∨
               console w' = (console w ++ [PrintUsage name])%list)
  | UndefinedBehaviour => True
  end.
Proof.
  intros args w.
  assert ("-o" ∉ tail args) as H1 by (apply (bool_decide_unpack _); by vm_compute).
  assert ("--ofile" ∉ tail args) as H2
    by (apply (bool_decide_unpack _); by vm_compute).
  split; [exact H1|]. split; [exact H2|].
  exact (decipher_without_ofile_changes_no_file args w H1 H2).
Defined.

(** ** Tokens *)

(** X13.  [--help] ends the parsing: after well-formed options the three
    programs print the help under the program name without its directory
    and end with status 0, whatever follows [--help] on the command line;
    no file is opened. *)
Theorem help_option_ends_parsing
    (progname : string) (items : list cmd_item) (rest : list string) (w : world) :
  forallb item_ok items = true →
  let args := progname :: (render items ++ "--help" :: rest)%list in
  Encipher.main args w = Exit 0 (print (PrintHelp (path_filename progname)) w) ∧
  Decipher.main args w = Exit 0 (print (PrintHelp (path_filename progname)) w) ∧
  DecipherVec.main args w = Exit 0 (print (PrintHelp (path_filename progname)) w).
Proof.
  intros Hok args. subst args. split; [|split].
  - unfold Encipher.main.
    rewrite enc_parseCommandLine_options by apply render_app_cons_nonempty.
    destruct (enc_parse_items items ("--help" :: rest) Hok 0
                (Encipher.set_prog_name_stripped (path_filename progname)
                   (Encipher.set_program_name progname Encipher.cmdopts0)) w)
      as (o' & -> & _ & _ & _ & Hname).
    cbn. by rewrite Hname.
  - unfold Decipher.main.
    rewrite dec_parseCommandLine_options by apply render_app_cons_nonempty.
    destruct (dec_parse_items items ("--help" :: rest) Hok
                (Decipher.set_prog_name_stripped (path_filename progname)
                   (Decipher.set_program_name progname Decipher.cmdopts0)))
      as (o' & -> & _ & _ & _ & Hname).
    cbn. by rewrite Hname.
  - unfold DecipherVec.main.
    rewrite decvec_parseCommandLine_options by apply render_app_cons_nonempty.
    destruct (decvec_parse_items items ("--help" :: rest) Hok 0
                (DecipherVec.set_prog_name_stripped (path_filename progname)
                   (DecipherVec.set_program_name progname DecipherVec.cmdopts0)) w)
      as (o' & -> & _ & _ & _ & Hname).
    cbn. by rewrite Hname.
Qed.

Lemma help_option_ends_parsing_witness :
  let items := [ItemShift false "7"; ItemSwitch "-np"] in
  let args := "bin/enc" :: (render items ++ "--help" :: ["-i"])%list in
  let w := mkWorld {[ "f" := "abc" ]} ∅ [] in
  forallb item_ok items = true ∧
  Encipher.main args w = Exit 0 (print (PrintHelp (path_filename "bin/enc")) w) ∧
  Decipher.main args w = Exit 0 (print (PrintHelp (path_filename "bin/enc")) w) ∧
  DecipherVec.main args w = Exit 0 (print (PrintHelp (path_filename "bin/enc")) w).
Proof.
  intros items args w. split; [reflexivity|].
  apply (help_option_ends_parsing "bin/enc" items ["-i"] w). reflexivity.
Defined.

Lemma find_last_of_from_pos s c i found :
  0 < i → 0 < found → 0 < find_last_of_from s c i found.
Proof.
  revert i found. induction s as [|x s IH]; intros i found Hi Hf; [done|].
  cbn [find_last_of_from]. apply IH; [lia|]. by destruct (Ascii.eqb x c).
Qed.

Lemma find_last_of_from_present s c i found :
  0 < i → string_forallb (λ x, negb (Ascii.eqb x c)) s = false →
  0 < find_last_of_from s c i found.
Proof.
  revert i found. induction s as [|x s IH]; intros i found Hi Hs; [done|].
  cbn [find_last_of_from string_forallb] in *.
  destruct (Ascii.eqb x c).
  - apply find_last_of_from_pos; lia.
  - apply IH; [lia|done].
Qed.

(** The last dash of a token is at index 0 exactly when the token is a dash
    followed by characters that are no dashes. *)
Lemma find_last_of_dash_led tok :
  dash_led tok = false → (find_last_of tok "-" >? 0) = true.
Proof.
  intros Hd. apply Z.gtb_lt. unfold find_last_of.
  destruct tok as [|d body]; [done|].
  cbn [find_last_of_from dash_led] in *. unfold is_dash in Hd.
  destruct (Ascii.eqb d "-").
  - apply find_last_of_from_present; [lia|done].
  - apply find_last_of_from_pos; [lia|done].
Qed.

(** X14.  An argument that is none of the options compared as a whole and
    is not a dash followed by characters other than dashes (a word without
    a dash, the empty argument, a misspelt long option) makes each of the
    three parsers throw [invalid_argument] with the message that names the
    argument; the options and the files are as they were. *)
Theorem unknown_argument_rejected
    (tok : string) (rest : list string) (pr : Z)
    (prd : Decipher.DECIPHER_PROG_CODES)
    (oe : Encipher.CipherOptions) (od : Decipher.DecipherCtrlOpts)
    (ov : DecipherVec.DecipherCtrlOpts) (w : world) :
  exact_option tok = false → dash_led tok = false →
  Encipher.parse_options (tok :: rest) pr oe w
  = Throws (invalid_argument (Encipher.ia_errmsg tok)) (oe, w) ∧
  Decipher.parse_deque (tok :: rest) prd od
  = Throws (invalid_argument (Decipher.ia_errmsg tok)) od ∧
  DecipherVec.parse_options (tok :: rest) pr ov w
  = Throws (invalid_argument (DecipherVec.ia_errmsg tok)) (ov, w).
Proof.
  intros Hex Hd. pose proof (find_last_of_dash_led tok Hd) as Hl.
  split; [|split].
  - revert Hex. unfold exact_option. rewrite !orb_false_iff.
    intros (((((((((((H1 & H2) & H3) & H4) & H5) & H6) & H7) & H8) & H9) & H10)
              & H11) & H12).
    cbn [Encipher.parse_options].
    by rewrite H1, H2, H3, H4, H5, H6, H7, H9, H10, H11, H12, Hl.
  - rewrite dec_parse_deque_single by done.
    unfold Decipher.parseSingleCharOptions. by rewrite Hl.
  - revert Hex. unfold exact_option. rewrite !orb_false_iff.
    intros (((((((((((H1 & H2) & H3) & H4) & H5) & H6) & H7) & H8) & H9) & H10)
              & H11) & H12).
    cbn [DecipherVec.parse_options].
    by rewrite H1, H2, H3, H4, H5, H6, H7, H9, H10, H11, H12, Hl.
Qed.

Lemma unknown_argument_rejected_witness :
  let w := mkWorld ∅ ∅ [] in
  exact_option "--shift-digits" = false ∧ dash_led "--shift-digits" = false ∧
  Encipher.parse_options ["--shift-digits"; "-i"; "f"] 0 Encipher.cmdopts0 w
  = Throws (invalid_argument (Encipher.ia_errmsg "--shift-digits"))
           (Encipher.cmdopts0, w) ∧
  Decipher.parse_deque ["--shift-digits"; "-i"; "f"] Decipher.CMDLN_OK
    Decipher.cmdopts0
  = Throws (invalid_argument (Decipher.ia_errmsg "--shift-digits"))
           Decipher.cmdopts0 ∧
  DecipherVec.parse_options ["--shift-digits"; "-i"; "f"] 0 DecipherVec.cmdopts0 w
  = Throws (invalid_argument (DecipherVec.ia_errmsg "--shift-digits"))
           (DecipherVec.cmdopts0, w).
Proof.
  intros w. split; [reflexivity|]. split; [reflexivity|].
  apply (unknown_argument_rejected "--shift-digits" ["-i"; "f"] 0
           Decipher.CMDLN_OK Encipher.cmdopts0 Decipher.cmdopts0
           DecipherVec.cmdopts0 w); reflexivity.
Defined.

Lemma string_existsb_app P s1 s2 :
  string_existsb P (s1 ++ s2) = string_existsb P s1 || string_existsb P s2.
Proof.
  induction s1 as [|c s1 IH]; [done|].
  change (String c s1 ++ s2) with (String c (s1 ++ s2)).
  cbn [string_existsb]. by rewrite IH, orb_assoc.
Qed.

Lemma string_forallb_app P s1 s2 :
  string_forallb P (s1 ++ s2) = string_forallb P s1 && string_forallb P s2.
Proof.
  induction s1 as [|c s1 IH]; [done|].
  change (String c s1 ++ s2) with (String c (s1 ++ s2)).
  cbn [string_forallb]. by rewrite IH, andb_assoc.
Qed.

(** X15.  Switches combined in one token act as the same switches given in
    two tokens: for characters among [a], [n], [p], [l], the token
    [-xy] is parsed as [-x] followed by [-y], by the three parsers. *)
Theorem combined_switches_split
    (body1 body2 : string) (rest : list string) (pr : Z)
    (oe : Encipher.CipherOptions) (od : Decipher.DecipherCtrlOpts)
    (ov : DecipherVec.DecipherCtrlOpts) (w : world) :
  string_forallb flag_char body1 = true →
  string_forallb flag_char body2 = true →
  Encipher.parse_options (String "-" (body1 ++ body2) :: rest) pr oe w
  = Encipher.parse_options (String "-" body1 :: String "-" body2 :: rest) pr oe w ∧
  Decipher.parse_deque (String "-" (body1 ++ body2) :: rest) Decipher.CMDLN_OK od
  = Decipher.parse_deque (String "-" body1 :: String "-" body2 :: rest)
      Decipher.CMDLN_OK od ∧
  DecipherVec.parse_options (String "-" (body1 ++ body2) :: rest) pr ov w
  = DecipherVec.parse_options (String "-" body1 :: String "-" body2 :: rest) pr ov w.
Proof.
  intros H1 H2.
  assert (string_forallb flag_char (body1 ++ body2) = true) as H12
    by by rewrite string_forallb_app, H1, H2.
  split; [|split].
  - rewrite !enc_parse_options_flags by done.
    rewrite !string_existsb_app. unfold enc_with_flags. cbn.
    by rewrite !orb_assoc.
  - destruct (flag_char_facts _ H1) as (_ & _ & Hd1).
    destruct (flag_char_facts _ H2) as (_ & _ & Hd2).
    destruct (flag_char_facts _ H12) as (_ & _ & Hd12).
    rewrite !dec_parse_deque_single by by apply flags_not_exact_option.
    rewrite !dec_parseSingleCharOptions_dash by done.
    rewrite dec_single_char_loop_app.
    destruct (dec_single_char_loop_switches body1 Decipher.CMDLN_OK
                (Decipher.decipher_flags od) od H1) as (f1 & Heq1 & _).
    rewrite dec_set_decipher_flags_id in Heq1. rewrite Heq1. cbn [fst snd].
    destruct (dec_single_char_loop_switches body2 Decipher.CMDLN_OK f1 od H2)
      as (f2 & -> & _).
    done.
  - rewrite !decvec_parse_options_flags by done.
    rewrite !string_existsb_app. unfold decvec_with_flags. cbn.
    by rewrite !orb_assoc.
Qed.

Lemma combined_switches_split_witness :
  let w := mkWorld ∅ ∅ [] in
  string_forallb flag_char "nl" = true ∧ string_forallb flag_char "p" = true ∧
  Encipher.parse_options [String "-" ("nl" ++ "p"); "-i"; "f"] 0 Encipher.cmdopts0 w
  = Encipher.parse_options [String "-" "nl"; String "-" "p"; "-i"; "f"] 0
      Encipher.cmdopts0 w ∧
  Decipher.parse_deque [String "-" ("nl" ++ "p"); "-i"; "f"] Decipher.CMDLN_OK
    Decipher.cmdopts0
  = Decipher.parse_deque [String "-" "nl"; String "-" "p"; "-i"; "f"]
      Decipher.CMDLN_OK Decipher.cmdopts0 ∧
  DecipherVec.parse_options [String "-" ("nl" ++ "p"); "-i"; "f"] 0
    DecipherVec.cmdopts0 w
  = DecipherVec.parse_options [String "-" "nl"; String "-" "p"; "-i"; "f"] 0
      DecipherVec.cmdopts0 w.
Proof.
  intros w. split; [reflexivity|]. split; [reflexivity|].
  apply (combined_switches_split "nl" "p" ["-i"; "f"] 0 Encipher.cmdopts0
           Decipher.cmdopts0 DecipherVec.cmdopts0 w); reflexivity.
Defined.

Lemma filename_from_no_slash name cur :
  string_forallb (λ c, negb (is_slash c)) name = true →
  filename_from name cur = cur ++ name.
Proof.
  revert cur. induction name as [|c name IH]; intros cur H.
  - by rewrite append_empty_r.
  - cbn [filename_from string_forallb] in *. unfold is_slash in H.
    apply andb_true_iff in H as [Hc Hn].
    destruct (Ascii.eqb c "/"); [done|].
    rewrite IH by done. by rewrite append_assoc.
Qed.

Lemma filename_from_slash dir name cur :
  string_forallb (λ c, negb (is_slash c)) name = true →
  filename_from (dir ++ String "/" name) cur = name.
Proof.
  intros Hn. revert cur. induction dir as [|c dir IH]; intros cur.
  - change ("" ++ String "/" name) with (String "/" name).
    cbn [filename_from]. change (Ascii.eqb "/" "/") with true. cbv iota.
    by rewrite filename_from_no_slash.
  - change (String c dir ++ ?s) with (String c (dir ++ s)).
    cbn [filename_from]. destruct (Ascii.eqb c "/"); apply IH.
Qed.

(** X16.  Without arguments the three programs print the usage under the
    name of the program without its directories (what follows the last
    slash of [args[0]]) and end with status 0. *)
Theorem usage_names_program_without_directory
    (dir name : string) (w : world) :
  string_forallb (λ c, negb (is_slash c)) name = true →
  Encipher.main [dir ++ String "/" name] w = Exit 0 (print (PrintUsage name) w) ∧
  Decipher.main [dir ++ String "/" name] w = Exit 0 (print (PrintUsage name) w) ∧
  DecipherVec.main [dir ++ String "/" name] w = Exit 0 (print (PrintUsage name) w).
Proof.
  intros Hn.
  unfold Encipher.main, Decipher.main, DecipherVec.main,
    Encipher.parseCommandLine, Decipher.parseCommandLine,
    DecipherVec.parseCommandLine, path_filename.
  cbn. by rewrite !filename_from_slash.
Qed.

Lemma usage_names_program_without_directory_witness :
  let w := mkWorld ∅ ∅ [] in
  string_forallb (λ c, negb (is_slash c)) "encipher" = true ∧
  Encipher.main ["/usr/local/bin" ++ String "/" "encipher"] w
  = Exit 0 (print (PrintUsage "encipher") w) ∧
  Decipher.main ["/usr/local/bin" ++ String "/" "encipher"] w
  = Exit 0 (print (PrintUsage "encipher") w) ∧
  DecipherVec.main ["/usr/local/bin" ++ String "/" "encipher"] w
  = Exit 0 (print (PrintUsage "encipher") w).
Proof.
  intros w. split; [reflexivity|].
  apply (usage_names_program_without_directory "/usr/local/bin" "encipher" w).
  reflexivity.
Defined.

(** ** Whole runs *)

(** A dash followed by switch characters is none of the long names. *)
Lemma flags_token_not_long body (long_names : list string) :
  string_forallb flag_char body = true →
  Forall (λ t, String.get 1 t = Some "-"%char) long_names →
  bool_decide (String "-" body ∈ long_names) = false.
Proof.
  intros Hb Hl. apply bool_decide_eq_false. intros Hin.
  rewrite Forall_forall in Hl. specialize (Hl _ Hin).
  destruct body as [|c body]; [done|].
  cbn in Hl. injection Hl as ->. done.
Qed.

Lemma token_sets_flags on long_names body :
  string_forallb flag_char body = true →
  Forall (λ t, String.get 1 t = Some "-"%char) long_names →
  token_sets on long_names (String "-" body) = string_existsb on body.
Proof.
  intros Hb Hl. unfold token_sets.
  rewrite flags_token_not_long by done.
  destruct (flag_char_facts body Hb) as (_ & _ & Hd).
  cbn [dash_led string_rest orb]. by rewrite Hd.
Qed.

(** The encipher loop on a well-formed beginning of the command line, every
    member of the options told. *)
Lemma enc_parse_items_options items more :
  forallb item_ok items = true →
  ∀ pr o w,
    Encipher.parse_options (render items ++ more) pr o w
    = Encipher.parse_options more pr
        (Encipher.mkCipherOptions
           (Encipher.program_name o) (Encipher.prog_name_stripped o)
           (last_ifile items (Encipher.infilename o))
           (last_ofile items (Encipher.outfilename o))
           (Encipher.use_default_oname o && negb (existsb item_is_ofile items))
           (last_shift items (Encipher.shift_amount o))
           (Encipher.effective_shift o) (Encipher.numbers_shift o)
           (Encipher.puncts_shift o)
           (Encipher.enc_numbers o || items_digits items)
           (Encipher.enc_puncts o || items_puncts items)
           (Encipher.cipher_dict o) (Encipher.nbytes_file o)
           (Encipher.display_log_info o || items_log items)) w.
Proof.
  induction items as [|it items IH]; intros Hok pr o w.
  - cbn. rewrite andb_true_r, !orb_false_r. by destruct o.
  - simpl in Hok. apply andb_true_iff in Hok as [Hit Hok].
    specialize (IH Hok). unfold render. simpl flat_map. fold (render items).
    rewrite <- app_assoc.
    unfold items_digits, items_puncts, items_log in *.
    destruct it as [long path|long path|long text|tok];
      cbn [render_item app existsb item_is_ofile item_sets last_ifile
           last_ofile last_shift orb negb].
    + destruct long; cbn [Encipher.parse_options]; simpl; by rewrite IH.
    + destruct long; cbn [Encipher.parse_options]; simpl; rewrite IH;
        cbn; by rewrite andb_false_r.
    + simpl in Hit. destruct (stoi text) as [e|n] eqn:Hs; [done|].
      destruct long; cbn [Encipher.parse_options]; simpl; rewrite Hs;
        by rewrite IH.
    + simpl in Hit.
      apply switch_token_cases in Hit as [->|[->|[->|(body & -> & Hb)]]].
      { change (Encipher.parse_options (_ :: render items ++ more) pr o w)
          with (Encipher.parse_options (render items ++ more) pr
                  (Encipher.set_enc_puncts true o) w).
        rewrite IH. cbn. by rewrite orb_true_r. }
      { change (Encipher.parse_options (_ :: render items ++ more) pr o w)
          with (Encipher.parse_options (render items ++ more) pr
                  (Encipher.set_enc_puncts true
                     (Encipher.set_enc_numbers true o)) w).
        rewrite IH. cbn. by rewrite !orb_true_r. }
      { change (Encipher.parse_options (_ :: render items ++ more) pr o w)
          with (Encipher.parse_options (render items ++ more) pr
                  (Encipher.set_display_log_info true o) w).
        rewrite IH. cbn. by rewrite orb_true_r. }
      rewrite enc_parse_options_flags by done.
      rewrite IH. unfold enc_with_flags. cbn.
      rewrite !token_sets_flags by (done || by repeat constructor).
      by rewrite !orb_assoc.
Qed.

(** [generateCipherDict] on options whose class shifts and dictionary are
    as [main] initialises them builds the dictionary of the shift and the
    enabled classes, and changes nothing the later steps read. *)
Lemma enc_generateCipherDict_table o :
  Encipher.numbers_shift o = 0 → Encipher.puncts_shift o = 0 →
  Encipher.cipher_dict o = ∅ →
  ∃ o',
    Encipher.generateCipherDict o = Some o' ∧
    encipher_table (Encipher.shift_amount o) (Encipher.enc_numbers o)
      (Encipher.enc_puncts o) = Some (Encipher.cipher_dict o') ∧
    Encipher.infilename o' = Encipher.infilename o ∧
    Encipher.outfilename o' = Encipher.outfilename o ∧
    Encipher.use_default_oname o' = Encipher.use_default_oname o ∧
    Encipher.shift_amount o' = Encipher.shift_amount o ∧
    Encipher.nbytes_file o' = Encipher.nbytes_file o ∧
    Encipher.display_log_info o' = Encipher.display_log_info o.
Proof.
  destruct o as [pn pns inf outf udo k eff ns ps nums puncts dict nb log].
  cbn. intros -> -> ->.
  rewrite encipher_table_eq.
  unfold Encipher.generateCipherDict, class_rotation.
  cbn [Encipher.shift_amount Encipher.enc_numbers Encipher.enc_puncts].
  rewrite (calculateEffectiveShift_mod 26) by done. simpl.
  destruct nums, puncts; simpl;
    rewrite ?(calculateEffectiveShift_mod (Z.of_nat 10)) by done; simpl;
    rewrite ?(calculateEffectiveShift_mod (Z.of_nat 32)) by done; simpl;
    eexists; (split; [reflexivity|done]).
Qed.

(** A run of [encipherFileText] that writes, with all it leaves. *)
Lemma enc_encipherFileText_run o w content :
  let fulloname :=
    if Encipher.use_default_oname o then Encipher.infilename o ++ ".ciph"
    else Encipher.outfilename o in
  let count := Z.of_nat (String.length content - count_newlines content) in
  file_at w (Encipher.infilename o) = Some content →
  can_open_for_writing fulloname w = true →
  resolve w fulloname ≠ resolve w (Encipher.infilename o) →
  Encipher.cipher_dict o !! chr 10 = None →
  Encipher.encipherFileText o w
  = Returns tt
      (Encipher.set_nbytes_file (Encipher.nbytes_file o + count) o,
       mkFileSystem
         (<[resolve w fulloname :=
              transform_line (Encipher.cipher_dict o) (newline_ended content)]>
            (files w))
         (unwritable w)
         (console w ++ if Encipher.display_log_info o then []
                       else [PrintCharsRead count])%list
         (links w)).
Proof.
  intros fulloname count Hin Hopen Hne Hnl. unfold Encipher.encipherFileText.
  rewrite Hin. fold fulloname. rewrite open_ofstream_opened by done.
  rewrite file_at_truncated_other by done. rewrite Hin.
  change (default "" (Some content)) with content.
  pose proof (transform_lines_getlines _ content "" false Hnl (λ _, eq_refl)) as Hw.
  pose proof (count_getlines (Encipher.cipher_dict o) content "" false
                (λ _, eq_refl)) as Hc.
  destruct (transform_lines (Encipher.cipher_dict o) (getlines content "" false))
    as [written n].
  cbn [fst snd] in Hw, Hc. subst written n.
  change ("" ++ content) with content.
  rewrite <- transform_line_newline_ended by done.
  change (String.length "" + String.length content)%nat
    with (String.length content).
  fold count. f_equal. f_equal.
  cbn [Encipher.display_log_info Encipher.set_nbytes_file].
  unfold write_file, print. cbn [files unwritable console links].
  repeat match goal with
         | |- context [resolve (mkFileSystem ?f ?u ?c (links w)) ?q] =>
             change (resolve (mkFileSystem f u c (links w)) q) with (resolve w q)
         end.
  rewrite insert_insert_eq.
  destruct (Encipher.display_log_info o); cbn [negb files unwritable console];
    [by rewrite app_nil_r | done].
Qed.

(** The encipher program on a well-formed command line. *)
Lemma enc_main_run progname items w content :
  let ifile := last_ifile items "" in
  let ofile :=
    if existsb item_is_ofile items then last_ofile items ""
    else ifile ++ ".ciph" in
  let count := Z.of_nat (String.length content - count_newlines content) in
  items ≠ [] → forallb item_ok items = true →
  file_at w ifile = Some content →
  can_open_for_writing ofile w = true → resolve w ofile ≠ resolve w ifile →
  ∃ enc,
    encipher_table (last_shift items 5) (items_digits items) (items_puncts items)
    = Some enc ∧
    Encipher.main (progname :: render items) w
    = Exit 0
        (mkFileSystem
           (<[resolve w ofile := transform_line enc (newline_ended content)]> (files w))
           (unwritable w)
           (console w ++
              [if items_log items
               then PrintLogInfo ifile (last_ofile items "")
                      (last_shift items 5) count
               else PrintCharsRead count])%list
           (links w)).
Proof.
  intros ifile ofile count Hne Hok Hin Hopen Hdiff.
  unfold Encipher.main.
  rewrite enc_parseCommandLine_options by by apply render_nonempty.
  rewrite <- (app_nil_r (render items)).
  rewrite enc_parse_items_options by done.
  cbn [Encipher.parse_options Z.eqb].
  match goal with
  | |- context [Encipher.generateCipherDict ?o] =>
      destruct (enc_generateCipherDict_table o eq_refl eq_refl eq_refl)
        as (o' & -> & Htab & Hi & Ho & Hd & Hs & Hn & Hl)
  end.
  cbn in Htab, Hi, Ho, Hd, Hs, Hn, Hl.
  exists (Encipher.cipher_dict o'). split; [done|].
  assert ((if Encipher.use_default_oname o'
           then Encipher.infilename o' ++ ".ciph"
           else Encipher.outfilename o') = ofile) as Hname.
  { rewrite Hd, Hi, Ho. unfold ofile, ifile.
    by destruct (existsb item_is_ofile items). }
  assert (Encipher.cipher_dict o' !! chr 10 = None) as Hnl.
  { eapply encipher_outside; [done|]. apply newline_outside_classes. }
  rewrite (enc_encipherFileText_run o' w content); rewrite ?Hname, ?Hi; try done.
  cbn [Encipher.display_log_info Encipher.set_nbytes_file].
  rewrite Hl. f_equal. fold count.
  destruct (items_log items); cbn.
  - unfold Encipher.printLogInfo, print. cbn.
    rewrite app_nil_r, Hi, Ho, Hs, Hn. done.
  - done.
Qed.

(** X17.  The encipher program on a well-formed command line: with the
    last [-i] file present and the output path (the last [-o] file, or the
    input name with [.ciph] when there is no [-o]) resolving to another
    file that can be opened, [main] ends with status 0; the output file holds the text
    enciphered with the dictionary of the last [-s] shift (5 without [-s])
    and of the classes the switches enable, no other file changes, and one
    display is printed: the log when a switch asks for it, the number of
    characters read otherwise. *)
Theorem encipher_run_on_well_formed_command_line
    (progname : string) (items : list cmd_item) (w : world) (content : string) :
  let ifile := last_ifile items "" in
  let ofile :=
    if existsb item_is_ofile items then last_ofile items ""
    else ifile ++ ".ciph" in
  let count := Z.of_nat (String.length content - count_newlines content) in
  items ≠ [] → forallb item_ok items = true →
  file_at w ifile = Some content →
  can_open_for_writing ofile w = true → resolve w ofile ≠ resolve w ifile →
  ∃ enc,
    encipher_table (last_shift items 5) (items_digits items) (items_puncts items)
    = Some enc ∧
    Encipher.main (progname :: render items) w
    = Exit 0
        (mkFileSystem
           (<[resolve w ofile := transform_line enc (newline_ended content)]> (files w))
           (unwritable w)
           (console w ++
              [if items_log items
               then PrintLogInfo ifile (last_ofile items "")
                      (last_shift items 5) count
               else PrintCharsRead count])%list
           (links w)).
Proof. apply enc_main_run. Qed.

Lemma encipher_run_on_well_formed_command_line_witness :
  let items :=
    [ItemShift false "-3"; ItemSwitch "-nl"; ItemIfile true "memo.txt"] in
  let w :=
    mkFileSystem {[ "memo.txt" := "Room 101" ]} ∅ []
      {[ "./memo.txt" := "memo.txt" ]} in
  items ≠ [] ∧ forallb item_ok items = true ∧
  file_at w "memo.txt" = Some "Room 101" ∧
  can_open_for_writing "memo.txt.ciph" w = true ∧
  resolve w "memo.txt.ciph" ≠ resolve w "memo.txt" ∧
  ∃ enc,
    encipher_table (last_shift items 5) (items_digits items) (items_puncts items)
    = Some enc ∧
    Encipher.main ("enc" :: render items) w
    = Exit 0
        (mkFileSystem
           (<[resolve w "memo.txt.ciph" := transform_line enc (newline_ended "Room 101")]>
              (files w))
           (unwritable w)
           (console w ++
              [if items_log items
               then PrintLogInfo "memo.txt" (last_ofile items "")
                      (last_shift items 5)
                      (Z.of_nat (String.length "Room 101"
                                 - count_newlines "Room 101"))
               else PrintCharsRead
                      (Z.of_nat (String.length "Room 101"
                                 - count_newlines "Room 101"))])%list
           (links w)).
Proof.
  intros items w.
  split; [discriminate|]. split; [reflexivity|]. split; [reflexivity|].
  split; [reflexivity|]. split; [vm_compute; discriminate|].
  apply (encipher_run_on_well_formed_command_line "enc" items w "Room 101");
    [discriminate | reflexivity | reflexivity | reflexivity
    | vm_compute; discriminate].
Defined.

(** The flags after a run of switch characters in the first decipher
    source. *)
Lemma dec_single_char_loop_flags chars code f o :
  string_forallb flag_char chars = true →
  ∃ f', Decipher.single_char_loop chars code (Decipher.set_decipher_flags f o)
        = (code, Decipher.set_decipher_flags f' o) ∧
        flag f' 1 = flag f 1 ∧
        flag f' 2 = flag f 2 || string_existsb sets_digits chars ∧
        flag f' 3 = flag f 3 || string_existsb sets_puncts chars ∧
        flag f' 7 = flag f 7 || string_existsb sets_log chars.
Proof.
  revert f. induction chars as [|c chars IH]; intros f Hc.
  - exists f. cbn. by rewrite !orb_false_r.
  - simpl in Hc. apply andb_true_iff in Hc as [Hc Hcs].
    unfold flag_char in Hc. rewrite !orb_true_iff, !Ascii.eqb_eq in Hc.
    cbn [Decipher.single_char_loop string_existsb].
    destruct Hc as [[[->| ->]| ->]| ->]; simpl Ascii.eqb; cbv iota;
      rewrite !dec_set_flag_flags;
      match goal with
      | |- context [Decipher.single_char_loop chars code
                      (Decipher.set_decipher_flags ?f1 o)] =>
          destruct (IH f1 Hcs) as (f' & Heq & H1 & H2 & H3 & H7)
      end;
      exists f'; (split; [exact Heq|]);
      rewrite H1, H2, H3, H7, ?flag_flag_set by lia;
      cbn [Z.eqb Pos.eqb orb andb negb sets_digits sets_puncts sets_log
           Ascii.eqb Bool.eqb];
      rewrite ?orb_true_r; done.
Qed.

Lemma dec_parse_deque_flags_token body rest pr o :
  string_forallb flag_char body = true →
  ∃ f', Decipher.parse_deque (String "-" body :: rest) pr o
        = Decipher.parse_deque rest Decipher.CMDLN_OK
            (Decipher.set_decipher_flags f' o) ∧
        flag f' 1 = flag (Decipher.decipher_flags o) 1 ∧
        flag f' 2 = flag (Decipher.decipher_flags o) 2
                    || string_existsb sets_digits body ∧
        flag f' 3 = flag (Decipher.decipher_flags o) 3
                    || string_existsb sets_puncts body ∧
        flag f' 7 = flag (Decipher.decipher_flags o) 7
                    || string_existsb sets_log body.
Proof.
  intros Hb. destruct (flag_char_facts body Hb) as (Hr & Hh & Hd).
  rewrite dec_parse_deque_single by by apply flags_not_exact_option.
  rewrite dec_parseSingleCharOptions_dash by done.
  destruct (dec_single_char_loop_flags body Decipher.CMDLN_OK
              (Decipher.decipher_flags o) o Hb) as (f' & Heq & H1).
  rewrite dec_set_decipher_flags_id in Heq. rewrite Heq.
  by exists f'.
Qed.

(** The loop of the first decipher source on a well-formed beginning of
    the command line, every member of the options told. *)
Lemma dec_parse_items_options items more :
  forallb item_ok items = true →
  ∀ o, ∃ f',
    Decipher.parse_deque (render items ++ more) Decipher.CMDLN_OK o
    = Decipher.parse_deque more Decipher.CMDLN_OK
        (Decipher.mkDecipherCtrlOpts
           (Decipher.program_name o) (Decipher.prog_name_stripped o)
           (last_ifile items (Decipher.infilename o))
           (last_ofile items (Decipher.outfilename o))
           (last_shift items (Decipher.orig_shift_len o))
           (Decipher.reduced_shift_len o) (Decipher.digits_shift_len o)
           (Decipher.puncts_shift_len o) (Decipher.cipher_dict o)
           (Decipher.nbytes_file o) f') ∧
    flag f' 1 = flag (Decipher.decipher_flags o) 1
                && negb (existsb item_is_ofile items) ∧
    flag f' 2 = flag (Decipher.decipher_flags o) 2 || items_digits items ∧
    flag f' 3 = flag (Decipher.decipher_flags o) 3 || items_puncts items ∧
    flag f' 7 = flag (Decipher.decipher_flags o) 7 || items_log items.
Proof.
  induction items as [|it items IH]; intros Hok o.
  - exists (Decipher.decipher_flags o). cbn.
    rewrite andb_true_r, !orb_false_r. by destruct o.
  - simpl in Hok. apply andb_true_iff in Hok as [Hit Hok].
    specialize (IH Hok). unfold render. simpl flat_map. fold (render items).
    rewrite <- app_assoc.
    unfold items_digits, items_puncts, items_log in *.
    destruct it as [long path|long path|long text|tok];
      cbn [render_item app existsb item_is_ofile item_sets last_ifile
           last_ofile last_shift orb negb].
    + destruct (IH (Decipher.set_infilename path o)) as (f' & Heq & Hf).
      exists f'. split; [|exact Hf].
      destruct long; cbn [Decipher.parse_deque]; simpl; exact Heq.
    + destruct (IH (Decipher.set_flag 1 false (Decipher.set_outfilename path o)))
        as (f' & Heq & H1 & H2 & H3 & H7).
      exists f'. split; [destruct long; cbn [Decipher.parse_deque]; simpl; exact Heq|].
      cbn [Decipher.set_flag Decipher.decipher_flags Decipher.set_decipher_flags
           Decipher.set_outfilename] in H1, H2, H3, H7.
      flag_simpl H1. flag_simpl H2. flag_simpl H3. flag_simpl H7.
      by rewrite andb_false_r.
    + simpl in Hit. destruct (stoi text) as [e|n] eqn:Hs; [done|].
      destruct (IH (Decipher.set_orig_shift_len n o)) as (f' & Heq & Hf).
      exists f'. split; [|exact Hf].
      destruct long; cbn [Decipher.parse_deque]; simpl; rewrite Hs; exact Heq.
    + simpl in Hit.
      apply switch_token_cases in Hit as [->|[->|[->|(body & -> & Hb)]]].
      { destruct (IH (Decipher.set_flag 3 true o)) as (f' & Heq & H1 & H2 & H3 & H7).
        exists f'. split; [exact Heq|].
        cbn [Decipher.set_flag Decipher.decipher_flags Decipher.set_decipher_flags]
          in H1, H2, H3, H7.
        flag_simpl H1. flag_simpl H2. flag_simpl H3. flag_simpl H7.
        cbn. by rewrite orb_true_r. }
      { destruct (IH (Decipher.set_flag 3 true (Decipher.set_flag 2 true o)))
          as (f' & Heq & H1 & H2 & H3 & H7).
        exists f'. split; [exact Heq|].
        cbn [Decipher.set_flag Decipher.decipher_flags Decipher.set_decipher_flags]
          in H1, H2, H3, H7.
        flag_simpl H1. flag_simpl H2. flag_simpl H3. flag_simpl H7.
        cbn. by rewrite !orb_true_r. }
      { destruct (IH (Decipher.set_flag 7 true o)) as (f' & Heq & H1 & H2 & H3 & H7).
        exists f'. split; [exact Heq|].
        cbn [Decipher.set_flag Decipher.decipher_flags Decipher.set_decipher_flags]
          in H1, H2, H3, H7.
        flag_simpl H1. flag_simpl H2. flag_simpl H3. flag_simpl H7.
        cbn. by rewrite orb_true_r. }
      destruct (dec_parse_deque_flags_token body (render items ++ more)
                  Decipher.CMDLN_OK o Hb) as (f1 & -> & G1 & G2 & G3 & G7).
      destruct (IH (Decipher.set_decipher_flags f1 o))
        as (f' & Heq & H1 & H2 & H3 & H7).
      exists f'. split; [exact Heq|].
      cbn [Decipher.decipher_flags Decipher.set_decipher_flags] in H1, H2, H3, H7.
      rewrite H1, H2, H3, H7, G1, G2, G3, G7.
      rewrite !token_sets_flags by (done || by repeat constructor).
      by rewrite !orb_assoc.
Qed.

Lemma dec_generateCipherDict_table o :
  Decipher.digits_shift_len o = 0 → Decipher.puncts_shift_len o = 0 →
  Decipher.cipher_dict o = ∅ →
  ∃ o',
    Decipher.generateCipherDict o = Some o' ∧
    decipher_table (Decipher.orig_shift_len o)
      (flag (Decipher.decipher_flags o) 2) (flag (Decipher.decipher_flags o) 3)
    = Some (Decipher.cipher_dict o') ∧
    Decipher.infilename o' = Decipher.infilename o ∧
    Decipher.outfilename o' = Decipher.outfilename o ∧
    Decipher.decipher_flags o' = Decipher.decipher_flags o ∧
    Decipher.orig_shift_len o' = Decipher.orig_shift_len o ∧
    Decipher.nbytes_file o' = Decipher.nbytes_file o.
Proof.
  destruct o as [pn pns inf outf k red ds ps dict nb f].
  cbn [Decipher.digits_shift_len Decipher.puncts_shift_len Decipher.cipher_dict].
  intros -> -> ->.
  rewrite decipher_table_eq.
  unfold Decipher.generateCipherDict, class_rotation.
  cbn [Decipher.orig_shift_len Decipher.decipher_flags].
  rewrite (calcReducedShift_mod 26) by done. simpl.
  destruct (flag f 2); simpl;
    rewrite ?(calcReducedShift_mod (Z.of_nat 10)) by done; simpl;
    (destruct (flag f 3); simpl;
     rewrite ?(calcReducedShift_mod (Z.of_nat 32)) by done; simpl);
    eexists; (split; [reflexivity|done]).
Qed.

(** A run of [decipherFileText] that writes, with all it leaves. *)
Lemma dec_decipherFileText_run o w content text :
  let count := Z.of_nat (String.length text - count_newlines text) in
  flag (Decipher.decipher_flags o) 1 = false →
  file_at w (Decipher.infilename o) = Some content →
  can_open_for_writing (Decipher.outfilename o) w = true →
  (resolve w (Decipher.outfilename o) ≠ resolve w (Decipher.infilename o)
   ∧ text = content
   ∨ resolve w (Decipher.outfilename o) = resolve w (Decipher.infilename o)
     ∧ text = "") →
  Decipher.cipher_dict o !! chr 10 = None →
  Decipher.decipherFileText o w
  = Returns tt
      (Decipher.set_nbytes_file (Decipher.nbytes_file o + count) o,
       mkFileSystem
         (<[resolve w (Decipher.outfilename o) :=
              transform_line (Decipher.cipher_dict o) (newline_ended text)]>
            (files w))
         (unwritable w)
         (console w ++ if flag (Decipher.decipher_flags o) 7 then []
                       else [PrintCharsRead count])%list
         (links w)).
Proof.
  intros count Hf Hin Hopen Hcase Hnl. unfold Decipher.decipherFileText.
  rewrite Hin, Hf. rewrite open_ofstream_opened by done.
  cbn [negb].
  match goal with
  | |- context [file_at ?w1 (Decipher.infilename o)] =>
      assert (file_at w1 (Decipher.infilename o) = Some text) as ->
  end.
  { destruct Hcase as [[Hne ->]|[He ->]];
      [by rewrite file_at_truncated_other | by apply file_at_truncated_same]. }
  change (default "" (Some text)) with text.
  pose proof (transform_lines_getlines _ text "" false Hnl (λ _, eq_refl)) as Hw.
  pose proof (count_getlines (Decipher.cipher_dict o) text "" false
                (λ _, eq_refl)) as Hc.
  destruct (transform_lines (Decipher.cipher_dict o) (getlines text "" false))
    as [written n].
  cbn [fst snd] in Hw, Hc. subst written n.
  change ("" ++ text) with text.
  rewrite <- transform_line_newline_ended by done.
  change (String.length "" + String.length text)%nat
    with (String.length text).
  fold count. f_equal. f_equal.
  cbn [Decipher.decipher_flags Decipher.set_nbytes_file].
  unfold write_file, print. cbn [files unwritable console links].
  repeat match goal with
         | |- context [resolve (mkFileSystem ?f ?u ?c (links w)) ?q] =>
             change (resolve (mkFileSystem f u c (links w)) q) with (resolve w q)
         end.
  rewrite insert_insert_eq.
  destruct (flag (Decipher.decipher_flags o) 7);
    cbn [negb files unwritable console]; [by rewrite app_nil_r | done].
Qed.

(** The first decipher source on a well-formed command line with an [-o]
    option. *)
Lemma dec_main_run progname items w content text :
  let ifile := last_ifile items "" in
  let ofile := last_ofile items "" in
  let count := Z.of_nat (String.length text - count_newlines text) in
  forallb item_ok items = true →
  existsb item_is_ofile items = true →
  file_at w ifile = Some content →
  can_open_for_writing ofile w = true →
  (resolve w ofile ≠ resolve w ifile ∧ text = content
   ∨ resolve w ofile = resolve w ifile ∧ text = "") →
  ∃ dec,
    decipher_table (last_shift items 5) (items_digits items) (items_puncts items)
    = Some dec ∧
    Decipher.main (progname :: render items) w
    = Exit 0
        (mkFileSystem
           (<[resolve w ofile := transform_line dec (newline_ended text)]> (files w))
           (unwritable w)
           (console w ++
              [if items_log items
               then PrintLogInfo ifile ofile (last_shift items 5) count
               else PrintCharsRead count])%list
           (links w)).
Proof.
  intros ifile ofile count Hok Hofile Hin Hopen Hdiff.
  assert (items ≠ []) as Hne by (by intros ->).
  unfold Decipher.main.
  rewrite dec_parseCommandLine_options by by apply render_nonempty.
  rewrite <- (app_nil_r (render items)).
  destruct (dec_parse_items_options items [] Hok
              (Decipher.set_prog_name_stripped (path_filename progname)
                 (Decipher.set_program_name progname Decipher.cmdopts0)))
    as (f' & -> & H1 & H2 & H3 & H7).
  cbn [Decipher.decipher_flags Decipher.set_prog_name_stripped
       Decipher.set_program_name Decipher.cmdopts0] in H1, H2, H3, H7.
  rewrite Hofile in H1.
  change (flag 64 1) with false in H1. change (flag 64 2) with false in H2.
  change (flag 64 3) with false in H3. change (flag 64 7) with false in H7.
  cbn [andb orb negb] in H1, H2, H3, H7.
  cbn [Decipher.parse_deque].
  match goal with
  | |- context [Decipher.generateCipherDict ?o] =>
      destruct (dec_generateCipherDict_table o eq_refl eq_refl eq_refl)
        as (o' & -> & Htab & Hi & Ho & Hfl & Hs & Hn)
  end.
  cbn [Decipher.infilename Decipher.outfilename Decipher.decipher_flags
       Decipher.orig_shift_len Decipher.nbytes_file Decipher.cmdopts0
       Decipher.set_prog_name_stripped Decipher.set_program_name]
    in Htab, Hi, Ho, Hfl, Hs, Hn.
  rewrite H2, H3 in Htab.
  exists (Decipher.cipher_dict o'). split; [done|].
  assert (Decipher.cipher_dict o' !! chr 10 = None) as Hnl.
  { eapply decipher_outside; [done|]. apply newline_outside_classes. }
  rewrite (dec_decipherFileText_run o' w content text);
    rewrite ?Hfl, ?Hi, ?Ho; try done.
  cbn [Decipher.decipher_flags Decipher.set_nbytes_file].
  rewrite Hfl, H7. f_equal. fold count. fold ofile.
  destruct (items_log items); cbn.
  - unfold Decipher.printLogInfo, print. cbn.
    rewrite app_nil_r, Hi, Ho, Hs, Hn. done.
  - done.
Qed.

(** X18.  The first decipher source on a well-formed command line with an
    [-o] option: with the last [-i] file present and the last [-o] path
    resolving to another file that can be opened, [main] ends with status 0; the output
    file holds the text deciphered with the dictionary of the last [-s]
    shift (5 without [-s]) and of the classes the switches enable, no other
    file changes, and one display is printed: the log when a switch asks
    for it, the number of characters read otherwise. *)
Theorem decipher_run_on_well_formed_command_line
    (progname : string) (items : list cmd_item) (w : world) (content : string) :
  let ifile := last_ifile items "" in
  let ofile := last_ofile items "" in
  let count := Z.of_nat (String.length content - count_newlines content) in
  forallb item_ok items = true →
  existsb item_is_ofile items = true →
  file_at w ifile = Some content →
  can_open_for_writing ofile w = true → resolve w ofile ≠ resolve w ifile →
  ∃ dec,
    decipher_table (last_shift items 5) (items_digits items) (items_puncts items)
    = Some dec ∧
    Decipher.main (progname :: render items) w
    = Exit 0
        (mkFileSystem
           (<[resolve w ofile := transform_line dec (newline_ended content)]> (files w))
           (unwritable w)
           (console w ++
              [if items_log items
               then PrintLogInfo ifile ofile (last_shift items 5) count
               else PrintCharsRead count])%list
           (links w)).
Proof.
  intros ifile ofile count Hok Hofile Hin Hopen Hdiff.
  apply (dec_main_run progname items w content content); try done.
  by left.
Qed.

Lemma decipher_run_on_well_formed_command_line_witness :
  let items :=
    [ItemShift false "-3"; ItemSwitch "--shift-all"; ItemIfile true "memo.ciph";
     ItemOfile false "memo.txt"] in
  let w :=
    mkFileSystem {[ "memo.ciph" := "Oljj 878" ]} ∅ []
      {[ "./memo.ciph" := "memo.ciph" ]} in
  forallb item_ok items = true ∧
  existsb item_is_ofile items = true ∧
  file_at w "memo.ciph" = Some "Oljj 878" ∧
  can_open_for_writing "memo.txt" w = true ∧
  resolve w "memo.txt" ≠ resolve w "memo.ciph" ∧
  ∃ dec,
    decipher_table (last_shift items 5) (items_digits items) (items_puncts items)
    = Some dec ∧
    Decipher.main ("dec" :: render items) w
    = Exit 0
        (mkFileSystem
           (<[resolve w "memo.txt" := transform_line dec (newline_ended "Oljj 878")]>
              (files w))
           (unwritable w)
           (console w ++
              [if items_log items
               then PrintLogInfo "memo.ciph" "memo.txt" (last_shift items 5)
                      (Z.of_nat (String.length "Oljj 878"
                                 - count_newlines "Oljj 878"))
               else PrintCharsRead
                      (Z.of_nat (String.length "Oljj 878"
                                 - count_newlines "Oljj 878"))])%list
           (links w)).
Proof.
  intros items w.
  split; [reflexivity|]. split; [reflexivity|]. split; [reflexivity|].
  split; [reflexivity|]. split; [vm_compute; discriminate|].
  apply (decipher_run_on_well_formed_command_line "dec" items w "Oljj 878");
    [reflexivity | reflexivity | reflexivity | reflexivity
    | vm_compute; discriminate].
Defined.

(** X19.  A round trip through the two command lines: the encipher program
    run on well-formed options and then the first decipher source run on
    well-formed options with the same shift and the same classes, the
    enciphered file as its input and an [-o] option, both end with status 0
    and the deciphered file is the original text, with a newline added when
    its last line had none; the enciphered file must be another file than
    the input and the deciphered file another file than the enciphered
    one. *)
Theorem command_line_round_trip
    (prog_enc prog_dec : string) (items_enc items_dec : list cmd_item)
    (w : world) (content : string) :
  let ifile := last_ifile items_enc "" in
  let cfile :=
    if existsb item_is_ofile items_enc then last_ofile items_enc ""
    else ifile ++ ".ciph" in
  let pfile := last_ofile items_dec "" in
  items_enc ≠ [] → forallb item_ok items_enc = true →
  forallb item_ok items_dec = true →
  existsb item_is_ofile items_dec = true →
  resolve w (last_ifile items_dec "") = resolve w cfile →
  last_shift items_dec 5 = last_shift items_enc 5 →
  items_digits items_dec = items_digits items_enc →
  items_puncts items_dec = items_puncts items_enc →
  file_at w ifile = Some content →
  can_open_for_writing cfile w = true → resolve w cfile ≠ resolve w ifile →
  can_open_for_writing pfile w = true → resolve w pfile ≠ resolve w cfile →
  ∃ w1 w2,
    Encipher.main (prog_enc :: render items_enc) w = Exit 0 w1 ∧
    Decipher.main (prog_dec :: render items_dec) w1 = Exit 0 w2 ∧
    file_at w2 pfile = Some (newline_ended content).
Proof.
  intros ifile cfile pfile Hne Hoke Hokd Hofile Hcfile Hshift Hdig Hpun
    Hin Hopen1 Hdiff1 Hopen2 Hdiff2.
  destruct (enc_main_run prog_enc items_enc w content Hne Hoke Hin Hopen1 Hdiff1)
    as (enc & Henc & Hrun1).
  fold ifile cfile in Hrun1.
  set (ciphertext := transform_line enc (newline_ended content)) in *.
  match type of Hrun1 with _ = Exit 0 ?x => set (w1 := x) in * end.
  assert (∀ q, resolve w1 q = resolve w q) as Hres by done.
  assert (file_at w1 (last_ifile items_dec "") = Some ciphertext) as Hin2.
  { unfold file_at. rewrite Hres, Hcfile. apply lookup_insert_eq. }
  assert (can_open_for_writing (last_ofile items_dec "") w1 = true) as Hopen2'
    by exact Hopen2.
  assert (resolve w1 (last_ofile items_dec "")
          ≠ resolve w1 (last_ifile items_dec "")) as Hdiff2'
    by by rewrite !Hres, Hcfile.
  destruct (dec_main_run prog_dec items_dec w1 ciphertext ciphertext Hokd Hofile
              Hin2 Hopen2' (or_introl (conj Hdiff2' eq_refl)))
    as (dec & Hdec & Hrun2).
  rewrite Hshift, Hdig, Hpun in Hdec.
  eexists _, _. split; [exact Hrun1|]. split; [exact Hrun2|].
  unfold file_at.
  match goal with
  | |- files ?w2 !! resolve ?w2 ?q = _ =>
      change (resolve w2 q) with (resolve w1 q)
  end.
  cbn [files]. rewrite lookup_insert_eq. f_equal.
  destruct (tables_keep_newline _ _ _ _ _ Henc Hdec) as (_ & _ & Hkeep & _).
  unfold newline_ended at 1. unfold ciphertext at 2.
  rewrite (unterminated_transform_line enc (newline_ended content) false Hkeep),
    unterminated_newline_ended.
  rewrite append_empty_r. unfold ciphertext.
  exact (roundtrip_line _ _ _ enc dec Henc Hdec _).
Qed.

Lemma command_line_round_trip_witness :
  let items_enc :=
    [ItemIfile false "memo"; ItemShift false "-80"; ItemSwitch "-n"] in
  let items_dec :=
    [ItemSwitch "-n"; ItemShift true "-80"; ItemIfile true "./memo.ciph";
     ItemOfile false "memo.back"] in
  let w :=
    mkFileSystem {[ "memo" := "Room 101" ]} ∅ []
      {[ "./memo.ciph" := "memo.ciph"; "./memo" := "memo" ]} in
  items_enc ≠ [] ∧ forallb item_ok items_enc = true ∧
  forallb item_ok items_dec = true ∧
  existsb item_is_ofile items_dec = true ∧
  resolve w (last_ifile items_dec "") = resolve w "memo.ciph" ∧
  last_shift items_dec 5 = last_shift items_enc 5 ∧
  items_digits items_dec = items_digits items_enc ∧
  items_puncts items_dec = items_puncts items_enc ∧
  file_at w "memo" = Some "Room 101" ∧
  can_open_for_writing "memo.ciph" w = true ∧
  resolve w "memo.ciph" ≠ resolve w "memo" ∧
  can_open_for_writing "memo.back" w = true ∧
  resolve w "memo.back" ≠ resolve w "memo.ciph" ∧
  ∃ w1 w2,
    Encipher.main ("enc" :: render items_enc) w = Exit 0 w1 ∧
    Decipher.main ("dec" :: render items_dec) w1 = Exit 0 w2 ∧
    file_at w2 "memo.back" = Some (newline_ended "Room 101").
Proof.
  intros items_enc items_dec w.
  split; [discriminate|]. do 9 (split; [reflexivity|]).
  split; [vm_compute; discriminate|]. split; [reflexivity|].
  split; [vm_compute; discriminate|].
  apply (command_line_round_trip "enc" "dec" items_enc items_dec w "Room 101");
    [discriminate | reflexivity | reflexivity | reflexivity | reflexivity
    | reflexivity | reflexivity | reflexivity | reflexivity | reflexivity
    | vm_compute; discriminate | reflexivity | vm_compute; discriminate].
Defined.

(** *** The second decipher source *)

Lemma decvec_parse_items_options items more :
  forallb item_ok items = true →
  ∀ pr o w,
    DecipherVec.parse_options (render items ++ more) pr o w
    = DecipherVec.parse_options more pr
        (DecipherVec.mkDecipherCtrlOpts
           (DecipherVec.program_name o) (DecipherVec.prog_name_stripped o)
           (last_ifile items (DecipherVec.infilename o))
           (last_ofile items (DecipherVec.outfilename o))
           (DecipherVec.use_default_oname o && negb (existsb item_is_ofile items))
           (last_shift items (DecipherVec.orig_shift_len o))
           (DecipherVec.reduced_shift_len o) (DecipherVec.digits_shift_len o)
           (DecipherVec.puncts_shift_len o)
           (DecipherVec.dec_numbers o || items_digits items)
           (DecipherVec.dec_puncts o || items_puncts items)
           (DecipherVec.cipher_dict o) (DecipherVec.nbytes_file o)
           (DecipherVec.display_log_info o || items_log items)
           (DecipherVec.decipher_flags o)) w.
Proof.
  induction items as [|it items IH]; intros Hok pr o w.
  - cbn. rewrite andb_true_r, !orb_false_r. by destruct o.
  - simpl in Hok. apply andb_true_iff in Hok as [Hit Hok].
    specialize (IH Hok). unfold render. simpl flat_map. fold (render items).
    rewrite <- app_assoc.
    unfold items_digits, items_puncts, items_log in *.
    destruct it as [long path|long path|long text|tok];
      cbn [render_item app existsb item_is_ofile item_sets last_ifile
           last_ofile last_shift orb negb].
    + destruct long; cbn [DecipherVec.parse_options]; simpl; by rewrite IH.
    + destruct long; cbn [DecipherVec.parse_options]; simpl; rewrite IH;
        cbn; by rewrite andb_false_r.
    + simpl in Hit. destruct (stoi text) as [e|n] eqn:Hs; [done|].
      destruct long; cbn [DecipherVec.parse_options]; simpl; rewrite Hs;
        by rewrite IH.
    + simpl in Hit.
      apply switch_token_cases in Hit as [->|[->|[->|(body & -> & Hb)]]].
      { change (DecipherVec.parse_options (_ :: render items ++ more) pr o w)
          with (DecipherVec.parse_options (render items ++ more) pr
                  (DecipherVec.set_dec_puncts true o) w).
        rewrite IH. cbn. by rewrite orb_true_r. }
      { change (DecipherVec.parse_options (_ :: render items ++ more) pr o w)
          with (DecipherVec.parse_options (render items ++ more) pr
                  (DecipherVec.set_dec_puncts true
                     (DecipherVec.set_dec_numbers true o)) w).
        rewrite IH. cbn. by rewrite !orb_true_r. }
      { change (DecipherVec.parse_options (_ :: render items ++ more) pr o w)
          with (DecipherVec.parse_options (render items ++ more) pr
                  (DecipherVec.set_display_log_info true o) w).
        rewrite IH. cbn. by rewrite orb_true_r. }
      rewrite decvec_parse_options_flags by done.
      rewrite IH. unfold decvec_with_flags. cbn.
      rewrite !token_sets_flags by (done || by repeat constructor).
      by rewrite !orb_assoc.
Qed.

Lemma decvec_generateCipherDict_table o :
  DecipherVec.digits_shift_len o = 0 → DecipherVec.puncts_shift_len o = 0 →
  DecipherVec.cipher_dict o = ∅ →
  ∃ o',
    DecipherVec.generateCipherDict o = Some o' ∧
    decipher_table (DecipherVec.orig_shift_len o) (DecipherVec.dec_numbers o)
      (DecipherVec.dec_puncts o) = Some (DecipherVec.cipher_dict o') ∧
    DecipherVec.infilename o' = DecipherVec.infilename o ∧
    DecipherVec.outfilename o' = DecipherVec.outfilename o ∧
    DecipherVec.use_default_oname o' = DecipherVec.use_default_oname o ∧
    DecipherVec.orig_shift_len o' = DecipherVec.orig_shift_len o ∧
    DecipherVec.nbytes_file o' = DecipherVec.nbytes_file o ∧
    DecipherVec.display_log_info o' = DecipherVec.display_log_info o.
Proof.
  destruct o as [pn pns inf outf udo k red ds ps nums puncts dict nb log f].
  cbn [DecipherVec.digits_shift_len DecipherVec.puncts_shift_len
       DecipherVec.cipher_dict].
  intros -> -> ->.
  rewrite decipher_table_eq.
  unfold DecipherVec.generateCipherDict, class_rotation.
  cbn [DecipherVec.orig_shift_len DecipherVec.dec_numbers DecipherVec.dec_puncts].
  rewrite (calcReducedShift_mod 26) by done. simpl.
  destruct nums, puncts; simpl;
    rewrite ?(calcReducedShift_mod (Z.of_nat 10)) by done; simpl;
    rewrite ?(calcReducedShift_mod (Z.of_nat 32)) by done; simpl;
    eexists; (split; [reflexivity|done]).
Qed.

Lemma decvec_decipherFileText_run o w content text :
  let fulloname :=
    if DecipherVec.use_default_oname o then DecipherVec.infilename o ++ ".dec"
    else DecipherVec.outfilename o in
  let count := Z.of_nat (String.length text - count_newlines text) in
  file_at w (DecipherVec.infilename o) = Some content →
  can_open_for_writing fulloname w = true →
  (resolve w fulloname ≠ resolve w (DecipherVec.infilename o) ∧ text = content
   ∨ resolve w fulloname = resolve w (DecipherVec.infilename o) ∧ text = "") →
  DecipherVec.cipher_dict o !! chr 10 = None →
  DecipherVec.decipherFileText o w
  = Returns tt
      (DecipherVec.set_nbytes_file (DecipherVec.nbytes_file o + count)
         (DecipherVec.set_outfilename fulloname o),
       mkFileSystem
         (<[resolve w fulloname :=
              transform_line (DecipherVec.cipher_dict o) (newline_ended text)]>
            (files w))
         (unwritable w)
         (console w ++ if DecipherVec.display_log_info o then []
                       else [PrintCharsRead count])%list
         (links w)).
Proof.
  intros fulloname count Hin Hopen Hcase Hnl. unfold DecipherVec.decipherFileText.
  rewrite Hin. fold fulloname. rewrite open_ofstream_opened by done.
  assert ((if DecipherVec.use_default_oname o
           then DecipherVec.set_outfilename fulloname o else o)
          = DecipherVec.set_outfilename fulloname o) as ->.
  { unfold fulloname. destruct (DecipherVec.use_default_oname o); [done|].
    by destruct o. }
  cbn [DecipherVec.infilename DecipherVec.set_outfilename
       DecipherVec.cipher_dict DecipherVec.nbytes_file].
  match goal with
  | |- context [file_at ?w1 (DecipherVec.infilename o)] =>
      assert (file_at w1 (DecipherVec.infilename o) = Some text) as ->
  end.
  { destruct Hcase as [[Hne ->]|[He ->]];
      [by rewrite file_at_truncated_other | by apply file_at_truncated_same]. }
  change (default "" (Some text)) with text.
  pose proof (transform_lines_getlines _ text "" false Hnl (λ _, eq_refl)) as Hw.
  pose proof (count_getlines (DecipherVec.cipher_dict o) text "" false
                (λ _, eq_refl)) as Hc.
  destruct (transform_lines (DecipherVec.cipher_dict o) (getlines text "" false))
    as [written n].
  cbn [fst snd] in Hw, Hc. subst written n.
  change ("" ++ text) with text.
  rewrite <- transform_line_newline_ended by done.
  change (String.length "" + String.length text)%nat
    with (String.length text).
  fold count. f_equal. f_equal.
  cbn [DecipherVec.display_log_info DecipherVec.set_nbytes_file
       DecipherVec.set_outfilename].
  unfold write_file, print. cbn [files unwritable console links].
  repeat match goal with
         | |- context [resolve (mkFileSystem ?f ?u ?c (links w)) ?q] =>
             change (resolve (mkFileSystem f u c (links w)) q) with (resolve w q)
         end.
  rewrite insert_insert_eq.
  destruct (DecipherVec.display_log_info o); cbn [negb files unwritable console];
    [by rewrite app_nil_r | done].
Qed.

Lemma decvec_main_run progname items w content text :
  let ifile := last_ifile items "" in
  let ofile :=
    if existsb item_is_ofile items then last_ofile items ""
    else ifile ++ ".dec" in
  let count := Z.of_nat (String.length text - count_newlines text) in
  items ≠ [] → forallb item_ok items = true →
  file_at w ifile = Some content →
  can_open_for_writing ofile w = true →
  (resolve w ofile ≠ resolve w ifile ∧ text = content
   ∨ resolve w ofile = resolve w ifile ∧ text = "") →
  ∃ dec,
    decipher_table (last_shift items 5) (items_digits items) (items_puncts items)
    = Some dec ∧
    DecipherVec.main (progname :: render items) w
    = Exit 0
        (mkFileSystem
           (<[resolve w ofile := transform_line dec (newline_ended text)]> (files w))
           (unwritable w)
           (console w ++
              [if items_log items
               then PrintLogInfo ifile ofile (last_shift items 5) count
               else PrintCharsRead count])%list
           (links w)).
Proof.
  intros ifile ofile count Hne Hok Hin Hopen Hdiff.
  unfold DecipherVec.main.
  rewrite decvec_parseCommandLine_options by by apply render_nonempty.
  rewrite <- (app_nil_r (render items)).
  rewrite decvec_parse_items_options by done.
  cbn [DecipherVec.parse_options Z.eqb].
  match goal with
  | |- context [DecipherVec.generateCipherDict ?o] =>
      destruct (decvec_generateCipherDict_table o eq_refl eq_refl eq_refl)
        as (o' & -> & Htab & Hi & Ho & Hd & Hs & Hn & Hl)
  end.
  cbn in Htab, Hi, Ho, Hd, Hs, Hn, Hl.
  exists (DecipherVec.cipher_dict o'). split; [done|].
  assert ((if DecipherVec.use_default_oname o'
           then DecipherVec.infilename o' ++ ".dec"
           else DecipherVec.outfilename o') = ofile) as Hname.
  { rewrite Hd, Hi, Ho. unfold ofile, ifile.
    by destruct (existsb item_is_ofile items). }
  assert (DecipherVec.cipher_dict o' !! chr 10 = None) as Hnl.
  { eapply decipher_outside; [done|]. apply newline_outside_classes. }
  rewrite (decvec_decipherFileText_run o' w content text);
    rewrite ?Hname, ?Hi; try done.
  cbn [DecipherVec.display_log_info DecipherVec.set_nbytes_file
       DecipherVec.set_outfilename].
  rewrite Hl. f_equal. fold count.
  destruct (items_log items); cbn.
  - unfold DecipherVec.printLogInfo, print. cbn.
    rewrite app_nil_r, Hi, Hs, Hn. done.
  - done.
Qed.

(** X20.  The second decipher source on a well-formed command line whose
    output path resolves to another file than the input: as the encipher
    program, with [.dec] for the default output name, which this source
    does use; the log names the output file that was written. *)
Theorem second_decipher_run_on_well_formed_command_line
    (progname : string) (items : list cmd_item) (w : world) (content : string) :
  let ifile := last_ifile items "" in
  let ofile :=
    if existsb item_is_ofile items then last_ofile items ""
    else ifile ++ ".dec" in
  let count := Z.of_nat (String.length content - count_newlines content) in
  items ≠ [] → forallb item_ok items = true →
  file_at w ifile = Some content →
  can_open_for_writing ofile w = true → resolve w ofile ≠ resolve w ifile →
  ∃ dec,
    decipher_table (last_shift items 5) (items_digits items) (items_puncts items)
    = Some dec ∧
    DecipherVec.main (progname :: render items) w
    = Exit 0
        (mkFileSystem
           (<[resolve w ofile := transform_line dec (newline_ended content)]> (files w))
           (unwritable w)
           (console w ++
              [if items_log items
               then PrintLogInfo ifile ofile (last_shift items 5) count
               else PrintCharsRead count])%list
           (links w)).
Proof.
  intros ifile ofile count Hne Hok Hin Hopen Hdiff.
  apply (decvec_main_run progname items w content content); try done.
  by left.
Qed.

Lemma second_decipher_run_on_well_formed_command_line_witness :
  let items := [ItemSwitch "--show-log"; ItemIfile false "memo.ciph"] in
  let w :=
    mkFileSystem {[ "memo.ciph" := "Wttr 101" ]} ∅ []
      {[ "./memo.ciph" := "memo.ciph" ]} in
  items ≠ [] ∧ forallb item_ok items = true ∧
  file_at w "memo.ciph" = Some "Wttr 101" ∧
  can_open_for_writing "memo.ciph.dec" w = true ∧
  resolve w "memo.ciph.dec" ≠ resolve w "memo.ciph" ∧
  ∃ dec,
    decipher_table (last_shift items 5) (items_digits items) (items_puncts items)
    = Some dec ∧
    DecipherVec.main ("dec" :: render items) w
    = Exit 0
        (mkFileSystem
           (<[resolve w "memo.ciph.dec" := transform_line dec (newline_ended "Wttr 101")]>
              (files w))
           (unwritable w)
           (console w ++
              [if items_log items
               then PrintLogInfo "memo.ciph" "memo.ciph.dec" (last_shift items 5)
                      (Z.of_nat (String.length "Wttr 101"
                                 - count_newlines "Wttr 101"))
               else PrintCharsRead
                      (Z.of_nat (String.length "Wttr 101"
                                 - count_newlines "Wttr 101"))])%list
           (links w)).
Proof.
  intros items w.
  split; [discriminate|]. split; [reflexivity|]. split; [reflexivity|].
  split; [reflexivity|]. split; [vm_compute; discriminate|].
  apply (second_decipher_run_on_well_formed_command_line "dec" items w "Wttr 101");
    [discriminate | reflexivity | reflexivity | reflexivity
    | vm_compute; discriminate].
Defined.

(** X21.  The two decipher sources agree on a well-formed command line
    with an [-o] option whose input file exists and whose output file can
    be opened: the same exit status, the same files and the same displays,
    also when the output path resolves to the input file, which both then
    empty before they read. *)
Theorem decipher_sources_agree_with_ofile
    (progname : string) (items : list cmd_item) (w : world) (content : string) :
  forallb item_ok items = true →
  existsb item_is_ofile items = true →
  file_at w (last_ifile items "") = Some content →
  can_open_for_writing (last_ofile items "") w = true →
  Decipher.main (progname :: render items) w
  = DecipherVec.main (progname :: render items) w.
Proof.
  intros Hok Hofile Hin Hopen.
  assert (items ≠ []) as Hne by (by intros ->).
  assert (∃ text,
            resolve w (last_ofile items "") ≠ resolve w (last_ifile items "")
            ∧ text = content
            ∨ resolve w (last_ofile items "") = resolve w (last_ifile items "")
              ∧ text = "") as [text Hcase].
  { destruct (decide (resolve w (last_ofile items "")
                      = resolve w (last_ifile items ""))) as [He|Hd].
    - exists "". by right.
    - exists content. by left. }
  destruct (dec_main_run progname items w content text Hok Hofile Hin Hopen Hcase)
    as (dec & Hdec & ->).
  pose proof (decvec_main_run progname items w content text Hne Hok Hin) as Hv.
  cbv zeta in Hv. rewrite Hofile in Hv.
  destruct (Hv Hopen Hcase) as (dec' & Hdec' & ->).
  by assert (dec' = dec) as -> by congruence.
Qed.

Lemma decipher_sources_agree_with_ofile_witness :
  let items :=
    [ItemOfile true "./cipher"; ItemSwitch "-al"; ItemIfile false "cipher"] in
  let w :=
    mkFileSystem {[ "cipher" := "Mjqqt" ]} ∅ []
      {[ "./cipher" := "cipher" ]} in
  forallb item_ok items = true ∧
  existsb item_is_ofile items = true ∧
  file_at w (last_ifile items "") = Some "Mjqqt" ∧
  can_open_for_writing (last_ofile items "") w = true ∧
  Decipher.main ("dec" :: render items) w
  = DecipherVec.main ("dec" :: render items) w.
Proof.
  intros items w.
  do 4 (split; [reflexivity|]).
  apply (decipher_sources_agree_with_ofile "dec" items w "Mjqqt"); reflexivity.
Defined.

(** ** More about the options *)

(** X22.  The long name of the digits switch differs between the programs:
    the encipher program and the second decipher source know
    [--shift-nums] and reject [--shift-numbers]; the first decipher source
    knows [--shift-numbers] and rejects [--shift-nums]. *)
Theorem digits_switch_long_names
    (rest : list string) (pr : Z) (prd : Decipher.DECIPHER_PROG_CODES)
    (oe : Encipher.CipherOptions) (od : Decipher.DecipherCtrlOpts)
    (ov : DecipherVec.DecipherCtrlOpts) (w : world) :
  Encipher.parse_options ("--shift-nums" :: rest) pr oe w
  = Encipher.parse_options rest pr (Encipher.set_enc_numbers true oe) w ∧
  Encipher.parse_options ("--shift-numbers" :: rest) pr oe w
  = Throws (invalid_argument (Encipher.ia_errmsg "--shift-numbers")) (oe, w) ∧
  DecipherVec.parse_options ("--shift-nums" :: rest) pr ov w
  = DecipherVec.parse_options rest pr (DecipherVec.set_dec_numbers true ov) w ∧
  DecipherVec.parse_options ("--shift-numbers" :: rest) pr ov w
  = Throws (invalid_argument (DecipherVec.ia_errmsg "--shift-numbers")) (ov, w) ∧
  Decipher.parse_deque ("--shift-numbers" :: rest) prd od
  = Decipher.parse_deque rest prd (Decipher.set_flag 2 true od) ∧
  Decipher.parse_deque ("--shift-nums" :: rest) prd od
  = Throws (invalid_argument (Decipher.ia_errmsg "--shift-nums")) od.
Proof. repeat split. Qed.

Lemma recognized_facts body :
  string_forallb recognized body = true →
  string_forallb (λ x, negb (is_dash x)) body = true ∧
  exact_option (String "-" body) = false.
Proof.
  intros Hb. split.
  - induction body as [|c body IH]; [done|].
    cbn [string_forallb] in *. apply andb_true_iff in Hb as [Hc Hb].
    rewrite (IH Hb), andb_true_r.
    by apply recognized_cases in Hc as [->|[->|[->|[->| ->]]]].
  - destruct body as [|c body]; [done|].
    cbn [string_forallb] in Hb. apply andb_true_iff in Hb as [Hc _].
    by apply recognized_cases in Hc as [->|[->|[->|[->| ->]]]].
Qed.

Lemma dec_single_char_loop_help chars code f o :
  string_forallb recognized chars = true →
  ∃ f', Decipher.single_char_loop chars code (Decipher.set_decipher_flags f o)
        = (if string_existsb is_h chars then Decipher.CMDLN_HELP_REQ else code,
           Decipher.set_decipher_flags f' o).
Proof.
  revert code f. induction chars as [|c chars IH]; intros code f Hc.
  - by exists f.
  - cbn [string_forallb] in Hc. apply andb_true_iff in Hc as [Hc Hcs].
    cbn [Decipher.single_char_loop string_existsb].
    apply recognized_cases in Hc as [->|[->|[->|[->| ->]]]];
      simpl Ascii.eqb; cbv iota; rewrite !dec_set_flag_flags;
      match goal with
      | |- context [Decipher.single_char_loop chars ?code1
                      (Decipher.set_decipher_flags ?f1 o)] =>
          destruct (IH code1 f1 Hcs) as (f' & ->)
      end;
      exists f'; cbn; try done.
    by destruct (string_existsb is_h chars).
Qed.

(** X23.  The help character in a combined token: after well-formed
    options, a dash followed by characters among [a], [n], [p], [l], [h]
    with an [h] makes the three programs end with status 0 and ignore what
    follows; the encipher program and the second decipher source print the
    help once for every [h] of the token, the first decipher source once. *)
Theorem help_character_in_combined_token
    (progname : string) (items : list cmd_item) (body : string)
    (rest : list string) (w : world) :
  forallb item_ok items = true →
  string_forallb recognized body = true → string_existsb is_h body = true →
  let args := progname :: (render items ++ String "-" body :: rest)%list in
  Encipher.main args w
  = Exit 0 (print_all (help_prints (path_filename progname) body) w) ∧
  DecipherVec.main args w
  = Exit 0 (print_all (help_prints (path_filename progname) body) w) ∧
  Decipher.main args w = Exit 0 (print (PrintHelp (path_filename progname)) w).
Proof.
  intros Hok Hb Hh args. subst args.
  destruct (recognized_facts body Hb) as [Hd Hex].
  split; [|split].
  - unfold Encipher.main.
    rewrite enc_parseCommandLine_options by apply render_app_cons_nonempty.
    destruct (enc_parse_items items (String "-" body :: rest) Hok 0
                (Encipher.set_prog_name_stripped (path_filename progname)
                   (Encipher.set_program_name progname Encipher.cmdopts0)) w)
      as (o' & -> & _ & _ & _ & Hname).
    rewrite enc_parse_options_single
      by (done || by apply find_last_of_leading_dash).
    cbn [string_rest]. rewrite <- (enc_with_flags_id o') at 1.
    rewrite <- (append_empty_r body) at 2.
    rewrite enc_single_char_options_recognized by done.
    rewrite Hh, orb_true_r. cbn [Encipher.single_char_options Z.eqb Pos.eqb].
    by rewrite Hname.
  - unfold DecipherVec.main.
    rewrite decvec_parseCommandLine_options by apply render_app_cons_nonempty.
    destruct (decvec_parse_items items (String "-" body :: rest) Hok 0
                (DecipherVec.set_prog_name_stripped (path_filename progname)
                   (DecipherVec.set_program_name progname DecipherVec.cmdopts0)) w)
      as (o' & -> & _ & _ & _ & Hname).
    rewrite decvec_parse_options_single
      by (done || by apply find_last_of_leading_dash).
    cbn [string_rest]. rewrite <- (decvec_with_flags_id o') at 1.
    rewrite <- (append_empty_r body) at 2.
    rewrite decvec_single_char_options_recognized by done.
    rewrite Hh, orb_true_r. cbn [DecipherVec.single_char_options Z.eqb Pos.eqb].
    by rewrite Hname.
  - unfold Decipher.main.
    rewrite dec_parseCommandLine_options by apply render_app_cons_nonempty.
    destruct (dec_parse_items items (String "-" body :: rest) Hok
                (Decipher.set_prog_name_stripped (path_filename progname)
                   (Decipher.set_program_name progname Decipher.cmdopts0)))
      as (o' & -> & _ & _ & _ & Hname).
    rewrite dec_parse_deque_single by done.
    rewrite dec_parseSingleCharOptions_dash by done.
    destruct (dec_single_char_loop_help body Decipher.CMDLN_OK
                (Decipher.decipher_flags o') o' Hb) as (f' & Heq).
    rewrite dec_set_decipher_flags_id in Heq. rewrite Heq, Hh.
    cbn [fst snd Decipher.prog_name_stripped Decipher.set_decipher_flags].
    by rewrite Hname.
Qed.

Lemma help_character_in_combined_token_witness :
  let items := [ItemIfile false "f"] in
  let args := "enc" :: (render items ++ String "-" "hnh" :: ["-x"])%list in
  let w := mkWorld {[ "f" := "abc" ]} ∅ [] in
  forallb item_ok items = true ∧
  string_forallb recognized "hnh" = true ∧ string_existsb is_h "hnh" = true ∧
  Encipher.main args w
  = Exit 0 (print_all (help_prints (path_filename "enc") "hnh") w) ∧
  DecipherVec.main args w
  = Exit 0 (print_all (help_prints (path_filename "enc") "hnh") w) ∧
  Decipher.main args w = Exit 0 (print (PrintHelp (path_filename "enc")) w).
Proof.
  intros items args w. do 3 (split; [reflexivity|]).
  apply (help_character_in_combined_token "enc" items "hnh" ["-x"] w);
    reflexivity.
Defined.

Lemma stoi_error text e :
  stoi text = inl e → e = invalid_argument "stoi" ∨ e = out_of_range "stoi".
Proof.
  unfold stoi.
  destruct (match skip_spaces text with
            | String c s' =>
                if Ascii.eqb c "-" then (true, s')
                else if Ascii.eqb c "+" then (false, s') else (false, skip_spaces text)
            | EmptyString => (false, skip_spaces text)
            end) as [negative digits].
  destruct (read_digits digits None) as [v|]; [|intros [= <-]; by left].
  destruct (_ && _); [done|]. intros [= <-]. by right.
Qed.

(** X24.  A shift value that [std::stoi] does not take (no digit after the
    white space and the sign, or a number outside [int]) ends the three
    programs with status 1 after the well-formed options before it, with no
    file changed.  The decipher sources print the text of the exception;
    the encipher program prints it for [invalid_argument] and only the
    message of its catch-all handler for [out_of_range]. *)
Theorem shift_value_not_an_int
    (progname : string) (items : list cmd_item) (long : bool) (text : string)
    (rest : list string) (e : exn) (w : world) :
  forallb item_ok items = true → stoi text = inl e →
  let args :=
    progname :: (render items
                 ++ (if long then "--shift-amount" else "-s") :: text :: rest)%list in
  (e = invalid_argument "stoi" ∨ e = out_of_range "stoi") ∧
  Encipher.main args w
  = Exit 1 (print (match e with
                   | out_of_range _ => PrintUnexpected
                   | _ => PrintWhat e
                   end) w) ∧
  Decipher.main args w = Exit 1 (print (PrintWhat e) w) ∧
  DecipherVec.main args w = Exit 1 (print (PrintWhat e) w).
Proof.
  intros Hok Hs args. subst args. split; [by eapply stoi_error|].
  split; [|split].
  - unfold Encipher.main.
    rewrite enc_parseCommandLine_options by apply render_app_cons_nonempty.
    destruct (enc_parse_items items
                ((if long then "--shift-amount" else "-s") :: text :: rest) Hok 0
                (Encipher.set_prog_name_stripped (path_filename progname)
                   (Encipher.set_program_name progname Encipher.cmdopts0)) w)
      as (o' & -> & _).
    destruct long; cbn [Encipher.parse_options]; simpl; rewrite Hs;
      by destruct e.
  - unfold Decipher.main.
    rewrite dec_parseCommandLine_options by apply render_app_cons_nonempty.
    destruct (dec_parse_items items
                ((if long then "--shift-amount" else "-s") :: text :: rest) Hok
                (Decipher.set_prog_name_stripped (path_filename progname)
                   (Decipher.set_program_name progname Decipher.cmdopts0)))
      as (o' & -> & _).
    destruct long; cbn [Decipher.parse_deque]; simpl; by rewrite Hs.
  - unfold DecipherVec.main.
    rewrite decvec_parseCommandLine_options by apply render_app_cons_nonempty.
    destruct (decvec_parse_items items
                ((if long then "--shift-amount" else "-s") :: text :: rest) Hok 0
                (DecipherVec.set_prog_name_stripped (path_filename progname)
                   (DecipherVec.set_program_name progname DecipherVec.cmdopts0)) w)
      as (o' & -> & _).
    destruct long; cbn [DecipherVec.parse_options]; simpl; by rewrite Hs.
Qed.

Lemma shift_value_not_an_int_witness :
  let items := [ItemIfile false "f"; ItemSwitch "-a"] in
  let e := out_of_range "stoi" in
  let args := "enc" :: (render items ++ "-s" :: "2147483648" :: ["-l"])%list in
  let w := mkWorld {[ "f" := "abc" ]} ∅ [] in
  forallb item_ok items = true ∧ stoi "2147483648" = inl e ∧
  (e = invalid_argument "stoi" ∨ e = out_of_range "stoi") ∧
  Encipher.main args w
  = Exit 1 (print (match e with
                   | out_of_range _ => PrintUnexpected
                   | _ => PrintWhat e
                   end) w) ∧
  Decipher.main args w = Exit 1 (print (PrintWhat e) w) ∧
  DecipherVec.main args w = Exit 1 (print (PrintWhat e) w).
Proof.
  intros items e args w. do 2 (split; [reflexivity|]).
  apply (shift_value_not_an_int "enc" items false "2147483648" ["-l"] e w);
    reflexivity.
Defined.

Lemma decvec_single_char_options_safe tok chars pr ae o w :
  match DecipherVec.single_char_options tok chars pr ae o w with
  | Returns (pr', _) (_, w') =>
      files w' = files w ∧ unwritable w' = unwritable w ∧ (pr' = pr ∨ pr' = 1)
  | Throws e (_, w') =>
      files w' = files w ∧ unwritable w' = unwritable w
  | Undefined => False
  end.
Proof.
  revert pr ae o w. induction chars as [|c chars IH]; intros pr ae o w.
  - cbn. auto.
  - cbn [DecipherVec.single_char_options].
    destruct (bool_decide _); [|done].
    repeat (destruct (Ascii.eqb c _); [apply IH|]).
    destruct (Ascii.eqb c "h"); [|apply IH].
    specialize (IH 1 true o
                  (print (PrintHelp (DecipherVec.prog_name_stripped o)) w)).
    destruct (DecipherVec.single_char_options _ _ _ _ _ _)
      as [[pr' ?] [? w']|? [? w']|]; [|done|done].
    destruct IH as (? & ? & ?). split; [done|]. split; [done|]. right. tauto.
Qed.

Lemma decvec_parse_options_safe_upto (n : nat) opts pr o w :
  (length opts ≤ n)%nat →
  match DecipherVec.parse_options opts pr o w with
  | Returns pr' (_, w') =>
      files w' = files w ∧ unwritable w' = unwritable w ∧ (pr' = pr ∨ pr' = 1)
  | Throws e (_, w') =>
      files w' = files w ∧ unwritable w' = unwritable w
  | Undefined => False
  end.
Proof.
  revert opts pr o w. induction n as [|n IH]; intros opts pr o w Hlen.
  { destruct opts; [cbn; auto | cbn in Hlen; lia]. }
  destruct opts as [|tok following]; [cbn; auto|].
  cbn [length] in Hlen. cbn [DecipherVec.parse_options].
  destruct (String.eqb tok "-i" || String.eqb tok "--ifile").
  { destruct following as [|v rest]; [done|]. apply IH. cbn [length] in Hlen. lia. }
  destruct (String.eqb tok "-o" || String.eqb tok "--ofile").
  { destruct following as [|v rest]; [done|]. apply IH. cbn [length] in Hlen. lia. }
  destruct (String.eqb tok "-s" || String.eqb tok "--shift-amount").
  { destruct following as [|v rest]; [done|].
    destruct (stoi v); [done|]. apply IH. cbn [length] in Hlen. lia. }
  destruct (String.eqb tok "--shift-nums"); [apply IH; lia|].
  destruct (String.eqb tok "--shift-puncts"); [apply IH; lia|].
  destruct (String.eqb tok "--shift-all"); [apply IH; lia|].
  destruct (String.eqb tok "--help"); [cbn; auto|].
  destruct (String.eqb tok "--show-log"); [apply IH; lia|].
  destruct (_ >? _); [done|].
  pose proof (decvec_single_char_options_safe tok (string_rest tok) pr false o w)
    as Hs.
  destruct (DecipherVec.single_char_options _ _ _ _ _ _)
    as [[pr' ae] [o' w']|? [? w']|]; [|done|done].
  destruct Hs as (Hf & Hu & Hpr). destruct ae; [done|].
  specialize (IH following pr' o' w' ltac:(lia)).
  destruct (DecipherVec.parse_options following pr' o' w') as [r [? w'']|? [? w'']|];
    [|by rewrite <- Hf, <- Hu|done].
  destruct IH as (Hf' & Hu' & Hr).
  split; [congruence|]. split; [congruence|]. destruct Hpr, Hr; subst; auto.
Qed.

Lemma decvec_generateCipherDict_total o :
  is_Some (DecipherVec.generateCipherDict o).
Proof.
  unfold DecipherVec.generateCipherDict.
  rewrite (calcReducedShift_mod 26) by done. simpl.
  destruct (DecipherVec.dec_numbers o); simpl;
    rewrite ?(calcReducedShift_mod (Z.of_nat 10)) by done; simpl;
    (destruct (DecipherVec.dec_puncts o); simpl;
     rewrite ?(calcReducedShift_mod (Z.of_nat 32)) by done; simpl);
    exact (mk_is_Some _ _ eq_refl).
Qed.

(** X25.  The second decipher source on every command line and every file
    system: [main] ends with status 0 or 1; when the status is 1 no file
    has been changed and the last thing printed is the text of an
    exception. *)
Theorem second_decipher_main_exit_status (args : list string) (w : world) :
  ∃ st w',
    DecipherVec.main args w = Exit st w' ∧
    (st = 0 ∨ st = 1) ∧
    (st = 1 →
     files w' = files w ∧ ∃ e, last (console w') = Some (PrintWhat e)).
Proof.
  assert (∀ e w1, files w1 = files w →
            ∃ st w', DecipherVec.handle e w1 = Exit st w' ∧
              (st = 0 ∨ st = 1) ∧
              (st = 1 →
               files w' = files w ∧
               ∃ e, last (console w') = Some (PrintWhat e))) as Hh.
  { intros e w1 Hf. eexists _, _. split; [reflexivity|]. split; [by right|].
    intros _. split; [done|]. exists e. cbn. apply last_snoc. }
  unfold DecipherVec.main.
  assert (match DecipherVec.parseCommandLine args DecipherVec.cmdopts0 w with
          | Returns pr' (_, w') =>
              files w' = files w ∧ unwritable w' = unwritable w ∧
              (pr' = 0 ∨ pr' = 1)
          | Throws e (_, w') =>
              files w' = files w ∧ unwritable w' = unwritable w
          | Undefined => False
          end) as Hp.
  { destruct args as [|progname opts]; [done|].
    unfold DecipherVec.parseCommandLine.
    destruct opts as [|tok opts]; [cbn; auto|].
    apply (decvec_parse_options_safe_upto (length (tok :: opts))). done. }
  destruct (DecipherVec.parseCommandLine args DecipherVec.cmdopts0 w)
    as [r [o w1]|e [o w1]|]; [| |done].
  - destruct Hp as (Hf & Hu & [-> | ->]); cbn [Z.eqb];
      [|eexists _, _; split; [reflexivity|]; split; [by left|done]].
    destruct (decvec_generateCipherDict_total o) as [o' ->].
    unfold DecipherVec.decipherFileText.
    destruct (file_at w1 (DecipherVec.infilename o')); [|by apply Hh].
    destruct (open_ofstream _ _) as [opened w2].
    destruct (transform_lines _ _) as [written count].
    eexists _, _. split; [reflexivity|]. split; [by left|done].
  - destruct Hp as (Hf & Hu). by apply Hh.
Qed.

(** X26.  A well-formed command line whose input file (the last [-i]
    file; the empty path when there is no [-i]) does not exist: the three
    programs end with status 1 after printing the [filesystem_error] that
    names the path, and no file is created or changed. *)
Theorem missing_input_file
    (progname : string) (items : list cmd_item) (w : world) :
  items ≠ [] → forallb item_ok items = true →
  file_at w (last_ifile items "") = None →
  Encipher.main (progname :: render items) w
  = Exit 1 (print (PrintWhat (filesystem_error "Input file not found."
                                (last_ifile items ""))) w) ∧
  Decipher.main (progname :: render items) w
  = Exit 1 (print (PrintWhat (filesystem_error "Deciphering text file problem."
                                (last_ifile items ""))) w) ∧
  DecipherVec.main (progname :: render items) w
  = Exit 1 (print (PrintWhat (filesystem_error "Input file not found."
                                (last_ifile items ""))) w).
Proof.
  intros Hne Hok Hin. split; [|split].
  - unfold Encipher.main.
    rewrite enc_parseCommandLine_options by by apply render_nonempty.
    rewrite <- (app_nil_r (render items)).
    rewrite enc_parse_items_options by done.
    cbn [Encipher.parse_options Z.eqb].
    match goal with
    | |- context [Encipher.generateCipherDict ?o] =>
        destruct (enc_generateCipherDict_table o eq_refl eq_refl eq_refl)
          as (o' & -> & _ & Hi & _)
    end.
    cbn in Hi. unfold Encipher.encipherFileText. by rewrite Hi, Hin.
  - unfold Decipher.main.
    rewrite dec_parseCommandLine_options by by apply render_nonempty.
    rewrite <- (app_nil_r (render items)).
    destruct (dec_parse_items_options items [] Hok
                (Decipher.set_prog_name_stripped (path_filename progname)
                   (Decipher.set_program_name progname Decipher.cmdopts0)))
      as (f' & -> & _).
    cbn [Decipher.parse_deque].
    match goal with
    | |- context [Decipher.generateCipherDict ?o] =>
        destruct (dec_generateCipherDict_table o eq_refl eq_refl eq_refl)
          as (o' & -> & _ & Hi & _)
    end.
    cbn in Hi. unfold Decipher.decipherFileText. by rewrite Hi, Hin.
  - unfold DecipherVec.main.
    rewrite decvec_parseCommandLine_options by by apply render_nonempty.
    rewrite <- (app_nil_r (render items)).
    rewrite decvec_parse_items_options by done.
    cbn [DecipherVec.parse_options Z.eqb].
    match goal with
    | |- context [DecipherVec.generateCipherDict ?o] =>
        destruct (decvec_generateCipherDict_table o eq_refl eq_refl eq_refl)
          as (o' & -> & _ & Hi & _)
    end.
    cbn in Hi. unfold DecipherVec.decipherFileText. by rewrite Hi, Hin.
Qed.

Lemma missing_input_file_witness :
  let items := [ItemShift false "3"; ItemOfile false "out"] in
  let w := mkWorld {[ "other" := "abc" ]} ∅ [] in
  items ≠ [] ∧ forallb item_ok items = true ∧
  file_at w (last_ifile items "") = None ∧
  Encipher.main ("enc" :: render items) w
  = Exit 1 (print (PrintWhat (filesystem_error "Input file not found."
                                (last_ifile items ""))) w) ∧
  Decipher.main ("enc" :: render items) w
  = Exit 1 (print (PrintWhat (filesystem_error "Deciphering text file problem."
                                (last_ifile items ""))) w) ∧
  DecipherVec.main ("enc" :: render items) w
  = Exit 1 (print (PrintWhat (filesystem_error "Input file not found."
                                (last_ifile items ""))) w).
Proof.
  intros items w. split; [discriminate|]. do 2 (split; [reflexivity|]).
  apply (missing_input_file "enc" items w); [discriminate | reflexivity..].
Defined.
